(** * DaxTracker3: signal fusion, checkpointed sentiment processing,
      notification gate and process supervisor

    A shallow embedding of the Python sources
    ([signal_generator.py], [sentiment_analyzer.py], [ml_processor.py],
    [notification_system.py], [run_notifier.py], [system_monitor.py])
    together with the properties stated about them.

    Conventions of the embedding.
    - SQLite tables with an integer primary key are finite maps from the
      key to the row; append-only tables read through [ORDER BY] are lists.
    - Python [float] values (scores, strengths, thresholds) are exact
      rationals [Q] in the model of the store and of the components that
      read and write it.  Where a property depends on how the interpreter
      rounds, the arithmetic is modelled on IEEE binary64 numbers
      (module [Float64], primitive floats).
    - The [close_price] columns are nullable: [option Q].
    - [TEXT] values, including the signal names and the timestamps, are
      strings; timestamps are compared as SQLite compares [TEXT], that is
      lexicographically.
    - A database operation wrapped by the source in [try/except] takes the
      [except] branch when the store is not reachable ([db_up = false]).
    - The outside world (the classifier, the message transport, the wall
      clock, the process table, asynchronous signals) is an explicit
      argument of the function that consults it. *)

From Stdlib Require Import Floats.
From Stdlib Require Import QArith Qminmax ZArith String Ascii List Lia Lqa.
From stdpp Require Import gmap strings list sorting.

Local Open Scope string_scope.
Local Open Scope Z_scope.

(* The decimal literals of the sources denote the nearest binary64 value. *)
Set Warnings "-inexact-float".

(** ** Python built-ins used by the sources *)

Module Py.


(** [a > b] and [a >= b] on numbers. *)
Definition gtb (a b : Q) : bool :=
  match (a ?= b)%Q with Gt => true | _ => false end.

Definition geb (a b : Q) : bool :=
  match (a ?= b)%Q with Lt => false | _ => true end.

(** [max(a, b)]: the first argument is kept unless the second is
    strictly greater. *)
Definition max2 (a b : Q) : Q := if gtb b a then b else a.

(** [sum(xs)]: left-to-right accumulation starting from [0]. *)
Definition sum (xs : list Q) : Q := fold_left Qplus xs 0%Q.

(** [max(d, key=d.get)] over a dict given as its items in insertion
    order: the running maximum is replaced only by a strictly greater
    value, so the first maximal key wins. *)
Fixpoint max_key_from {K : Type} (best : K) (bestv : Q) (rest : list (K * Q)) : K :=
  match rest with
  | [] => best
  | (k, v) :: rest' =>
      if gtb v bestv then max_key_from k v rest' else max_key_from best bestv rest'
  end.

Definition max_key {K : Type} (items : list (K * Q)) : option K :=
  match items with
  | [] => None
  | (k, v) :: rest => Some (max_key_from k v rest)
  end.

(** [d[k]] for a dict given as its items. *)
Fixpoint getitem (items : list (string * Q)) (k : string) : option Q :=
  match items with
  | [] => None
  | (k', v) :: rest => if String.eqb k' k then Some v else getitem rest k
  end.

(** [sep.join(parts)]. *)
Definition join (sep : string) (parts : list string) : string :=
  String.concat sep parts.

End Py.

(** ** The durable store

    One SQLite file shared by all components.  [news_data] is keyed by its
    [rowid], [sentiment_results] by [news_id] (its primary key),
    [trading_signals] by its [AUTOINCREMENT] id, for which the store keeps
    the largest id handed out so far.  The [close_price] columns are
    nullable and do hold [NULL]: a latest close that is NaN is stored as
    [NULL] by [save_analysis_results] and copied from there into the
    signals; [None] stands for it. *)

Record NewsRow := {
  nd_timestamp : string;
  nd_symbol : string;
  nd_title : string;
  nd_summary : string;
  nd_url : string
}.

Record SentimentRow := {
  sr_symbol : string;
  sr_negative_score : Q;
  sr_neutral_score : Q;
  sr_positive_score : Q;
  sr_dominant_sentiment : string;
  sr_confidence : Q;
  sr_timestamp : string
}.

Record TechnicalRow := {
  ta_symbol : string;
  ta_timestamp : string;
  ta_close_price : option Q;
  ta_overall_signal : string;
  ta_signal_strength : Q
}.

Record SignalRow := {
  ts_symbol : string;
  ts_timestamp : string;
  ts_signal_type : string;
  ts_confidence : Q;
  ts_close_price : option Q;
  ts_technical_signal : string;
  ts_sentiment_signal : string;
  ts_reason : string;
  ts_notified : bool;
  ts_verified : bool;
  ts_outcome : option string
}.

Record StatusRow := {
  ss_timestamp : string;
  ss_cpu_usage : Q;
  ss_memory_usage : Q;
  ss_disk_usage : Q;
  ss_db_size : Z;
  ss_data_collector_running : Z;
  ss_technical_analyzer_running : Z;
  ss_signal_generator_running : Z;
  ss_notifier_running : Z
}.

Record Database := {
  db_up : bool;
  news_data : gmap Z NewsRow;
  sentiment_results : gmap Z SentimentRow;
  technical_analysis : list TechnicalRow;
  trading_signals : gmap Z SignalRow;
  trading_signals_seq : Z;
  system_status : list StatusRow
}.

Definition set_db_up (b : bool) (db : Database) : Database :=
  {| db_up := b;
     news_data := news_data db;
     sentiment_results := sentiment_results db;
     technical_analysis := technical_analysis db;
     trading_signals := trading_signals db;
     trading_signals_seq := trading_signals_seq db;
     system_status := system_status db |}.

Definition set_sentiment_results (m : gmap Z SentimentRow) (db : Database) : Database :=
  {| db_up := db_up db;
     news_data := news_data db;
     sentiment_results := m;
     technical_analysis := technical_analysis db;
     trading_signals := trading_signals db;
     trading_signals_seq := trading_signals_seq db;
     system_status := system_status db |}.

Definition set_trading_signals (m : gmap Z SignalRow) (seq : Z) (db : Database) : Database :=
  {| db_up := db_up db;
     news_data := news_data db;
     sentiment_results := sentiment_results db;
     technical_analysis := technical_analysis db;
     trading_signals := m;
     trading_signals_seq := seq;
     system_status := system_status db |}.

Definition set_system_status (l : list StatusRow) (db : Database) : Database :=
  {| db_up := db_up db;
     news_data := news_data db;
     sentiment_results := sentiment_results db;
     technical_analysis := technical_analysis db;
     trading_signals := trading_signals db;
     trading_signals_seq := trading_signals_seq db;
     system_status := l |}.

(** [ORDER BY timestamp DESC] on a [TEXT] column: [a] may precede [b] when
    [b]'s timestamp is not after [a]'s.  SQL leaves the order of rows with
    equal timestamps open; the sort used here keeps one fixed order. *)
Definition newer_first {A : Type} (ts : A -> string) (a b : A) : Prop :=
  String.leb (ts b) (ts a) = true.

#[global] Instance newer_first_dec {A : Type} (ts : A -> string) (a b : A) :
  Decision (newer_first ts a b).
Proof. unfold newer_first. apply _. Defined.

Definition order_by_timestamp_desc {A : Type} (ts : A -> string) (rows : list A) : list A :=
  merge_sort (newer_first ts) rows.

(** [ORDER BY rowid] on the items of a table keyed by its [rowid]. *)
Definition rowid_le {A : Type} (a b : Z * A) : Prop := fst a <= fst b.

#[global] Instance rowid_le_dec {A : Type} (a b : Z * A) : Decision (rowid_le a b).
Proof. unfold rowid_le. apply _. Defined.

Definition order_by_rowid {A : Type} (rows : list (Z * A)) : list (Z * A) :=
  merge_sort rowid_le rows.

(** ** Signal fusion engine ([signal_generator.py]) *)

Module Fusion.

(** The dictionary returned by [_get_latest_technical_analysis]. *)
Record Technical := {
  t_symbol : string;
  t_timestamp : string;
  t_close_price : option Q;
  overall_signal : string;
  signal_strength : Q
}.

(** The dictionary returned by [_get_latest_sentiment]. *)
Record Sentiment := {
  s_symbol : string;
  avg_negative : Q;
  avg_neutral : Q;
  avg_positive : Q;
  dominant_sentiment : string;
  confidence : Q;
  latest_news_id : Z;
  latest_news_title : string;
  latest_news_summary : string
}.

(** One element of the list returned by [generate_signals]. *)
Record Signal := {
  symbol : string;
  timestamp : string;
  signal_type : string;
  sig_confidence : Q;
  close_price : option Q;
  technical_signal : string;
  technical_strength : Q;
  sentiment_signal : string;
  sentiment_strength : Q;
  reason : string
}.

(** The default of the constructor's [confidence_threshold]. *)
Definition default_confidence_threshold : Q := 0.7%Q.

(** [SELECT ... FROM technical_analysis WHERE symbol = ?
     ORDER BY timestamp DESC LIMIT 1]; [None] when there is no row or the
    query raises. *)
Definition _get_latest_technical_analysis (db : Database) (sym : string) : option Technical :=
  if db_up db then
    match order_by_timestamp_desc ta_timestamp
            (List.filter (fun r => String.eqb (ta_symbol r) sym) (technical_analysis db)) with
    | [] => None
    | row :: _ =>
        Some {| t_symbol := ta_symbol row;
                t_timestamp := ta_timestamp row;
                t_close_price := ta_close_price row;
                overall_signal := ta_overall_signal row;
                signal_strength := ta_signal_strength row |}
    end
  else None.

(** [sentiment_results sr JOIN news_data nd ON sr.news_id = nd.rowid
     WHERE sr.symbol = ?]. *)
Definition sentiment_join (db : Database) (sym : string) : list (Z * SentimentRow * NewsRow) :=
  omap (fun '(news_id, sr) =>
          if String.eqb (sr_symbol sr) sym then
            match news_data db !! news_id with
            | Some nd => Some (news_id, sr, nd)
            | None => None
            end
          else None)
       (map_to_list (sentiment_results db)).

(** The three averages as the dict [scores], in insertion order. *)
Definition scores_of (neg neu pos : Q) : list (string * Q) :=
  [("negative", neg); ("neutral", neu); ("positive", pos)].

(** The aggregation of the fetched rows (lines 94-124). *)
Definition aggregate (sym : string) (rows : list (Z * SentimentRow * NewsRow)) : option Sentiment :=
  match rows with
  | [] => None
  | latest :: _ =>
      let n := inject_Z (Z.of_nat (length rows)) in
      let avg_neg := (Py.sum (map (fun r => sr_negative_score (snd (fst r))) rows) / n)%Q in
      let avg_neu := (Py.sum (map (fun r => sr_neutral_score (snd (fst r))) rows) / n)%Q in
      let avg_pos := (Py.sum (map (fun r => sr_positive_score (snd (fst r))) rows) / n)%Q in
      let scores := scores_of avg_neg avg_neu avg_pos in
      dominant ← Py.max_key scores;
      conf ← Py.getitem scores dominant;
      Some {| s_symbol := sym;
              avg_negative := avg_neg;
              avg_neutral := avg_neu;
              avg_positive := avg_pos;
              dominant_sentiment := dominant;
              confidence := conf;
              latest_news_id := fst (fst latest);
              latest_news_title := nd_title (snd latest);
              latest_news_summary := nd_summary (snd latest) |}
  end.

Definition _get_latest_sentiment (db : Database) (sym : string) : option Sentiment :=
  if db_up db then
    aggregate sym
      (take 5 (order_by_timestamp_desc (fun r => sr_timestamp (snd (fst r)))
                 (sentiment_join db sym)))
  else None.

Definition _map_sentiment_to_signal (sentiment : string) : string :=
  if String.eqb sentiment "positive" then "BUY"
  else if String.eqb sentiment "negative" then "SELL"
  else "NEUTRAL".

(** Lines 181-199 of [generate_signals]: the combined signal and its
    strength. *)
Definition combine (tech_signal : string) (tech_strength : Q)
    (sent_signal : string) (sent_strength : Q) : string * Q :=
  if String.eqb tech_signal sent_signal && negb (String.eqb tech_signal "NEUTRAL") then
    (tech_signal, ((tech_strength + sent_strength) / 2)%Q)
  else if negb (String.eqb tech_signal "NEUTRAL") && negb (String.eqb sent_signal "NEUTRAL")
          && negb (String.eqb tech_signal sent_signal) then
    ("NEUTRAL", Py.max2 tech_strength sent_strength)
  else if negb (String.eqb tech_signal "NEUTRAL") then
    (tech_signal, (tech_strength * 0.7 + sent_strength * 0.3)%Q)
  else if negb (String.eqb sent_signal "NEUTRAL") then
    (sent_signal, (sent_strength * 0.6 + tech_strength * 0.4)%Q)
  else
    ("NEUTRAL", ((tech_strength + sent_strength) / 2)%Q).

Definition _generate_reason (tech_signal sent_signal : string) (sentiment : option Sentiment) : string :=
  let tech_reasons :=
    if String.eqb tech_signal "BUY" then ["Technische Indikatoren zeigen einen Aufwärtstrend"]
    else if String.eqb tech_signal "SELL" then ["Technische Indikatoren zeigen einen Abwärtstrend"]
    else [] in
  let sent_reasons :=
    match sentiment with
    | Some s =>
        if String.eqb sent_signal "BUY" then [String.append "Positive Nachrichten: " (latest_news_title s)]
        else if String.eqb sent_signal "SELL" then [String.append "Negative Nachrichten: " (latest_news_title s)]
        else []
    | None => []
    end in
  let reasons := List.app tech_reasons sent_reasons in
  Py.join " und " reasons.

(** The signal of the technical row and the signal derived from the
    sentiment, with the neutral default when there is no sentiment
    (lines 169-178). *)
Definition sentiment_input (sentiment : option Sentiment) : string * Q :=
  match sentiment with
  | Some s => (_map_sentiment_to_signal (dominant_sentiment s), confidence s)
  | None => ("NEUTRAL", 0.5%Q)
  end.

(** The body of the loop of [generate_signals] for one symbol: the signal
    appended to [signals], if any. *)
Definition generate_signals_body (db : Database) (confidence_threshold : Q)
    (now : string) (sym : string) : option Signal :=
  let technical := _get_latest_technical_analysis db sym in
  let sentiment := _get_latest_sentiment db sym in
  match technical with
  | None => None
  | Some technical =>
      let tech_signal := overall_signal technical in
      let tech_strength := signal_strength technical in
      let '(sent_signal, sent_strength) := sentiment_input sentiment in
      let '(combined_signal, combined_strength) :=
        combine tech_signal tech_strength sent_signal sent_strength in
      if Py.geb combined_strength confidence_threshold then
        Some {| symbol := sym;
                timestamp := now;
                signal_type := combined_signal;
                sig_confidence := combined_strength;
                close_price := t_close_price technical;
                technical_signal := tech_signal;
                technical_strength := tech_strength;
                sentiment_signal := sent_signal;
                sentiment_strength := sent_strength;
                reason := _generate_reason tech_signal sent_signal sentiment |}
      else None
  end.

Fixpoint generate_signals (db : Database) (confidence_threshold : Q)
    (now : string) (symbols : list string) : list Signal :=
  match symbols with
  | [] => []
  | sym :: rest =>
      match generate_signals_body db confidence_threshold now sym with
      | Some signal => signal :: generate_signals db confidence_threshold now rest
      | None => generate_signals db confidence_threshold now rest
      end
  end.

(** The row written by one [INSERT INTO trading_signals]: the columns
    named by the statement and the defaults of the others. *)
Definition signal_row (sg : Signal) : SignalRow :=
  {| ts_symbol := symbol sg;
     ts_timestamp := timestamp sg;
     ts_signal_type := signal_type sg;
     ts_confidence := sig_confidence sg;
     ts_close_price := close_price sg;
     ts_technical_signal := technical_signal sg;
     ts_sentiment_signal := sentiment_signal sg;
     ts_reason := reason sg;
     ts_notified := false;
     ts_verified := false;
     ts_outcome := None |}.

(** One [INSERT INTO trading_signals] under the next id of the
    sequence. *)
Definition insert_signal (db : Database) (sg : Signal) : Database :=
  let new_id := trading_signals_seq db + 1 in
  set_trading_signals (<[new_id := signal_row sg]> (trading_signals db)) new_id db.

(** [save_signals]: nothing to do for an empty list; all rows are
    committed together, and a failing store leaves the table as it was. *)
Definition save_signals (db : Database) (signals : list Signal) : Database :=
  match signals with
  | [] => db
  | _ => if db_up db then fold_left insert_signal signals db else db
  end.

(** The scheduled job of [run_signal_generator.py]. *)
Definition generate_signals_job (db : Database) (confidence_threshold : Q)
    (now : string) (symbols : list string) : Database :=
  save_signals db (generate_signals db confidence_threshold now symbols).

End Fusion.

(** ** The fusion arithmetic as the interpreter computes it

    Python's [float] is IEEE 754 binary64, and [+], [*] and [/] round to
    nearest, ties to even; these are the operations of the primitive
    floats.  The [int] literal [2] is converted exactly. *)

Module Float64.

(** [max(a, b)]: the first argument is kept unless the second is
    strictly greater. *)
Definition max2 (a b : float) : float := if PrimFloat.ltb a b then b else a.

(** Lines 181-199 of [generate_signals]: the combined signal and its
    strength. *)
Definition combine (tech_signal : string) (tech_strength : float)
    (sent_signal : string) (sent_strength : float) : string * float :=
  if String.eqb tech_signal sent_signal && negb (String.eqb tech_signal "NEUTRAL") then
    (tech_signal, ((tech_strength + sent_strength) / 2)%float)
  else if negb (String.eqb tech_signal "NEUTRAL") && negb (String.eqb sent_signal "NEUTRAL")
          && negb (String.eqb tech_signal sent_signal) then
    ("NEUTRAL", max2 tech_strength sent_strength)
  else if negb (String.eqb tech_signal "NEUTRAL") then
    (tech_signal, (tech_strength * 0.7 + sent_strength * 0.3)%float)
  else if negb (String.eqb sent_signal "NEUTRAL") then
    (sent_signal, (sent_strength * 0.6 + tech_strength * 0.4)%float)
  else
    ("NEUTRAL", ((tech_strength + sent_strength) / 2)%float).

End Float64.

(** ** Checkpointed stream processor
       ([sentiment_analyzer.py], [ml_processor.py]) *)

Module Processor.

(** A row of [news_data] as [fetch_unprocessed_news] returns it. *)
Record NewsItem := {
  ni_id : Z;
  ni_timestamp : string;
  ni_symbol : string;
  ni_title : string;
  ni_summary : string;
  ni_url : string
}.

(** The dictionary returned by [analyze_text]: the three class scores in
    the order of [self.labels], the dominant label and its score. *)
Record Analysis := {
  score_negative : Q;
  score_neutral : Q;
  score_positive : Q;
  dominant_sentiment : string;
  confidence : Q
}.

(** One element of the list returned by [process_news_batch]. *)
Record Result := {
  r_id : Z;
  r_symbol : string;
  r_sentiment : Analysis
}.

(** What the run leaves in its log about each scoring attempt. *)
Inductive Event :=
| Scored (news_id : Z)
| ScoringFailed (news_id : Z).

(** The two signals the processor installs handlers for. *)
Inductive Signum := SIGINT | SIGTERM.

(** The content of [processor_checkpoint.json]. *)
Record Checkpoint := {
  ck_last_news_id : Z;
  ck_last_run : option string
}.

Record State := {
  db : Database;
  (* FinBERTSentimentAnalyzer *)
  last_processed_id : Z;
  sentiment_checkpoint_file : option Z;
  (* InterruptibleMLProcessor *)
  last_news_id : Z;
  last_run : option string;
  processor_checkpoint_file : option Checkpoint;
  pause_event : bool;
  shutdown_flag : bool;
  (* the outside world *)
  fs_up : bool;
  calls : nat;
  log : list Event
}.

Definition set_db (d : Database) (st : State) : State :=
  {| db := d; last_processed_id := last_processed_id st;
     sentiment_checkpoint_file := sentiment_checkpoint_file st;
     last_news_id := last_news_id st; last_run := last_run st;
     processor_checkpoint_file := processor_checkpoint_file st;
     pause_event := pause_event st; shutdown_flag := shutdown_flag st;
     fs_up := fs_up st; calls := calls st; log := log st |}.

Definition set_last_processed_id (v : Z) (st : State) : State :=
  {| db := db st; last_processed_id := v;
     sentiment_checkpoint_file := sentiment_checkpoint_file st;
     last_news_id := last_news_id st; last_run := last_run st;
     processor_checkpoint_file := processor_checkpoint_file st;
     pause_event := pause_event st; shutdown_flag := shutdown_flag st;
     fs_up := fs_up st; calls := calls st; log := log st |}.

Definition set_sentiment_checkpoint_file (f : option Z) (st : State) : State :=
  {| db := db st; last_processed_id := last_processed_id st;
     sentiment_checkpoint_file := f;
     last_news_id := last_news_id st; last_run := last_run st;
     processor_checkpoint_file := processor_checkpoint_file st;
     pause_event := pause_event st; shutdown_flag := shutdown_flag st;
     fs_up := fs_up st; calls := calls st; log := log st |}.

Definition set_current_state (v : Z) (run : option string) (st : State) : State :=
  {| db := db st; last_processed_id := last_processed_id st;
     sentiment_checkpoint_file := sentiment_checkpoint_file st;
     last_news_id := v; last_run := run;
     processor_checkpoint_file := processor_checkpoint_file st;
     pause_event := pause_event st; shutdown_flag := shutdown_flag st;
     fs_up := fs_up st; calls := calls st; log := log st |}.

Definition set_processor_checkpoint_file (f : option Checkpoint) (st : State) : State :=
  {| db := db st; last_processed_id := last_processed_id st;
     sentiment_checkpoint_file := sentiment_checkpoint_file st;
     last_news_id := last_news_id st; last_run := last_run st;
     processor_checkpoint_file := f;
     pause_event := pause_event st; shutdown_flag := shutdown_flag st;
     fs_up := fs_up st; calls := calls st; log := log st |}.

Definition set_pause_event (b : bool) (st : State) : State :=
  {| db := db st; last_processed_id := last_processed_id st;
     sentiment_checkpoint_file := sentiment_checkpoint_file st;
     last_news_id := last_news_id st; last_run := last_run st;
     processor_checkpoint_file := processor_checkpoint_file st;
     pause_event := b; shutdown_flag := shutdown_flag st;
     fs_up := fs_up st; calls := calls st; log := log st |}.

Definition set_shutdown_flag (b : bool) (st : State) : State :=
  {| db := db st; last_processed_id := last_processed_id st;
     sentiment_checkpoint_file := sentiment_checkpoint_file st;
     last_news_id := last_news_id st; last_run := last_run st;
     processor_checkpoint_file := processor_checkpoint_file st;
     pause_event := pause_event st; shutdown_flag := b;
     fs_up := fs_up st; calls := calls st; log := log st |}.

Definition set_fs_up (b : bool) (st : State) : State :=
  {| db := db st; last_processed_id := last_processed_id st;
     sentiment_checkpoint_file := sentiment_checkpoint_file st;
     last_news_id := last_news_id st; last_run := last_run st;
     processor_checkpoint_file := processor_checkpoint_file st;
     pause_event := pause_event st; shutdown_flag := shutdown_flag st;
     fs_up := b; calls := calls st; log := log st |}.

(** One call of the classifier is over: the call counter advances and the
    attempt is logged. *)
Definition record_call (e : Event) (st : State) : State :=
  {| db := db st; last_processed_id := last_processed_id st;
     sentiment_checkpoint_file := sentiment_checkpoint_file st;
     last_news_id := last_news_id st; last_run := last_run st;
     processor_checkpoint_file := processor_checkpoint_file st;
     pause_event := pause_event st; shutdown_flag := shutdown_flag st;
     fs_up := fs_up st; calls := S (calls st); log := log st ++ [e] |}.

(** *** [FinBERTSentimentAnalyzer] *)

(** [_save_checkpoint]: the write is wrapped in [try/except]; when it
    fails the file keeps its content. *)
Definition analyzer_save_checkpoint (st : State) : State :=
  if fs_up st then set_sentiment_checkpoint_file (Some (last_processed_id st)) st
  else st.

(** [news_items[i:i + batch_size] for i in range(0, len(news_items), batch_size)]
    for a positive [batch_size]. *)
Fixpoint chunks_fuel {A : Type} (fuel : nat) (n : nat) (l : list A) : list (list A) :=
  match fuel with
  | O => []
  | S fuel' =>
      match l with
      | [] => []
      | _ => take n l :: chunks_fuel fuel' n (drop n l)
      end
  end.

Definition chunks {A : Type} (n : nat) (l : list A) : list (list A) :=
  chunks_fuel (length l) n l.

(** [_handle_interrupt] and [_handle_terminate]. *)
Definition handle_signal (s : Signum) (st : State) : State :=
  match s with
  | SIGINT => set_pause_event true st
  | SIGTERM => set_shutdown_flag true (set_pause_event true st)
  end.

Definition deliver (s : option Signum) (st : State) : State :=
  match s with
  | Some s => handle_signal s st
  | None => st
  end.

Section Classifier.

(** [analyze_text]: the pretrained classifier; [None] when it raises.  Its
    answer may differ from one call to the next, so it is indexed by the
    number of calls made before. *)
Variable analyze_text : nat -> string -> option Analysis.

(** The body of the inner loop of [process_news_batch] (lines 187-203). *)
Definition process_item (acc : State * list Result) (item : NewsItem) : State * list Result :=
  let '(st, results) := acc in
  if ni_id item >? last_processed_id st then
    let full_text := String.append (ni_title item) (String.append " " (ni_summary item)) in
    match analyze_text (calls st) full_text with
    | Some sentiment =>
        let result := {| r_id := ni_id item; r_symbol := ni_symbol item;
                         r_sentiment := sentiment |} in
        (set_last_processed_id (ni_id item) (record_call (Scored (ni_id item)) st),
         List.app results [result])
    | None => (record_call (ScoringFailed (ni_id item)) st, results)
    end
  else (st, results).

(** The outer loop of [process_news_batch].  [signals] gives, for each
    batch in turn, the signal (if any) whose handler ran before that
    batch's pause check. *)
Fixpoint process_batches (batches : list (list NewsItem)) (signals : list (option Signum))
    (acc : State * list Result) : State * list Result :=
  match batches with
  | [] => acc
  | batch :: rest =>
      let st := deliver (List.hd None signals) (fst acc) in
      if pause_event st then (analyzer_save_checkpoint st, snd acc)
      else
        let '(st', results) := fold_left process_item batch (st, snd acc) in
        process_batches rest (List.tl signals) (analyzer_save_checkpoint st', results)
  end.

(** [process_news_batch]: [None] when [range] raises for a zero step; an
    empty range for a negative one. *)
Definition process_news_batch (st : State) (news_items : list NewsItem) (batch_size : Z)
    (signals : list (option Signum)) : option (State * list Result) :=
  if batch_size =? 0 then None
  else if batch_size <? 0 then Some (st, [])
  else Some (process_batches (chunks (Z.to_nat batch_size) news_items) signals (st, [])).

(** [tokenizer.encode] and [tokenizer.decode] of the pretrained model. *)
Variable tokenizer_encode : string -> list Z.
Variable tokenizer_decode : list Z -> string.

(** The accumulation of lines 139-142: every class average starts at
    [0.0] and receives [score / len(chunk_results)] from each result. *)
Definition add_scores (n : Q) (acc : Q * Q * Q) (r : Analysis) : Q * Q * Q :=
  let '(neg, neu, pos) := acc in
  ((neg + score_negative r / n)%Q, (neu + score_neutral r / n)%Q, (pos + score_positive r / n)%Q).

(** Lines 135-151 of [analyze_long_text]: the result built from the
    chunks that could be scored. *)
Definition average_chunks (chunk_results : list Analysis) : option Analysis :=
  match chunk_results with
  | [] => None
  | _ =>
      let n := inject_Z (Z.of_nat (length chunk_results)) in
      let '(neg, neu, pos) := fold_left (add_scores n) chunk_results (0%Q, 0%Q, 0%Q) in
      let avg_scores := [("negative", neg); ("neutral", neu); ("positive", pos)] in
      dominant_label ← Py.max_key avg_scores;
      conf ← Py.getitem avg_scores dominant_label;
      Some {| score_negative := neg; score_neutral := neu; score_positive := pos;
              dominant_sentiment := dominant_label; confidence := conf |}
  end.

(** [analyze_long_text]; the classifier is called once per chunk,
    starting at call number [first_call].  A zero [chunk_size] makes
    [range] raise, which the method turns into [None]. *)
Definition analyze_long_text (first_call : nat) (text : string) (chunk_size : Z) : option Analysis :=
  if chunk_size =? 0 then None
  else
    let tokenized := tokenizer_encode text in
    let chunks := if chunk_size <? 0 then [] else chunks (Z.to_nat chunk_size) tokenized in
    let chunk_results :=
      omap (fun '(k, chunk) => analyze_text (first_call + k)%nat (tokenizer_decode chunk))
           (imap (fun k chunk => (k, chunk)) chunks) in
    average_chunks chunk_results.

(** *** [InterruptibleMLProcessor] *)

Definition _save_checkpoint (st : State) : State :=
  if fs_up st then
    set_processor_checkpoint_file
      (Some {| ck_last_news_id := last_news_id st; ck_last_run := last_run st |}) st
  else st.

(** [SELECT rowid, ... FROM news_data WHERE rowid > ? ORDER BY rowid];
    the empty list when the query raises. *)
Definition fetch_unprocessed_news (st : State) : list NewsItem :=
  if db_up (db st) then
    map (fun '(rowid, nd) =>
           {| ni_id := rowid; ni_timestamp := nd_timestamp nd; ni_symbol := nd_symbol nd;
              ni_title := nd_title nd; ni_summary := nd_summary nd; ni_url := nd_url nd |})
        (order_by_rowid
           (List.filter (fun '(rowid, _) => rowid >? last_news_id st)
              (map_to_list (news_data (db st)))))
  else [].

(** One [INSERT OR REPLACE INTO sentiment_results]. *)
Definition insert_result (utc_now : string) (m : gmap Z SentimentRow) (r : Result) :
    gmap Z SentimentRow :=
  <[r_id r := {| sr_symbol := r_symbol r;
                 sr_negative_score := score_negative (r_sentiment r);
                 sr_neutral_score := score_neutral (r_sentiment r);
                 sr_positive_score := score_positive (r_sentiment r);
                 sr_dominant_sentiment := dominant_sentiment (r_sentiment r);
                 sr_confidence := confidence (r_sentiment r);
                 sr_timestamp := utc_now |}]> m.

(** [max(r['id'] for r in results)] for a non-empty list. *)
Definition max_id (r : Result) (rest : list Result) : Z :=
  fold_left (fun m r' => if r_id r' >? m then r_id r' else m) rest (r_id r).

(** [save_sentiment_results]: [now] is the local time written to
    [last_run], [utc_now] the store's [datetime('now')]. *)
Definition save_sentiment_results (now utc_now : string) (st : State) (results : list Result) : State :=
  match results with
  | [] => st
  | r :: rest =>
      if db_up (db st) then
        let st1 :=
          set_db (set_sentiment_results
                    (fold_left (insert_result utc_now) results (sentiment_results (db st)))
                    (db st)) st in
        _save_checkpoint (set_current_state (max_id r rest) (Some now) st1)
      else st
  end.

(** One turn of the [while] loop of [process]; the loop is over once the
    shutdown flag is set, and an exception inside the turn is logged and
    leaves the state as it was. *)
Definition process_iteration (batch_size : Z) (now utc_now : string)
    (signals : list (option Signum)) (st : State) : State :=
  if shutdown_flag st then st
  else if pause_event st then st
  else
    match fetch_unprocessed_news st with
    | [] => st
    | news_items =>
        match process_news_batch st news_items batch_size signals with
        | None => st
        | Some (st', results) => save_sentiment_results now utc_now st' results
        end
    end.

Definition resume (st : State) : State := set_pause_event false st.

Definition pause (st : State) : State := set_pause_event true st.

Definition shutdown (st : State) : State :=
  _save_checkpoint (set_shutdown_flag true (set_pause_event true st)).

(** Everything that can happen to a running processor: a turn of its
    loop, a call of one of its methods, a signal between two turns, and
    changes made by the rest of the system to the store or to the
    availability of the store and of the checkpoint directory. *)
Inductive Op :=
| Iterate (batch_size : Z) (now utc_now : string) (signals : list (option Signum))
| Pause
| Resume
| Shutdown
| Signal (s : Signum)
| StoreChanged (f : Database -> Database)
| FilesystemUp (b : bool).

Definition step (op : Op) (st : State) : State :=
  match op with
  | Iterate batch_size now utc_now signals => process_iteration batch_size now utc_now signals st
  | Pause => pause st
  | Resume => resume st
  | Shutdown => shutdown st
  | Signal s => handle_signal s st
  | StoreChanged f => set_db (f (db st)) st
  | FilesystemUp b => set_fs_up b st
  end.

Definition run (ops : list Op) (st : State) : State :=
  fold_left (fun st op => step op st) ops st.

End Classifier.

(** [_load_checkpoint] of both classes at start-up: a missing or
    unreadable file gives the default state. *)
Definition startup (d : Database) (sentiment_file : option Z)
    (processor_file : option Checkpoint) : State :=
  {| db := d;
     last_processed_id := default 0 sentiment_file;
     sentiment_checkpoint_file := sentiment_file;
     last_news_id := from_option ck_last_news_id 0 processor_file;
     last_run := processor_file ≫= ck_last_run;
     processor_checkpoint_file := processor_file;
     pause_event := false;
     shutdown_flag := false;
     fs_up := true;
     calls := O;
     log := [] |}.

(** The value [_load_checkpoint] would read back from the checkpoint
    file. *)
Definition persisted_last_news_id (st : State) : Z :=
  from_option ck_last_news_id 0 (processor_checkpoint_file st).

(** The ids the events of a log are about. *)
Definition scored_ids (evs : list Event) : list Z :=
  omap (fun e => match e with Scored i => Some i | ScoringFailed _ => None end) evs.

Definition failed_ids (evs : list Event) : list Z :=
  omap (fun e => match e with ScoringFailed i => Some i | Scored _ => None end) evs.

(** The id of the item a log line is about. *)
Definition attempt_id (e : Event) : Z :=
  match e with
  | Scored i => i
  | ScoringFailed i => i
  end.

(** The events a step appended to the log. *)
Definition new_events (before after : State) : list Event :=
  drop (length (log before)) (log after).

End Processor.

(** ** Notification gate ([notification_system.py], [run_notifier.py]) *)

Module Notify.

(** A [datetime.time]; compared field by field. *)
Record Time := {
  hour : Z;
  minute : Z;
  second : Z;
  microsecond : Z
}.

Definition time_compare (a b : Time) : comparison :=
  match hour a ?= hour b with
  | Eq =>
      match minute a ?= minute b with
      | Eq =>
          match second a ?= second b with
          | Eq => microsecond a ?= microsecond b
          | c => c
          end
      | c => c
      end
  | c => c
  end.

Definition time_gt (a b : Time) : bool :=
  match time_compare a b with Gt => true | _ => false end.

Definition time_ge (a b : Time) : bool :=
  match time_compare a b with Lt => false | _ => true end.

Definition time_le (a b : Time) : bool :=
  match time_compare a b with Gt => false | _ => true end.

(** What [datetime.datetime.now()] returns: its [weekday()] (Monday is 0),
    its [time()] and its rendering by [strftime('%Y-%m-%d %H:%M:%S')]. *)
Record Moment := {
  weekday : Z;
  time : Time;
  stamp : string
}.

Definition digit (c : ascii) : option Z :=
  let n := Z.of_N (N_of_ascii c) - 48 in
  if (0 <=? n) && (n <=? 9) then Some n else None.

(** One or two decimal digits with a value of at most [limit]. *)
Definition parse_field (limit : Z) (cs : list ascii) : option Z :=
  match cs with
  | [d] => digit d
  | [d1; d2] =>
      a ← digit d1;
      b ← digit d2;
      if 10 * a + b <=? limit then Some (10 * a + b) else None
  | _ => None
  end.

Fixpoint split_colon (cs : list ascii) : option (list ascii * list ascii) :=
  match cs with
  | [] => None
  | c :: rest =>
      if Ascii.eqb c ":" then Some ([], rest)
      else
        match split_colon rest with
        | Some (a, b) => Some (c :: a, b)
        | None => None
        end
  end.

(** [datetime.datetime.strptime(s, '%H:%M').time()]; [None] when it raises
    [ValueError]. *)
Definition strptime_HM (s : string) : option Time :=
  match split_colon (list_ascii_of_string s) with
  | Some (hs, ms) =>
      h ← parse_field 23 hs;
      m ← parse_field 59 ms;
      Some {| hour := h; minute := m; second := 0; microsecond := 0 |}
  | None => None
  end.

(** The content of [notification_config.json]. *)
Record Config := {
  quiet_hours_enabled : bool;
  quiet_hours_start : string;
  quiet_hours_end : string;
  weekends_enabled : bool;
  collect_for_monday : bool;
  minimum_confidence : Q;
  last_notification : option string
}.

Definition default_config : Config :=
  {| quiet_hours_enabled := true;
     quiet_hours_start := "22:00";
     quiet_hours_end := "07:30";
     weekends_enabled := true;
     collect_for_monday := true;
     minimum_confidence := 0.7%Q;
     last_notification := None |}.

Definition set_last_notification (s : string) (c : Config) : Config :=
  {| quiet_hours_enabled := quiet_hours_enabled c;
     quiet_hours_start := quiet_hours_start c;
     quiet_hours_end := quiet_hours_end c;
     weekends_enabled := weekends_enabled c;
     collect_for_monday := collect_for_monday c;
     minimum_confidence := minimum_confidence c;
     last_notification := Some s |}.

(** A signal as [get_unnotified_signals] returns it. *)
Record Signal := {
  sg_id : Z;
  sg_symbol : string;
  sg_timestamp : string;
  sg_signal_type : string;
  sg_confidence : Q;
  sg_close_price : option Q;
  sg_reason : string
}.

(** What [send_signal] writes to its log about a signal. *)
Inductive Event :=
| QuietHours (signal_id : Z)
| Weekend (signal_id : Z)
| Sent (signal_id : Z)
| TransportError (signal_id : Z).

(** What one call of [send_signal] meets outside the program: the wall
    clock, whether the transport accepts the message, whether the
    configuration file can be written, and whether the store accepts the
    [UPDATE] that follows. *)
Record Outside := {
  now : Moment;
  transport_ok : bool;
  config_write_ok : bool;
  store_ok : bool
}.

(** The notifier with the store it works on.  [outbox] holds the signals
    whose message the transport accepted (the text of a message is a
    function of the signal), [log] the log lines of [send_signal]. *)
Record State := {
  db : Database;
  config : Config;
  config_file : option Config;
  outbox : list Signal;
  log : list Event
}.

Definition set_db (d : Database) (st : State) : State :=
  {| db := d; config := config st; config_file := config_file st;
     outbox := outbox st; log := log st |}.

Definition add_log (e : Event) (st : State) : State :=
  {| db := db st; config := config st; config_file := config_file st;
     outbox := outbox st; log := log st ++ [e] |}.

(** The effects of a successful [bot.send_message] (lines 152-162). *)
Definition delivered (w : Outside) (signal : Signal) (st : State) : State :=
  let config' := set_last_notification (stamp (now w)) (config st) in
  {| db := db st;
     config := config';
     config_file := if config_write_ok w then Some config' else config_file st;
     outbox := outbox st ++ [signal];
     log := log st ++ [Sent (sg_id signal)] |}.

(** [_is_in_quiet_hours]; [None] when [strptime] raises. *)
Definition _is_in_quiet_hours (c : Config) (now : Time) : option bool :=
  if negb (quiet_hours_enabled c) then Some false
  else
    start ← strptime_HM (quiet_hours_start c);
    end_ ← strptime_HM (quiet_hours_end c);
    if time_gt start end_ then Some (time_ge now start || time_le now end_)
    else Some (time_le start now && time_le now end_).

Definition _is_weekend (c : Config) (today : Z) : bool :=
  if negb (weekends_enabled c) then false
  else today >=? 5.

(** [_format_signal_message] (lines 96-125): [f"{signal['close_price']:.2f}"]
    raises [TypeError] on a close price that is [None]; the text of the
    message is a function of the signal and is not spelled out.  [None]
    stands for the exception. *)
Definition _format_signal_message (signal : Signal) : option Signal :=
  match sg_close_price signal with
  | Some _ => Some signal
  | None => None
  end.

(** [send_signal]: the new state and the returned boolean, or [None] when
    an exception leaves the method: [strptime] failing on the window, or
    the message being formatted, which happens before the [try] that
    catches the transport's errors. *)
Definition send_signal (w : Outside) (signal : Signal) (st : State) : State * option bool :=
  match _is_in_quiet_hours (config st) (time (now w)) with
  | None => (st, None)
  | Some true => (add_log (QuietHours (sg_id signal)) st, Some false)
  | Some false =>
      let is_weekend := _is_weekend (config st) (weekday (now w)) in
      if is_weekend && negb (collect_for_monday (config st)) then
        (add_log (Weekend (sg_id signal)) st, Some false)
      else
        match _format_signal_message signal with
        | None => (st, None)
        | Some message =>
            if transport_ok w then (delivered w message st, Some true)
            else (add_log (TransportError (sg_id signal)) st, Some false)
        end
  end.

(** [SignalGenerator.get_unnotified_signals]. *)
Definition get_unnotified_signals (d : Database) : list Signal :=
  if db_up d then
    map (fun '(i, r) =>
           {| sg_id := i; sg_symbol := ts_symbol r; sg_timestamp := ts_timestamp r;
              sg_signal_type := ts_signal_type r; sg_confidence := ts_confidence r;
              sg_close_price := ts_close_price r; sg_reason := ts_reason r |})
        (order_by_timestamp_desc (fun ir => ts_timestamp (snd ir))
           (List.filter (fun ir => negb (ts_notified (snd ir)))
              (map_to_list (trading_signals d))))
  else [].

Definition mark_row (r : SignalRow) : SignalRow :=
  {| ts_symbol := ts_symbol r; ts_timestamp := ts_timestamp r;
     ts_signal_type := ts_signal_type r; ts_confidence := ts_confidence r;
     ts_close_price := ts_close_price r;
     ts_technical_signal := ts_technical_signal r;
     ts_sentiment_signal := ts_sentiment_signal r;
     ts_reason := ts_reason r;
     ts_notified := true;
     ts_verified := ts_verified r;
     ts_outcome := ts_outcome r |}.

(** [SignalGenerator.mark_as_notified]:
    [UPDATE trading_signals SET notified = 1 WHERE id = ?]. *)
Definition mark_as_notified (accepted : bool) (signal_id : Z) (d : Database) : Database :=
  if db_up d && accepted then
    set_trading_signals (alter mark_row signal_id (trading_signals d)) (trading_signals_seq d) d
  else d.

(** The loop of [send_notifications] (lines 38-40); an exception leaving
    [send_signal] ends it.  [world] tells what the call for each signal
    meets. *)
Fixpoint notify_each (world : Z -> Outside) (signals : list Signal) (st : State) : State :=
  match signals with
  | [] => st
  | signal :: rest =>
      let w := world (sg_id signal) in
      match send_signal w signal st with
      | (st', None) => st'
      | (st', Some true) =>
          notify_each world rest
            (set_db (mark_as_notified (store_ok w) (sg_id signal) (db st')) st')
      | (st', Some false) => notify_each world rest st'
      end
  end.

Definition send_notifications (world : Z -> Outside) (st : State) : State :=
  notify_each world (get_unnotified_signals (db st)) st.

(** The scheduled job run again and again, once per element of
    [worlds]. *)
Definition run_gate (worlds : list (Z -> Outside)) (st : State) : State :=
  fold_left (fun st world => send_notifications world st) worlds st.

(** The value of the [notified] column of a signal. *)
Definition notified (d : Database) (signal_id : Z) : option bool :=
  ts_notified <$> trading_signals d !! signal_id.

(** The suppression policy holds a delivery back at the moment [m]. *)
Definition suppressed (c : Config) (m : Moment) : Prop :=
  _is_in_quiet_hours c (time m) = Some true ∨
  _is_weekend c (weekday m) && negb (collect_for_monday c) = true.

(** The quiet-hours window of the configuration can be read. *)
Definition window_readable (c : Config) : Prop :=
  quiet_hours_enabled c = false ∨
  (is_Some (strptime_HM (quiet_hours_start c)) ∧ is_Some (strptime_HM (quiet_hours_end c))).

(** The part of the configuration the suppression policy reads. *)
Definition policy (c : Config) : bool * string * string * bool * bool :=
  (quiet_hours_enabled c, quiet_hours_start c, quiet_hours_end c,
   weekends_enabled c, collect_for_monday c).

(** The signal a log line is about. *)
Definition event_id (e : Event) : Z :=
  match e with
  | QuietHours i | Weekend i | Sent i | TransportError i => i
  end.

(** The signals a log reports as sent. *)
Definition sent_ids (evs : list Event) : list Z :=
  omap (fun e => match e with Sent i => Some i | _ => None end) evs.

(** The log lines a job appended. *)
Definition new_events (before after : State) : list Event :=
  drop (length (log before)) (log after).

End Notify.

(** ** Process supervisor ([system_monitor.py]) *)

Module Monitor.

(** An entry of [psutil.process_iter(['pid', 'name', 'cmdline'])].  The
    name is [None] when the operating system withholds it; a withheld
    command line is the empty list, both being false to [and]. *)
Record Proc := {
  pid : Z;
  name : option string;
  cmdline : list string
}.

(** [str.lower] on ASCII letters. *)
Definition lower_ascii (c : ascii) : ascii :=
  let n := N_of_ascii c in
  if ((65 <=? n) && (n <=? 90))%N then ascii_of_N (n + 32) else c.

Fixpoint lower (s : string) : string :=
  match s with
  | EmptyString => EmptyString
  | String c s' => String (lower_ascii c) (lower s')
  end.

(** [needle in hay] on strings. *)
Fixpoint contains (needle hay : string) : bool :=
  String.prefix needle hay ||
  match hay with
  | EmptyString => false
  | String _ hay' => contains needle hay'
  end.

(** The four worker roles with the script of each, in the order of
    [script_names]. *)
Definition script_names : list (string * string) :=
  [("data_collector", "run_collector.py");
   ("technical_analyzer", "run_technical_analysis.py");
   ("signal_generator", "run_signal_generator.py");
   ("notifier", "run_notifier.py")].

(** The same scripts under the keys of the status dictionary, in the
    order of [script_mapping]. *)
Definition script_mapping : list (string * string) :=
  [("data_collector_running", "run_collector.py");
   ("technical_analyzer_running", "run_technical_analysis.py");
   ("signal_generator_running", "run_signal_generator.py");
   ("notifier_running", "run_notifier.py")].

(** The test of lines 114-116 on one process; [None] when [.lower()] is
    applied to a withheld name, which raises. *)
Definition matches (script : string) (p : Proc) : option bool :=
  match name p with
  | None => None
  | Some n =>
      Some (contains "python" (lower n) &&
            match cmdline p with
            | [] => false
            | _ => contains script (Py.join " " (cmdline p))
            end)
  end.

(** The inner loop of [check_processes], left at the first match. *)
Fixpoint is_running (script : string) (procs : list Proc) : option bool :=
  match procs with
  | [] => Some false
  | p :: rest =>
      match matches script p with
      | None => None
      | Some true => Some true
      | Some false => is_running script rest
      end
  end.

(** The outer loop of [check_processes] over the roles. *)
Fixpoint check_roles (roles : list (string * string)) (procs : list Proc)
    (status : gmap string Z) : option (gmap string Z) :=
  match roles with
  | [] => Some status
  | (key, script) :: rest =>
      match is_running script procs with
      | None => None
      | Some running =>
          check_roles rest procs
            (<[String.append key "_running" := if running then 1 else 0]> status)
      end
  end.

(** [check_processes]: the status dictionary, or [None] when an exception
    reaches the outer handler. *)
Definition check_processes (procs : list Proc) : option (gmap string Z) :=
  check_roles script_names procs ∅.

(** The dictionary returned by [check_system_resources]. *)
Record Resources := {
  cpu_usage : Q;
  memory_usage : Q;
  disk_usage : Q;
  db_size : Z
}.

(** What [restart_process] and the poll write to the log. *)
Inductive Event :=
| RestartAttempt (script : string)
| Restarted (script : string)
| ScriptMissing (script : string)
| RestartError (script : string)
| CheckFailed.

(** What one poll meets outside the program: the clock, the resource
    readings, the process table at each of the two process checks, which
    scripts exist and whether spawning one works. *)
Record Outside := {
  now : string;
  resources : option Resources;
  procs_at_snapshot : list Proc;
  procs_at_restart : list Proc;
  script_exists : string -> bool;
  spawn_ok : string -> bool
}.

(** The supervisor with the store: the scripts it has spawned and its
    log. *)
Record State := {
  db : Database;
  spawned : list string;
  log : list Event
}.

Definition add_log (e : Event) (st : State) : State :=
  {| db := db st; spawned := spawned st; log := log st ++ [e] |}.

Definition spawn (script : string) (st : State) : State :=
  {| db := db st; spawned := spawned st ++ [script];
     log := log st ++ [Restarted script] |}.

Definition restart_process (w : Outside) (script_name : string) (st : State) : State * bool :=
  if negb (script_exists w script_name) then (add_log (ScriptMissing script_name) st, false)
  else if spawn_ok w script_name then (spawn script_name st, true)
  else (add_log (RestartError script_name) st, false).

(** The loop of [check_and_restart_processes] (lines 179-182);
    [status.get(status_key, 0)] is [0] for a missing key. *)
Fixpoint restart_missing (w : Outside) (status : gmap string Z)
    (mapping : list (string * string)) (st : State) : State :=
  match mapping with
  | [] => st
  | (status_key, script) :: rest =>
      if default 0 (status !! status_key) =? 0 then
        restart_missing w status rest
          (fst (restart_process w script (add_log (RestartAttempt script) st)))
      else restart_missing w status rest st
  end.

Definition check_and_restart_processes (w : Outside) (st : State) : State :=
  match check_processes (procs_at_restart w) with
  | None => add_log CheckFailed st
  | Some status =>
      if decide (status = ∅) then add_log CheckFailed st
      else restart_missing w status script_mapping st
  end.

(** [data[key]] on the merged dictionary for one of the liveness keys;
    [None] stands for the [KeyError]. *)
Definition liveness (processes : gmap string Z) (key : string) : option Z :=
  processes !! key.

(** [save_status]: the new state and the returned boolean. *)
Definition save_status (w : Outside) (st : State) : State * bool :=
  match resources w, check_processes (procs_at_snapshot w) with
  | Some r, Some processes =>
      if decide (processes = ∅) then (st, false)
      else
        match liveness processes "data_collector_running",
              liveness processes "technical_analyzer_running",
              liveness processes "signal_generator_running",
              liveness processes "notifier_running" with
        | Some dc, Some ta, Some sg, Some nt =>
            if db_up (db st) then
              let row :=
                {| ss_timestamp := now w;
                   ss_cpu_usage := cpu_usage r;
                   ss_memory_usage := memory_usage r;
                   ss_disk_usage := disk_usage r;
                   ss_db_size := db_size r;
                   ss_data_collector_running := dc;
                   ss_technical_analyzer_running := ta;
                   ss_signal_generator_running := sg;
                   ss_notifier_running := nt |} in
              ({| db := set_system_status (system_status (db st) ++ [row]) (db st);
                  spawned := spawned st; log := log st |}, true)
            else (st, false)
        | _, _, _, _ => (st, false)
        end
  | _, _ => (st, false)
  end.

(** [run_monitoring]: the snapshot first, then the restarts. *)
Definition run_monitoring (w : Outside) (st : State) : State :=
  check_and_restart_processes w (fst (save_status w st)).

(** The log lines a poll appended. *)
Definition new_events (before after : State) : list Event :=
  drop (length (log before)) (log after).

(** The liveness value stored for the outcome of a process check. *)
Definition flag (running : option bool) : option Z :=
  (fun b : bool => if b then 1 else 0) <$> running.


(** The roles a status dictionary reports as not running, as their
    scripts. *)
Definition not_running (status : gmap string Z) : list string :=
  map snd (List.filter (fun ks => default 0 (status !! fst ks) =? 0) script_mapping).

End Monitor.

(** ** Definitions used to state the properties *)

(** The fusion rule in the words of the specification: the five cases in
    order, each with its own condition spelled out, the weights written
    before the strengths, every operation in binary64. *)
Definition fusion_rule_binary64 (tech_signal : string) (tech_strength : float)
    (sent_signal : string) (sent_strength : float) : string * float :=
  if decide (tech_signal = sent_signal ∧ tech_signal ≠ "NEUTRAL") then
    (tech_signal, ((tech_strength + sent_strength) / 2)%float)
  else if decide (tech_signal ≠ "NEUTRAL" ∧ sent_signal ≠ "NEUTRAL" ∧ tech_signal ≠ sent_signal) then
    ("NEUTRAL", if PrimFloat.ltb tech_strength sent_strength then sent_strength else tech_strength)
  else if decide (tech_signal ≠ "NEUTRAL" ∧ sent_signal = "NEUTRAL") then
    (tech_signal, (0.7 * tech_strength + 0.3 * sent_strength)%float)
  else if decide (sent_signal ≠ "NEUTRAL" ∧ tech_signal = "NEUTRAL") then
    (sent_signal, (0.6 * sent_strength + 0.4 * tech_strength)%float)
  else
    ("NEUTRAL", ((tech_strength + sent_strength) / 2)%float).

(** The [AUTOINCREMENT] sequence of [trading_signals] is not behind the
    table: no row carries an id above it. *)
Definition signals_seq_ok (d : Database) : Prop :=
  ∀ i, is_Some (trading_signals d !! i) → i <= trading_signals_seq d.

(** [k] is the first key of [items] whose value is maximal: the item at
    some position [i] has key [k], no value is greater than its value,
    and every value before position [i] is strictly smaller. *)
Definition first_max {K : Type} (items : list (K * Q)) (k : K) : Prop :=
  ∃ i v,
    items !! i = Some (k, v) ∧
    (∀ j kj vj, items !! j = Some (kj, vj) → (vj <= v)%Q) ∧
    (∀ j kj vj, (j < i)%nat → items !! j = Some (kj, vj) → (vj < v)%Q).


(** What a stretch of [process_news_batch] over [items] may do, from the
    state [st] with the results [results] to [st'] with [results']: only
    the analyzer's cursor, the flags, the analyzer's checkpoint file and
    the log move; the cursor does not go back; every attempt is on one of
    the items and above the cursor the stretch started from; the new
    results are the scored items in order; and the cursor ends on a scored
    item if there is one and where it was otherwise. *)
Definition scoring_phase (st st' : Processor.State)
    (results results' : list Processor.Result) (items : list Processor.NewsItem) : Prop :=
  Processor.db st' = Processor.db st ∧
  Processor.last_news_id st' = Processor.last_news_id st ∧
  Processor.last_run st' = Processor.last_run st ∧
  Processor.processor_checkpoint_file st' = Processor.processor_checkpoint_file st ∧
  Processor.fs_up st' = Processor.fs_up st ∧
  Processor.last_processed_id st <= Processor.last_processed_id st' ∧
  ∃ evs new,
    Processor.log st' = (Processor.log st ++ evs)%list ∧
    results' = (results ++ new)%list ∧
    map Processor.r_id new = Processor.scored_ids evs ∧
    (∀ i, i ∈ Processor.scored_ids evs →
          Processor.last_processed_id st < i <= Processor.last_processed_id st') ∧
    (∀ i, i ∈ Processor.failed_ids evs → Processor.last_processed_id st < i) ∧
    (∀ i, i ∈ Processor.scored_ids evs ∨ i ∈ Processor.failed_ids evs →
          i ∈ map Processor.ni_id items) ∧
    (Processor.scored_ids evs = [] →
     Processor.last_processed_id st' = Processor.last_processed_id st) ∧
    (Processor.scored_ids evs ≠ [] →
     Processor.last_processed_id st' ∈ Processor.scored_ids evs).

(** No un-notified signal of the store has a close price that is
    [NULL]. *)
Definition prices_known (d : Database) : Prop :=
  ∀ j r, trading_signals d !! j = Some r → ts_notified r = false →
         is_Some (ts_close_price r).

(** Membership in the quiet-hours window in the words of the
    specification: a window that wraps midnight holds the times from
    [start] on and the times up to [end_]; any other window is half-open,
    with [end_] itself outside. *)
Definition quiet_window_spec (start end_ now : Notify.Time) : bool :=
  if Notify.time_gt start end_ then Notify.time_ge now start || Notify.time_le now end_
  else Notify.time_le start now && negb (Notify.time_ge now end_).

(** ** Sample data *)

Module Sample.

Definition at_time (h m : Z) : Notify.Time :=
  {| Notify.hour := h; Notify.minute := m; Notify.second := 0; Notify.microsecond := 0 |}.

(** A day-time window, 09:00 to 17:00. *)
Definition office_hours : Notify.Config :=
  {| Notify.quiet_hours_enabled := true;
     Notify.quiet_hours_start := "09:00";
     Notify.quiet_hours_end := "17:00";
     Notify.weekends_enabled := true;
     Notify.collect_for_monday := false;
     Notify.minimum_confidence := 0.7%Q;
     Notify.last_notification := None |}.

Definition news (title : string) : NewsRow :=
  {| nd_timestamp := "2024-03-01 09:00:00"; nd_symbol := "AAPL"; nd_title := title;
     nd_summary := "summary"; nd_url := String.append "https://example.org/" title |}.

Definition empty_db : Database :=
  {| db_up := true; news_data := ∅; sentiment_results := ∅; technical_analysis := [];
     trading_signals := ∅; trading_signals_seq := 0; system_status := [] |}.

(** Three news items, none scored yet. *)
Definition news_db : Database :=
  {| db_up := true;
     news_data := <[3 := news "third"]> (<[2 := news "second"]> (<[1 := news "first"]> ∅));
     sentiment_results := ∅; technical_analysis := [];
     trading_signals := ∅; trading_signals_seq := 0; system_status := [] |}.

Definition positive : Processor.Analysis :=
  {| Processor.score_negative := 0.1%Q; Processor.score_neutral := 0.2%Q;
     Processor.score_positive := 0.7%Q;
     Processor.dominant_sentiment := "positive"; Processor.confidence := 0.7%Q |}.

(** A classifier that fails on the second item and on nothing else. *)
Definition fails_on_second (call : nat) (text : string) : option Processor.Analysis :=
  if String.eqb text "second summary" then None else Some positive.

(** A classifier whose third call fails, whatever the text. *)
Definition fails_third_call (call : nat) (text : string) : option Processor.Analysis :=
  if Nat.eqb call 2 then None else Some positive.

(** A classifier that never fails. *)
Definition never_fails (call : nat) (text : string) : option Processor.Analysis :=
  Some positive.

Definition fresh : Processor.State := Processor.startup news_db None None.

(** A technical row for AAPL and one scored news item about it. *)
Definition market_db : Database :=
  {| db_up := true;
     news_data := <[1 := news "Apple beats expectations"]> ∅;
     sentiment_results :=
       <[1 := {| sr_symbol := "AAPL"; sr_negative_score := 0.05%Q;
                 sr_neutral_score := 0.05%Q; sr_positive_score := 0.9%Q;
                 sr_dominant_sentiment := "positive"; sr_confidence := 0.9%Q;
                 sr_timestamp := "2024-03-01 09:05:00" |}]> ∅;
     technical_analysis :=
       [{| ta_symbol := "AAPL"; ta_timestamp := "2024-03-01 09:10:00";
           ta_close_price := Some 180%Q; ta_overall_signal := "BUY";
           ta_signal_strength := 0.8%Q |};
        {| ta_symbol := "MSFT"; ta_timestamp := "2024-03-01 09:10:00";
           ta_close_price := Some 410%Q; ta_overall_signal := "SELL";
           ta_signal_strength := 0.8%Q |}];
     trading_signals := ∅; trading_signals_seq := 0; system_status := [] |}.

(** One scored news item about AAPL whose negative and positive scores
    tie at the top. *)
Definition tied_db : Database :=
  {| db_up := true;
     news_data := <[1 := news "Apple splits opinion"]> ∅;
     sentiment_results :=
       <[1 := {| sr_symbol := "AAPL"; sr_negative_score := 0.4%Q;
                 sr_neutral_score := 0.2%Q; sr_positive_score := 0.4%Q;
                 sr_dominant_sentiment := "negative"; sr_confidence := 0.4%Q;
                 sr_timestamp := "2024-03-01 09:05:00" |}]> ∅;
     technical_analysis := [];
     trading_signals := ∅; trading_signals_seq := 0; system_status := [] |}.

Definition tied : Processor.Analysis :=
  {| Processor.score_negative := 0.4%Q; Processor.score_neutral := 0.2%Q;
     Processor.score_positive := 0.4%Q;
     Processor.dominant_sentiment := "negative"; Processor.confidence := 0.4%Q |}.

Definition pending_row : SignalRow :=
  {| ts_symbol := "AAPL"; ts_timestamp := "2024-03-02 10:00:00"; ts_signal_type := "BUY";
     ts_confidence := 0.85%Q; ts_close_price := Some 180%Q; ts_technical_signal := "BUY";
     ts_sentiment_signal := "BUY"; ts_reason := "Technische Indikatoren"; ts_notified := false;
     ts_verified := false; ts_outcome := None |}.

(** One signal waiting to be notified. *)
Definition pending_db : Database :=
  {| db_up := true; news_data := ∅; sentiment_results := ∅; technical_analysis := [];
     trading_signals := <[1 := pending_row]> ∅; trading_signals_seq := 1;
     system_status := [] |}.

Definition gate (c : Notify.Config) : Notify.State :=
  {| Notify.db := pending_db; Notify.config := c; Notify.config_file := None;
     Notify.outbox := []; Notify.log := [] |}.

(** A Saturday morning and a Tuesday morning. *)
Definition saturday : Notify.Moment :=
  {| Notify.weekday := 5; Notify.time := at_time 10 0; Notify.stamp := "2024-03-02 10:00:00" |}.

Definition tuesday : Notify.Moment :=
  {| Notify.weekday := 1; Notify.time := at_time 10 0; Notify.stamp := "2024-03-05 10:00:00" |}.

Definition outside (m : Notify.Moment) (transport : bool) : Z -> Notify.Outside :=
  fun _ => {| Notify.now := m; Notify.transport_ok := transport;
              Notify.config_write_ok := true; Notify.store_ok := true |}.

(** Weekend suppression without collecting, no quiet hours. *)
Definition weekend_policy : Notify.Config :=
  {| Notify.quiet_hours_enabled := false;
     Notify.quiet_hours_start := "22:00";
     Notify.quiet_hours_end := "07:30";
     Notify.weekends_enabled := true;
     Notify.collect_for_monday := false;
     Notify.minimum_confidence := 0.7%Q;
     Notify.last_notification := None |}.

Definition python (script : string) : Monitor.Proc :=
  {| Monitor.pid := 100; Monitor.name := Some "python3";
     Monitor.cmdline := ["python3"; script] |}.

(** Only the notifier is running. *)
Definition poll : Monitor.Outside :=
  {| Monitor.now := "2024-03-01 09:00:00";
     Monitor.resources :=
       Some {| Monitor.cpu_usage := 12%Q; Monitor.memory_usage := 40%Q;
               Monitor.disk_usage := 55%Q; Monitor.db_size := 4096 |};
     Monitor.procs_at_snapshot := [python "run_notifier.py"];
     Monitor.procs_at_restart := [python "run_notifier.py"];
     Monitor.script_exists := fun _ => true;
     Monitor.spawn_ok := fun _ => true |}.

Definition supervisor : Monitor.State :=
  {| Monitor.db := empty_db; Monitor.spawned := []; Monitor.log := [] |}.

End Sample.

(** ** Further components

    The parts of the sources around the ones above
    ([technical_analyzer.py], [run_technical_analysis.py],
    [data_collector.py], [run_collector.py], [backup_system.py]): the
    vote of the technical analyzer and its write to the store, the news
    collector, and the backup job. *)

Definition set_technical_analysis (l : list TechnicalRow) (db : Database) : Database :=
  {| db_up := db_up db;
     news_data := news_data db;
     sentiment_results := sentiment_results db;
     technical_analysis := l;
     trading_signals := trading_signals db;
     trading_signals_seq := trading_signals_seq db;
     system_status := system_status db |}.

Definition set_news_data (m : gmap Z NewsRow) (db : Database) : Database :=
  {| db_up := db_up db;
     news_data := m;
     sentiment_results := sentiment_results db;
     technical_analysis := technical_analysis db;
     trading_signals := trading_signals db;
     trading_signals_seq := trading_signals_seq db;
     system_status := system_status db |}.

(** *** Technical analyzer ([technical_analyzer.py], [run_technical_analysis.py]) *)

Module Technical.

(** An indicator value read with [.iloc[-1]]: pandas gives NaN where the
    history is shorter than the window, and every comparison with NaN is
    false.  [None] stands for NaN. *)
Definition gt (a b : option Q) : bool :=
  match a, b with
  | Some x, Some y => Py.gtb x y
  | _, _ => false
  end.

Definition lt (a b : option Q) : bool := gt b a.

(** The latest values extracted in lines 141-150. *)
Record Indicators := {
  latest_close : option Q;
  latest_sma_20 : option Q;
  latest_sma_50 : option Q;
  latest_ema_12 : option Q;
  latest_ema_26 : option Q;
  latest_rsi : option Q;
  latest_macd_line : option Q;
  latest_signal_line : option Q;
  latest_upper_band : option Q;
  latest_lower_band : option Q
}.

(** The dict [signals] of lines 153-178, in insertion order. *)
Definition indicator_signals (ind : Indicators) : list (string * string) :=
  [("sma_crossover", if gt (latest_sma_20 ind) (latest_sma_50 ind) then "BUY" else "SELL");
   ("ema_crossover", if gt (latest_ema_12 ind) (latest_ema_26 ind) then "BUY" else "SELL");
   ("rsi",
    if lt (latest_rsi ind) (Some 30%Q) then "BUY"
    else if gt (latest_rsi ind) (Some 70%Q) then "SELL"
    else "NEUTRAL");
   ("macd", if gt (latest_macd_line ind) (latest_signal_line ind) then "BUY" else "SELL");
   ("bollinger",
    if gt (latest_close ind) (latest_upper_band ind) then "SELL"
    else if lt (latest_close ind) (latest_lower_band ind) then "BUY"
    else "NEUTRAL")].

(** [sum(1 for signal in signals.values() if signal == v)]. *)
Definition count_votes (v : string) (signals : list (string * string)) : Z :=
  Z.of_nat (length (List.filter (fun kv => String.eqb (snd kv) v) signals)).

(** Lines 181-192: the overall signal and its strength. *)
Definition overall (signals : list (string * string)) : string * Q :=
  let buy_signals := count_votes "BUY" signals in
  let sell_signals := count_votes "SELL" signals in
  let n := inject_Z (Z.of_nat (length signals)) in
  if buy_signals >? sell_signals then ("BUY", (inject_Z buy_signals / n)%Q)
  else if sell_signals >? buy_signals then ("SELL", (inject_Z sell_signals / n)%Q)
  else ("NEUTRAL", 0.5%Q).

(** The part of the dictionary returned by [analyze_symbol] that is
    written to the columns the fusion engine reads. *)
Record Analysis := {
  symbol : string;
  close : option Q;
  signals : list (string * string);
  overall_signal : string;
  signal_strength : Q;
  timestamp : string
}.

(** [analyze_symbol].  [market] stands for [_get_market_data] followed by
    the indicator arithmetic: the number of bars of the symbol and the
    latest indicator values, or [None] when there is no data or the
    computation raises. *)
Definition analyze_symbol (market : string -> option (nat * Indicators))
    (now : string) (sym : string) : option Analysis :=
  match market sym with
  | None => None
  | Some (bars, ind) =>
      if (bars <? 30)%nat then None
      else
        let signals := indicator_signals ind in
        let '(overall_signal, signal_strength) := overall signals in
        Some {| symbol := sym;
                close := latest_close ind;
                signals := signals;
                overall_signal := overall_signal;
                signal_strength := signal_strength;
                timestamp := now |}
  end.

(** [save_analysis_results]: one [INSERT INTO technical_analysis]; nothing
    for [None], nothing when the store fails. *)
Definition save_analysis_results (db : Database) (results : option Analysis) : Database :=
  match results with
  | None => db
  | Some r =>
      if db_up db then
        set_technical_analysis
          (technical_analysis db ++
           [{| ta_symbol := symbol r;
               ta_timestamp := timestamp r;
               ta_close_price := close r;
               ta_overall_signal := overall_signal r;
               ta_signal_strength := signal_strength r |}])
          db
      else db
  end.

(** The job [run_analysis] of [run_technical_analysis.py]; [clock] gives
    the time at which each symbol is analysed. *)
Fixpoint run_analysis (market : string -> option (nat * Indicators))
    (clock : string -> string) (symbols : list string) (db : Database) : Database :=
  match symbols with
  | [] => db
  | sym :: rest =>
      run_analysis market clock rest
        (save_analysis_results db (analyze_symbol market (clock sym) sym))
  end.

End Technical.

(** *** News collector ([data_collector.py], [run_collector.py]) *)

Module Collector.

(** An element of [stock.news]; a key the provider left out is [None]. *)
Record Item := {
  providerPublishTime : option Z;
  title : option string;
  summary : option string;
  link : option string
}.

(** The row bound to the [INSERT] of lines 94-105.  [local_time] renders
    [datetime.fromtimestamp(t).strftime('%Y-%m-%d %H:%M:%S')]; it is
    [None] when [fromtimestamp] raises, as it does for a time beyond the
    year 9999. *)
Definition row_of (local_time : Z -> option string) (sym : string) (item : Item) :
    option NewsRow :=
  timestamp ← local_time (default 0 (providerPublishTime item));
  Some {| nd_timestamp := timestamp;
          nd_symbol := sym;
          nd_title := default "" (title item);
          nd_summary := default "" (summary item);
          nd_url := default "" (link item) |}.

(** The primary key [(timestamp, symbol, url)] of [news_data]. *)
Definition key (r : NewsRow) : string * string * string :=
  (nd_timestamp r, nd_symbol r, nd_url r).

Definition same_key (a b : NewsRow) : bool :=
  String.eqb (nd_timestamp a) (nd_timestamp b) &&
  String.eqb (nd_symbol a) (nd_symbol b) &&
  String.eqb (nd_url a) (nd_url b).

(** The [rowid] the store gives to a new row: one more than the largest
    in use, 1 for an empty table. *)
Definition next_rowid (m : gmap Z NewsRow) : Z :=
  match map fst (map_to_list m) with
  | [] => 1
  | k :: ks => foldr Z.max k ks + 1
  end.

(** [INSERT OR IGNORE INTO news_data]: a row whose primary key is already
    in the table is dropped. *)
Definition insert_or_ignore (m : gmap Z NewsRow) (r : NewsRow) : gmap Z NewsRow :=
  if existsb (fun kr => same_key (snd kr) r) (map_to_list m) then m
  else <[next_rowid m := r]> m.

(** The connection the collector opens once (line 18) and keeps: [store]
    is the database as every connection sees it, [view] the table
    [news_data] as this connection sees it, that is together with the
    rows it has inserted and not yet committed. *)
Record Conn := {
  store : Database;
  view : gmap Z NewsRow
}.

(** [sqlite3.connect]: nothing is pending. *)
Definition connect (db : Database) : Conn :=
  {| store := db; view := news_data db |}.

(** [self.conn.commit()]: the rows inserted on the connection become
    visible to everyone. *)
Definition commit (c : Conn) : Conn :=
  {| store := set_news_data (view c) (store c); view := view c |}.

(** The loop of lines 92-105 on the table the connection sees: the table
    when the loop is left and whether it was left at its end.  The loop
    is left early when [fromtimestamp] raises; the rows inserted before
    stay inserted. *)
Fixpoint insert_items (local_time : Z -> option string) (sym : string)
    (items : list Item) (m : gmap Z NewsRow) : gmap Z NewsRow * bool :=
  match items with
  | [] => (m, true)
  | item :: rest =>
      match row_of local_time sym item with
      | Some r => insert_items local_time sym rest (insert_or_ignore m r)
      | None => (m, false)
      end
  end.

(** [fetch_news]: [news] is what [stock.news] returns, [None] when the
    provider call raises.  The connection afterwards and the returned
    boolean.  The [commit] of line 106 is reached only when the loop came
    to its end; the handler of lines 111-113 returns [False] without a
    rollback, so what the loop inserted stays pending on the
    connection. *)
Definition fetch_news (local_time : Z -> option string) (news : option (list Item))
    (sym : string) (c : Conn) : Conn * bool :=
  match news with
  | None => (c, false)
  | Some [] => (c, false)
  | Some items =>
      if db_up (store c) then
        match insert_items local_time sym items (view c) with
        | (m, true) => (commit {| store := store c; view := m |}, true)
        | (m, false) => ({| store := store c; view := m |}, false)
        end
      else (c, false)
  end.

(** The job [collect_news_data] of [run_collector.py]; [provider] gives
    the answer of the provider for each symbol. *)
Fixpoint collect_news_data (local_time : Z -> option string)
    (provider : string -> option (list Item)) (symbols : list string)
    (c : Conn) : Conn :=
  match symbols with
  | [] => c
  | sym :: rest =>
      collect_news_data local_time provider rest
        (fst (fetch_news local_time (provider sym) sym c))
  end.

(** No two rows of [news_data] share their primary key. *)
Definition unique_keys (m : gmap Z NewsRow) : Prop :=
  ∀ i j a b, m !! i = Some a → m !! j = Some b → key a = key b → i = j.

(** What holds of a connection from [connect] on: the table it sees is
    the committed table with the rows it has inserted since, each by
    [INSERT OR IGNORE]. *)
Definition sound (c : Conn) : Prop :=
  ∃ rows, view c = fold_left insert_or_ignore rows (news_data (store c)).

End Collector.

(** *** Backup job ([backup_system.py]) *)

Module Backup.

(** [s.endswith(suffix)]. *)
Fixpoint endswith (s suffix : string) : bool :=
  String.eqb s suffix ||
  match s with
  | EmptyString => false
  | String _ s' => endswith s' suffix
  end.

(** A file of the backup directory: its name, its modification time as
    the local [datetime] that [fromtimestamp(getmtime(path))] gives, in
    microseconds, and whether the archive holds a copy of the
    database. *)
Record File := {
  name : string;
  mtime : Z;
  complete : bool
}.

(** [timedelta(days=1)] in microseconds. *)
Definition day : Z := 86400000000.

(** The test of line 130. *)
Definition is_backup (filename : string) : bool :=
  String.prefix "market_data_backup_" filename && endswith filename ".zip".

Definition remove (filename : string) (dir : list File) : list File :=
  List.filter (fun f => negb (String.eqb (name f) filename)) dir.

(** The loop of [cleanup_old_backups] over the listing taken at its
    start; [removable] tells whether [os.remove] succeeds on a file, and a
    failing removal ends the loop. *)
Fixpoint cleanup_loop (cutoff : Z) (removable : string -> bool)
    (listing : list File) (dir : list File) : list File :=
  match listing with
  | [] => dir
  | f :: rest =>
      if is_backup (name f) && (mtime f <? cutoff) then
        if removable (name f) then cleanup_loop cutoff removable rest (remove (name f) dir)
        else dir
      else cleanup_loop cutoff removable rest dir
  end.

Definition cleanup_old_backups (now : Z) (keep_days : Z) (removable : string -> bool)
    (dir : list File) : list File :=
  cleanup_loop (now - keep_days * day) removable dir dir.

(** How writing the archive can end: the archive is written; the archive
    file cannot be created; the archive file is created but the database
    cannot be read into it, which leaves an archive without the copy. *)
Inductive Zip := Written | NotCreated | NotFilled.

(** [create_local_backup]: the new directory and the path returned;
    [stamp] is [now.strftime('%Y%m%d_%H%M%S')]. *)
Definition create_local_backup (now : Z) (stamp : string) (zip : Zip)
    (dir : list File) : list File * option string :=
  let backup_filename :=
    String.append "market_data_backup_" (String.append stamp ".zip") in
  match zip with
  | Written =>
      (List.app (remove backup_filename dir)
         [{| name := backup_filename; mtime := now; complete := true |}],
       Some backup_filename)
  | NotFilled =>
      (List.app (remove backup_filename dir)
         [{| name := backup_filename; mtime := now; complete := false |}],
       None)
  | NotCreated => (dir, None)
  end.

(** An entry of the listing of the remote root folder. *)
Record Entry := {
  e_name : string;
  isfolder : bool;
  folderid : Z
}.

(** What the remote storage answers: the root listing, the folder id in
    the answer to [createfolder], whether the answer to [uploadfile] has a
    file id; [None] when the call raises. *)
Record Remote := {
  listfolder : option (list Entry);
  createfolder : option (option Z);
  uploadfile : Z -> string -> option bool
}.

(** The search of lines 84-87: the id of the first folder of that name,
    [0] when there is none. *)
Fixpoint find_folder (folder_name : string) (contents : list Entry) : Z :=
  match contents with
  | [] => 0
  | item :: rest =>
      if String.eqb (e_name item) folder_name && isfolder item then folderid item
      else find_folder folder_name rest
  end.

(** [upload_to_pcloud]: the uploads made, as pairs of folder id and file
    name, and the returned boolean. *)
Definition upload_to_pcloud (remote : Remote) (dir : list File) (file_path : string)
    (uploads : list (Z * string)) : list (Z * string) * bool :=
  match listfolder remote with
  | None => (uploads, false)
  | Some contents =>
      let found := find_folder "TradingSignalSystem_Backups" contents in
      let target :=
        if found =? 0 then
          match createfolder remote with
          | None => None
          | Some None => None
          | Some (Some new_id) => Some new_id
          end
        else Some found in
      match target with
      | None => (uploads, false)
      | Some folder_id =>
          if existsb (fun f => String.eqb (name f) file_path) dir then
            match uploadfile remote folder_id file_path with
            | Some true => (List.app uploads [(folder_id, file_path)], true)
            | Some false => (uploads, false)
            | None => (uploads, false)
            end
          else (uploads, false)
      end
  end.

(** [perform_backup] with the default [keep_days] of 30; [now] is the
    time at which the archive is written, [later] the time at which the
    clean-up starts. *)
Definition perform_backup (now : Z) (stamp : string) (zip : Zip) (remote : Remote)
    (later : Z) (removable : string -> bool) (dir : list File)
    (uploads : list (Z * string)) : list File * list (Z * string) * bool :=
  match create_local_backup now stamp zip dir with
  | (dir1, None) => (dir1, uploads, false)
  | (dir1, Some backup_path) =>
      match upload_to_pcloud remote dir1 backup_path uploads with
      | (uploads1, false) => (dir1, uploads1, false)
      | (uploads1, true) => (cleanup_old_backups later 30 removable dir1, uploads1, true)
      end
  end.

End Backup.

(** What a stretch of [process_news_batch] over [items] adds, in addition
    to [scoring_phase]: the ids scored go up strictly, each lies above the
    cursor the stretch started from and not above the one it ends on, and
    every new result carries the id and the symbol of one of the items
    together with an answer of the classifier [analyze_text] on the title
    and the summary of that item. *)
Definition ascending_phase (analyze_text : nat -> string -> option Processor.Analysis)
    (st st' : Processor.State)
    (results results' : list Processor.Result) (items : list Processor.NewsItem) : Prop :=
  Processor.last_processed_id st <= Processor.last_processed_id st' ∧
  ∃ evs new,
    Processor.log st' = (Processor.log st ++ evs)%list ∧
    results' = (results ++ new)%list ∧
    map Processor.r_id new = Processor.scored_ids evs ∧
    StronglySorted Z.lt (Processor.scored_ids evs) ∧
    (∀ i, i ∈ Processor.scored_ids evs →
          Processor.last_processed_id st < i <= Processor.last_processed_id st') ∧
    (∀ r, r ∈ new →
          ∃ item call,
            item ∈ items ∧ Processor.r_id r = Processor.ni_id item ∧
            Processor.r_symbol r = Processor.ni_symbol item ∧
            analyze_text call
              (String.append (Processor.ni_title item)
                 (String.append " " (Processor.ni_summary item))) =
            Some (Processor.r_sentiment r)).

(** ** Further sample data *)

Module Scenario.

(** Four of the five indicators vote BUY; the close lies inside the
    bands. *)
Definition rising : Technical.Indicators :=
  {| Technical.latest_close := Some 180%Q;
     Technical.latest_sma_20 := Some 178%Q;
     Technical.latest_sma_50 := Some 170%Q;
     Technical.latest_ema_12 := Some 179%Q;
     Technical.latest_ema_26 := Some 175%Q;
     Technical.latest_rsi := Some 25%Q;
     Technical.latest_macd_line := Some 1.5%Q;
     Technical.latest_signal_line := Some 1%Q;
     Technical.latest_upper_band := Some 190%Q;
     Technical.latest_lower_band := Some 165%Q |}.

(** Sixty bars for AAPL, nothing for any other symbol. *)
Definition market (sym : string) : option (nat * Technical.Indicators) :=
  if String.eqb sym "AAPL" then Some (60%nat, rising) else None.

(** Quiet hours enabled with a start time that lacks its colon. *)
Definition broken_window : Notify.Config :=
  {| Notify.quiet_hours_enabled := true;
     Notify.quiet_hours_start := "2200";
     Notify.quiet_hours_end := "07:30";
     Notify.weekends_enabled := true;
     Notify.collect_for_monday := true;
     Notify.minimum_confidence := 0.7%Q;
     Notify.last_notification := None |}.

(** A Tuesday morning on which the transport works and the store
    refuses every update. *)
Definition store_refuses : Z -> Notify.Outside :=
  fun _ => {| Notify.now := Sample.tuesday; Notify.transport_ok := true;
              Notify.config_write_ok := true; Notify.store_ok := false |}.

(** A process whose name the operating system withholds. *)
Definition nameless : Monitor.Proc :=
  {| Monitor.pid := 1; Monitor.name := None; Monitor.cmdline := [] |}.

(** Only the notifier is running, behind a nameless process. *)
Definition blind_poll : Monitor.Outside :=
  {| Monitor.now := "2024-03-01 09:00:00";
     Monitor.resources :=
       Some {| Monitor.cpu_usage := 12%Q; Monitor.memory_usage := 40%Q;
               Monitor.disk_usage := 55%Q; Monitor.db_size := 4096 |};
     Monitor.procs_at_snapshot := [nameless; Sample.python "run_notifier.py"];
     Monitor.procs_at_restart := [nameless; Sample.python "run_notifier.py"];
     Monitor.script_exists := fun _ => true;
     Monitor.spawn_ok := fun _ => true |}.

(** A backup directory on day 100: an archive of day 10, one of day 90
    and a file that is no archive. *)
Definition backups : list Backup.File :=
  [{| Backup.name := "market_data_backup_20240101_030000.zip";
      Backup.mtime := 10 * Backup.day; Backup.complete := true |};
   {| Backup.name := "market_data_backup_20240321_030000.zip";
      Backup.mtime := 90 * Backup.day; Backup.complete := true |};
   {| Backup.name := "notes.txt"; Backup.mtime := 0; Backup.complete := false |}].

(** A remote storage that has the backup folder and accepts uploads. *)
Definition remote : Backup.Remote :=
  {| Backup.listfolder :=
       Some [{| Backup.e_name := "TradingSignalSystem_Backups"; Backup.isfolder := true;
                Backup.folderid := 7 |}];
     Backup.createfolder := Some None;
     Backup.uploadfile := fun _ _ => Some true |}.

(** A second signal, newer than [Sample.pending_row], whose close price
    is [NULL]. *)
Definition unpriced_row : SignalRow :=
  {| ts_symbol := "MSFT"; ts_timestamp := "2024-03-02 11:00:00"; ts_signal_type := "BUY";
     ts_confidence := 0.7%Q; ts_close_price := None; ts_technical_signal := "BUY";
     ts_sentiment_signal := "BUY"; ts_reason := "Technische Indikatoren"; ts_notified := false;
     ts_verified := false; ts_outcome := None |}.

(** Two signals waiting to be notified, the newer one without a close
    price. *)
Definition unpriced_db : Database :=
  {| db_up := true; news_data := ∅; sentiment_results := ∅; technical_analysis := [];
     trading_signals := <[2 := unpriced_row]> (<[1 := Sample.pending_row]> ∅);
     trading_signals_seq := 2;
     system_status := [] |}.

Definition unpriced_gate : Notify.State :=
  {| Notify.db := unpriced_db; Notify.config := Sample.weekend_policy;
     Notify.config_file := None; Notify.outbox := []; Notify.log := [] |}.

Definition headline : Collector.Item :=
  {| Collector.providerPublishTime := Some 1709280000;
     Collector.title := Some "Apple unveils new chip";
     Collector.summary := None;
     Collector.link := Some "https://example.org/chip" |}.

(** A publication time beyond the year 9999. *)
Definition garbled : Collector.Item :=
  {| Collector.providerPublishTime := Some 253402300800;
     Collector.title := Some "Apple supplier update";
     Collector.summary := None;
     Collector.link := Some "https://example.org/supplier" |}.

Definition msft_headline : Collector.Item :=
  {| Collector.providerPublishTime := Some 1709283600;
     Collector.title := Some "Microsoft ships update";
     Collector.summary := None;
     Collector.link := Some "https://example.org/update" |}.

(** The local clock on the two publication times of the sample; no
    rendering for a time outside the years 1 to 9999. *)
Definition local_time (t : Z) : option string :=
  if (t <? -62135596800) || (253402300800 <=? t) then None
  else if t =? 1709283600 then Some "2024-03-01 10:00:00"
  else Some "2024-03-01 09:00:00".

End Scenario.

(** * Properties *)

(** ** Python built-ins *)

Lemma gtb_lt (a b : Q) : Py.gtb a b = true <-> (b < a)%Q.
Proof.
  unfold Py.gtb. rewrite Qgt_alt.
  destruct (a ?= b)%Q; split; intros; congruence.
Qed.

Lemma gtb_le (a b : Q) : Py.gtb a b = false <-> (a <= b)%Q.
Proof.
  unfold Py.gtb. rewrite Qle_alt.
  destruct (a ?= b)%Q; split; intros; congruence.
Qed.

Lemma geb_le (a b : Q) : Py.geb a b = true <-> (b <= a)%Q.
Proof.
  unfold Py.geb. rewrite Qge_alt.
  destruct (a ?= b)%Q; split; intros; congruence.
Qed.

Lemma geb_lt (a b : Q) : Py.geb a b = false <-> (a < b)%Q.
Proof.
  unfold Py.geb. rewrite Qlt_alt.
  destruct (a ?= b)%Q; split; intros; congruence.
Qed.

Lemma eqb_decide (a b : string) : String.eqb a b = bool_decide (a = b).
Proof.
  destruct (String.eqb_spec a b) as [->|Hne].
  - by rewrite bool_decide_eq_true_2.
  - by rewrite bool_decide_eq_false_2.
Qed.

(** ** Signal fusion *)

Lemma SFmul_comm (prec emax : Z) (x y : spec_float) :
  SFmul prec emax x y = SFmul prec emax y x.
Proof.
  destruct x as [sx|sx| |sx mx ex], y as [sy|sy| |sy my ey]; simpl;
    rewrite ?(xorb_comm sy sx), ?(Pos.mul_comm my mx), ?(Z.add_comm ey ex); reflexivity.
Qed.

Lemma float_mul_comm (x y : float) : (x * y)%float = (y * x)%float.
Proof.
  rewrite <- (SF2Prim_Prim2SF (x * y)), <- (SF2Prim_Prim2SF (y * x)), !mul_spec.
  unfold SF64mul. by rewrite SFmul_comm.
Qed.

Lemma combine_refines_binary64 (ts : string) (t : float) (ss : string) (s : float) :
  Float64.combine ts t ss s = fusion_rule_binary64 ts t ss s.
Proof.
  unfold Float64.combine, fusion_rule_binary64, Float64.max2.
  rewrite !eqb_decide.
  rewrite (float_mul_comm t 0.7), (float_mul_comm s 0.3),
          (float_mul_comm s 0.6), (float_mul_comm t 0.4).
  destruct (decide (ts = ss)) as [E1|E1];
    destruct (decide (ts = "NEUTRAL")) as [E2|E2];
    destruct (decide (ss = "NEUTRAL")) as [E3|E3];
    try (exfalso; congruence);
    repeat first
      [ rewrite bool_decide_eq_true_2 by assumption
      | rewrite bool_decide_eq_false_2 by assumption
      | rewrite decide_True by tauto
      | rewrite decide_False by tauto ];
    simpl; reflexivity.
Qed.

Lemma combine_signal_exact (ts : string) (t : float) (ss : string) (s : float) (tq sq : Q) :
  fst (Float64.combine ts t ss s) = fst (Fusion.combine ts tq ss sq).
Proof.
  unfold Float64.combine, Fusion.combine.
  repeat match goal with
         | |- context [if ?b then _ else _] => destruct b
         end; reflexivity.
Qed.

(** C1, as the code has it.  In binary64 the fusion function computes
    the five-case rule of the specification: agreement on a directional
    signal gives that signal with the mean strength; two different
    directional signals give NEUTRAL with the larger strength; a
    directional technical signal alone gives it with 0.7 tech + 0.3
    sentiment; a directional sentiment signal alone gives it with 0.6
    sentiment + 0.4 tech; otherwise NEUTRAL with the mean.  The signal it
    selects does not depend on the strengths: it is the signal of the
    exact-arithmetic model and the signal type of every signal an
    invocation emits.  The rows of the determinism table evaluate to BUY
    0.8500000000000001, NEUTRAL 0.8, BUY 0.78 and SELL
    0.6499999999999999. *)
Theorem C1_fusion_rule :
  (∀ ts t ss s, Float64.combine ts t ss s = fusion_rule_binary64 ts t ss s) ∧
  (∀ ts t ss s tq sq,
      fst (Float64.combine ts t ss s) = fst (Fusion.combine ts tq ss sq)) ∧
  (∀ d thr now sym sg t s,
      Fusion.generate_signals_body d thr now sym = Some sg →
      Fusion.signal_type sg =
      fst (fusion_rule_binary64 (Fusion.technical_signal sg) t (Fusion.sentiment_signal sg) s)) ∧
  Float64.combine "BUY" 0.8 "BUY" 0.9 = ("BUY", 0.8500000000000001%float) ∧
  Float64.combine "BUY" 0.8 "SELL" 0.6 = ("NEUTRAL", 0.8%float) ∧
  Float64.combine "BUY" 0.9 "NEUTRAL" 0.5 = ("BUY", 0.78%float) ∧
  Float64.combine "NEUTRAL" 0.5 "SELL" 0.75 = ("SELL", 0.6499999999999999%float).
Proof.
  split; [exact combine_refines_binary64|].
  split; [exact combine_signal_exact|].
  split.
  - intros d thr now sym sg t s Hbody.
    rewrite <- combine_refines_binary64.
    unfold Fusion.generate_signals_body in Hbody.
    destruct (Fusion._get_latest_technical_analysis d sym) as [tech|]; [|done].
    destruct (Fusion.sentiment_input _) as [ssig sstr].
    destruct (Fusion.combine _ _ _ _) as [csig cstr] eqn:Hc.
    destruct (Py.geb cstr thr); [|done].
    injection Hbody as <-. simpl.
    rewrite (combine_signal_exact _ t _ s (Fusion.signal_strength tech) sstr).
    by rewrite Hc.
  - repeat split; vm_compute; reflexivity.
Qed.

(** C1, as stated, fails: the code gives the first row of the table a
    strength above 0.85 and the last row a strength below 0.65. *)
Lemma C1_counterexample :
  PrimFloat.eqb (snd (Float64.combine "BUY" 0.8 "BUY" 0.9)) 0.85 = false ∧
  PrimFloat.ltb 0.85 (snd (Float64.combine "BUY" 0.8 "BUY" 0.9)) = true ∧
  PrimFloat.eqb (snd (Float64.combine "NEUTRAL" 0.5 "SELL" 0.75)) 0.65 = false ∧
  PrimFloat.ltb (snd (Float64.combine "NEUTRAL" 0.5 "SELL" 0.75)) 0.65 = true.
Proof. repeat split; vm_compute; reflexivity. Qed.

Lemma merge_sort_nil_inv {A : Type} (R : relation A) `{∀ x y, Decision (R x y)} (l : list A) :
  merge_sort R l = [] ↔ l = [].
Proof.
  split; intros E.
  - apply Permutation_nil_r. rewrite <- E. symmetry. apply merge_sort_Permutation.
  - subst l. apply Permutation_nil_r, merge_sort_Permutation.
Qed.

Lemma generate_signals_elem (d : Database) (thr : Q) (now : string)
    (symbols : list string) (sg : Fusion.Signal) :
  sg ∈ Fusion.generate_signals d thr now symbols ↔
  ∃ sym, sym ∈ symbols ∧ Fusion.generate_signals_body d thr now sym = Some sg.
Proof.
  induction symbols as [|s rest IH]; simpl.
  - split; [intros H; inversion H | intros (sym & H & _); inversion H].
  - destruct (Fusion.generate_signals_body d thr now s) as [sg'|] eqn:Hb.
    + rewrite elem_of_cons, IH. split.
      * intros [->|(sym & Hin & Hsym)].
        -- exists s. split; [by left | assumption].
        -- exists sym. split; [by right | assumption].
      * intros (sym & Hin & Hsym). apply elem_of_cons in Hin as [->|Hin].
        -- left. congruence.
        -- right. eauto.
    + rewrite IH. split.
      * intros (sym & Hin & Hsym). exists sym. split; [by right | assumption].
      * intros (sym & Hin & Hsym). apply elem_of_cons in Hin as [->|Hin]; [congruence|eauto].
Qed.

Lemma body_symbol (d : Database) (thr : Q) (now sym : string) (sg : Fusion.Signal) :
  Fusion.generate_signals_body d thr now sym = Some sg → Fusion.symbol sg = sym.
Proof.
  unfold Fusion.generate_signals_body.
  destruct (Fusion._get_latest_technical_analysis d sym); [|done].
  destruct (Fusion.sentiment_input _), (Fusion.combine _ _ _ _), (Py.geb _ _); [|done].
  by intros [= <-].
Qed.

Lemma body_gate (d : Database) (thr : Q) (now sym : string) (t : Fusion.Technical) :
  Fusion._get_latest_technical_analysis d sym = Some t →
  let sent := Fusion.sentiment_input (Fusion._get_latest_sentiment d sym) in
  let combined :=
    Fusion.combine (Fusion.overall_signal t) (Fusion.signal_strength t) (fst sent) (snd sent) in
  is_Some (Fusion.generate_signals_body d thr now sym) ↔ (thr <= snd combined)%Q.
Proof.
  intros Ht sent combined. subst sent combined.
  unfold Fusion.generate_signals_body. rewrite Ht.
  destruct (Fusion.sentiment_input _) as [ssig sstr]. simpl.
  destruct (Fusion.combine _ _ _ _) as [csig cstr]. simpl.
  destruct (Py.geb cstr thr) eqn:Hg.
  - apply geb_le in Hg. split; [done | eauto].
  - apply geb_lt in Hg. split; [intros [? [=]] | intros Hle].
    exfalso. eapply Qlt_not_le; eassumption.
Qed.

Lemma insert_all_seq (sgs : list Fusion.Signal) (d : Database) :
  trading_signals_seq (fold_left Fusion.insert_signal sgs d) =
  trading_signals_seq d + Z.of_nat (length sgs).
Proof.
  revert d. induction sgs as [|sg rest IH]; intros d; simpl; [lia|].
  rewrite IH. simpl. lia.
Qed.

Lemma insert_all_lookup (sgs : list Fusion.Signal) (d : Database) (i : Z) :
  trading_signals (fold_left Fusion.insert_signal sgs d) !! i =
  if decide (trading_signals_seq d < i <= trading_signals_seq d + Z.of_nat (length sgs))
  then Fusion.signal_row <$> sgs !! Z.to_nat (i - trading_signals_seq d - 1)
  else trading_signals d !! i.
Proof.
  revert d. induction sgs as [|sg rest IH]; intros d; simpl.
  - rewrite decide_False by lia. done.
  - rewrite IH. simpl.
    destruct (decide (i = trading_signals_seq d + 1)) as [->|Hne].
    + rewrite decide_False by lia. rewrite decide_True by lia.
      rewrite lookup_insert_eq.
      replace (Z.to_nat (trading_signals_seq d + 1 - trading_signals_seq d - 1)) with O by lia.
      done.
    + rewrite lookup_insert_ne by done.
      case_decide as H1; case_decide as H2; try lia; [|done].
      replace (Z.to_nat (i - trading_signals_seq d - 1))
        with (S (Z.to_nat (i - (trading_signals_seq d + 1) - 1))) by lia.
      done.
Qed.

Lemma save_signals_new_row (d : Database) (sgs : list Fusion.Signal) (P : SignalRow → Prop) :
  db_up d = true →
  signals_seq_ok d →
  (∃ i row, trading_signals (Fusion.save_signals d sgs) !! i = Some row ∧
            trading_signals d !! i = None ∧ P row) ↔
  (∃ sg, sg ∈ sgs ∧ P (Fusion.signal_row sg)).
Proof.
  intros Hup Hok. unfold Fusion.save_signals.
  destruct sgs as [|sg0 rest] eqn:Hsgs.
  { split; [intros (i & row & H1 & H2 & _); congruence | intros (sg & H & _); inversion H]. }
  rewrite Hup, <- Hsgs. clear Hsgs sg0 rest.
  split.
  - intros (i & row & Hnew & Hold & HP).
    rewrite insert_all_lookup in Hnew. case_decide as Hr; [|congruence].
    apply fmap_Some in Hnew as (sg & Hsg & ->).
    exists sg. split; [|done]. eapply list_elem_of_lookup_2, Hsg.
  - intros (sg & Hin & HP).
    apply list_elem_of_lookup_1 in Hin as (k & Hk).
    pose proof (lookup_lt_Some _ _ _ Hk) as Hlt.
    exists (trading_signals_seq d + 1 + Z.of_nat k), (Fusion.signal_row sg).
    split; [|split; [|done]].
    + rewrite insert_all_lookup, decide_True by lia.
      replace (Z.to_nat _) with k by lia. by rewrite Hk.
    + destruct (trading_signals d !! _) eqn:E; [|done].
      assert (is_Some (trading_signals d !! (trading_signals_seq d + 1 + Z.of_nat k))) as Hs by eauto.
      apply Hok in Hs. lia.
Qed.

Lemma technical_up (d : Database) (sym : string) (t : Fusion.Technical) :
  Fusion._get_latest_technical_analysis d sym = Some t → db_up d = true.
Proof. unfold Fusion._get_latest_technical_analysis. by destruct (db_up d). Qed.

(** C3. For a symbol of the invocation that has a technical analysis, a
    signal is generated exactly when the combined strength reaches the
    configured threshold, and the job writes a new [trading_signals] row
    for the symbol exactly in that case; below the threshold the symbol
    just yields nothing. *)
Theorem C3_threshold_gate (d : Database) (thr : Q) (now : string)
    (symbols : list string) (sym : string) (t : Fusion.Technical) :
  signals_seq_ok d →
  sym ∈ symbols →
  Fusion._get_latest_technical_analysis d sym = Some t →
  let sent := Fusion.sentiment_input (Fusion._get_latest_sentiment d sym) in
  let combined_strength :=
    snd (Fusion.combine (Fusion.overall_signal t) (Fusion.signal_strength t)
           (fst sent) (snd sent)) in
  let d' := Fusion.generate_signals_job d thr now symbols in
  ((∃ sg, sg ∈ Fusion.generate_signals d thr now symbols ∧ Fusion.symbol sg = sym) ↔
   (thr <= combined_strength)%Q) ∧
  ((∃ i row, trading_signals d' !! i = Some row ∧ trading_signals d !! i = None ∧
             ts_symbol row = sym) ↔
   (thr <= combined_strength)%Q).
Proof.
  intros Hok Hin Ht sent combined_strength d'.
  pose proof (body_gate d thr now sym t Ht) as Hgate. simpl in Hgate.
  fold sent in Hgate. fold combined_strength in Hgate.
  assert ((∃ sg, sg ∈ Fusion.generate_signals d thr now symbols ∧ Fusion.symbol sg = sym) ↔
          (thr <= combined_strength)%Q) as Hgen.
  { rewrite <- Hgate. split.
    - intros (sg & Hsg & Hsym). apply generate_signals_elem in Hsg as (sym' & _ & Hb).
      assert (sym' = sym) as -> by (rewrite <- Hsym; symmetry; eapply body_symbol, Hb).
      eauto.
    - intros [sg Hb]. exists sg. split; [|by eapply body_symbol].
      apply generate_signals_elem. eauto. }
  split; [exact Hgen|].
  rewrite <- Hgen. subst d'. unfold Fusion.generate_signals_job.
  rewrite (save_signals_new_row d _ (λ row, ts_symbol row = sym)
             (technical_up _ _ _ Ht) Hok).
  done.
Qed.

Lemma C3_threshold_gate_witness :
  let t := {| Fusion.t_symbol := "AAPL"; Fusion.t_timestamp := "2024-03-01 09:10:00";
              Fusion.t_close_price := Some 180%Q; Fusion.overall_signal := "BUY";
              Fusion.signal_strength := 0.8%Q |} in
  let symbols := ["AAPL"; "MSFT"; "TSLA"] in
  let now := "2024-03-01 09:30:00" in
  signals_seq_ok Sample.market_db ∧
  "AAPL" ∈ symbols ∧
  Fusion._get_latest_technical_analysis Sample.market_db "AAPL" = Some t ∧
  (∃ sg, sg ∈ Fusion.generate_signals Sample.market_db Fusion.default_confidence_threshold
                now symbols ∧ Fusion.symbol sg = "AAPL") ∧
  (∃ i row,
      trading_signals
        (Fusion.generate_signals_job Sample.market_db Fusion.default_confidence_threshold
           now symbols) !! i = Some row ∧
      trading_signals Sample.market_db !! i = None ∧ ts_symbol row = "AAPL").
Proof.
  intros t symbols now.
  assert (signals_seq_ok Sample.market_db) as Hok.
  { intros i [row Hrow]. simpl in Hrow. rewrite lookup_empty in Hrow. discriminate. }
  assert ("AAPL" ∈ symbols) as Hin by (by left).
  assert (Fusion._get_latest_technical_analysis Sample.market_db "AAPL" = Some t) as Ht
    by reflexivity.
  split; [exact Hok|]. split; [exact Hin|]. split; [exact Ht|].
  destruct (C3_threshold_gate Sample.market_db Fusion.default_confidence_threshold now
              symbols "AAPL" t Hok Hin Ht) as [Hgen Hrow].
  split; [apply Hgen | apply Hrow]; vm_compute; discriminate.
Defined.

Lemma latest_technical_none (d : Database) (sym : string) :
  (∀ r, r ∈ technical_analysis d → ta_symbol r ≠ sym) →
  Fusion._get_latest_technical_analysis d sym = None.
Proof.
  intros Hno. unfold Fusion._get_latest_technical_analysis.
  destruct (db_up d); [|done].
  assert (List.filter (λ r, String.eqb (ta_symbol r) sym) (technical_analysis d) = []) as ->.
  { induction (technical_analysis d) as [|r l IH]; [done|]. simpl.
    destruct (String.eqb_spec (ta_symbol r) sym) as [E|_].
    - exfalso. apply (Hno r); [by left | exact E].
    - apply IH. intros r' Hr'. apply Hno. by right. }
  unfold order_by_timestamp_desc.
  by rewrite (proj2 (merge_sort_nil_inv _ [])).
Qed.

Lemma latest_technical_some (d : Database) (sym : string) :
  db_up d = true →
  (∃ r, r ∈ technical_analysis d ∧ ta_symbol r = sym) →
  is_Some (Fusion._get_latest_technical_analysis d sym).
Proof.
  intros Hup (r & Hr & Hsym). unfold Fusion._get_latest_technical_analysis.
  rewrite Hup.
  destruct (order_by_timestamp_desc _ _) as [|row rest] eqn:E; [|eauto].
  exfalso. apply merge_sort_nil_inv in E.
  assert (r ∈ List.filter (λ r, String.eqb (ta_symbol r) sym) (technical_analysis d)) as Hf.
  { apply list_elem_of_In, filter_In. split; [by apply list_elem_of_In|].
    by apply String.eqb_eq. }
  rewrite E in Hf. inversion Hf.
Qed.

Lemma latest_sentiment_none (d : Database) (sym : string) :
  (∀ i sr, sentiment_results d !! i = Some sr → sr_symbol sr ≠ sym) →
  Fusion._get_latest_sentiment d sym = None.
Proof.
  intros Hno. unfold Fusion._get_latest_sentiment.
  destruct (db_up d); [|done].
  assert (Fusion.sentiment_join d sym = []) as ->.
  { unfold Fusion.sentiment_join.
    assert (∀ x, x ∈ map_to_list (sentiment_results d) → sr_symbol (snd x) ≠ sym) as Hall.
    { intros [i sr] Hx. apply elem_of_map_to_list in Hx. by eapply Hno. }
    induction (map_to_list (sentiment_results d)) as [|[i sr] l IH]; [done|]. simpl.
    destruct (String.eqb_spec (sr_symbol sr) sym) as [E|_].
    - exfalso. apply (Hall (i, sr)); [by left | exact E].
    - apply IH. intros x Hx. apply Hall. by right. }
  unfold order_by_timestamp_desc.
  by rewrite (proj2 (merge_sort_nil_inv _ [])).
Qed.

(** C8. A symbol without any technical-analysis row yields no signal, in
    the loop body and in the whole invocation; a symbol with a technical
    row and no sentiment row is fused with the neutral default, signal
    NEUTRAL and strength 0.5: the loop body yields the fused signal when
    its strength passes the threshold and nothing otherwise, every signal
    of the invocation for that symbol is this fused signal, and the
    invocation contains it when the symbol is one of its symbols and the
    threshold is passed. *)
Theorem C8_missing_inputs (d : Database) (thr : Q) (now : string)
    (symbols : list string) (sym : string) :
  ((∀ r, r ∈ technical_analysis d → ta_symbol r ≠ sym) →
   Fusion.generate_signals_body d thr now sym = None ∧
   ∀ sg, sg ∈ Fusion.generate_signals d thr now symbols → Fusion.symbol sg ≠ sym) ∧
  (db_up d = true →
   (∃ r, r ∈ technical_analysis d ∧ ta_symbol r = sym) →
   (∀ i sr, sentiment_results d !! i = Some sr → sr_symbol sr ≠ sym) →
   ∃ t,
     Fusion._get_latest_technical_analysis d sym = Some t ∧
     Fusion._get_latest_sentiment d sym = None ∧
     let combined :=
       Fusion.combine (Fusion.overall_signal t) (Fusion.signal_strength t) "NEUTRAL" 0.5 in
     let signal :=
       {| Fusion.symbol := sym;
          Fusion.timestamp := now;
          Fusion.signal_type := fst combined;
          Fusion.sig_confidence := snd combined;
          Fusion.close_price := Fusion.t_close_price t;
          Fusion.technical_signal := Fusion.overall_signal t;
          Fusion.technical_strength := Fusion.signal_strength t;
          Fusion.sentiment_signal := "NEUTRAL";
          Fusion.sentiment_strength := 0.5;
          Fusion.reason :=
            Fusion._generate_reason (Fusion.overall_signal t) "NEUTRAL" None |} in
     Fusion.generate_signals_body d thr now sym =
       (if Py.geb (snd combined) thr then Some signal else None) ∧
     (∀ sg, sg ∈ Fusion.generate_signals d thr now symbols → Fusion.symbol sg = sym →
            sg = signal ∧ Py.geb (snd combined) thr = true) ∧
     (sym ∈ symbols → Py.geb (snd combined) thr = true →
      signal ∈ Fusion.generate_signals d thr now symbols)).
Proof.
  split.
  - intros Hno.
    assert (Fusion.generate_signals_body d thr now sym = None) as Hbody.
    { unfold Fusion.generate_signals_body. by rewrite latest_technical_none. }
    split; [exact Hbody|].
    intros sg Hsg Hsym. apply generate_signals_elem in Hsg as (sym' & _ & Hb).
    assert (sym' = sym) as -> by (rewrite <- Hsym; symmetry; eapply body_symbol, Hb).
    congruence.
  - intros Hup Hrow Hnosent.
    destruct (latest_technical_some d sym Hup Hrow) as [t Ht].
    exists t. split; [exact Ht|]. split; [by apply latest_sentiment_none|].
    cbv zeta.
    match goal with
    | |- ?b = _ ∧ _ => assert (b = if Py.geb (snd (Fusion.combine (Fusion.overall_signal t)
                 (Fusion.signal_strength t) "NEUTRAL" 0.5)) thr then
        Some {| Fusion.symbol := sym;
          Fusion.timestamp := now;
          Fusion.signal_type := fst (Fusion.combine (Fusion.overall_signal t)
                 (Fusion.signal_strength t) "NEUTRAL" 0.5);
          Fusion.sig_confidence := snd (Fusion.combine (Fusion.overall_signal t)
                 (Fusion.signal_strength t) "NEUTRAL" 0.5);
          Fusion.close_price := Fusion.t_close_price t;
          Fusion.technical_signal := Fusion.overall_signal t;
          Fusion.technical_strength := Fusion.signal_strength t;
          Fusion.sentiment_signal := "NEUTRAL";
          Fusion.sentiment_strength := 0.5;
          Fusion.reason :=
            Fusion._generate_reason (Fusion.overall_signal t) "NEUTRAL" None |} else None) as Hbody
    end.
    { unfold Fusion.generate_signals_body.
      rewrite Ht, latest_sentiment_none by assumption. simpl.
      destruct (Fusion.combine _ _ _ _) as [csig cstr]. simpl. reflexivity. }
    split; [exact Hbody|]. split.
    + intros sg Hsg Hsym. apply generate_signals_elem in Hsg as (sym' & _ & Hb).
      assert (sym' = sym) as -> by (rewrite <- Hsym; symmetry; eapply body_symbol, Hb).
      rewrite Hbody in Hb.
      destruct (Py.geb _ thr); [|discriminate]. injection Hb as <-. done.
    + intros Hin Hgate. apply generate_signals_elem. exists sym. split; [exact Hin|].
      rewrite Hbody, Hgate. reflexivity.
Qed.

Lemma C8_missing_inputs_witness :
  let now := "2024-03-01 09:30:00" in
  let symbols := ["AAPL"; "MSFT"; "TSLA"] in
  (∀ r, r ∈ technical_analysis Sample.market_db → ta_symbol r ≠ "TSLA") ∧
  Fusion.generate_signals_body Sample.market_db 0.7 now "TSLA" = None ∧
  db_up Sample.market_db = true ∧
  (∃ r, r ∈ technical_analysis Sample.market_db ∧ ta_symbol r = "MSFT") ∧
  (∀ i sr, sentiment_results Sample.market_db !! i = Some sr → sr_symbol sr ≠ "MSFT") ∧
  ∃ sg, sg ∈ Fusion.generate_signals Sample.market_db 0.7 now symbols ∧
        Fusion.symbol sg = "MSFT" ∧
        Fusion.sentiment_signal sg = "NEUTRAL" ∧
        Fusion.sentiment_strength sg = 0.5%Q.
Proof.
  intros now symbols.
  assert (∀ r, r ∈ technical_analysis Sample.market_db → ta_symbol r ≠ "TSLA") as H1.
  { intros r Hr. simpl in Hr. rewrite !elem_of_cons, elem_of_nil in Hr.
    destruct Hr as [->|[->|[]]]; discriminate. }
  assert (∃ r, r ∈ technical_analysis Sample.market_db ∧ ta_symbol r = "MSFT") as H2.
  { eexists. split; [right; left|]. reflexivity. }
  assert (∀ i sr, sentiment_results Sample.market_db !! i = Some sr → sr_symbol sr ≠ "MSFT")
    as H3.
  { intros i sr Hsr. simpl in Hsr. destruct (decide (i = 1)) as [->|Hne].
    - rewrite lookup_insert_eq in Hsr. injection Hsr as <-. discriminate.
    - rewrite lookup_insert_ne, lookup_empty in Hsr by done. discriminate. }
  destruct (C8_missing_inputs Sample.market_db 0.7 now symbols "TSLA") as [Hskip _].
  destruct (C8_missing_inputs Sample.market_db 0.7 now symbols "MSFT") as [_ Hdefault].
  destruct (Hskip H1) as [Hnone _].
  destruct (Hdefault eq_refl H2 H3) as (t & Ht & Hs & _ & _ & Hemit).
  split; [exact H1|]. split; [exact Hnone|]. split; [reflexivity|].
  split; [exact H2|]. split; [exact H3|].
  eexists. split; [apply Hemit|].
  - right. left.
  - vm_compute in Ht. injection Ht as <-. vm_compute. reflexivity.
  - simpl. done.
Defined.

Lemma max_key_from_first_max {K : Type} (rest : list (K * Q)) :
  ∀ (pre mid : list (K * Q)) (best : K) (bestv : Q),
    Forall (λ kv, (snd kv < bestv)%Q) pre →
    Forall (λ kv, (snd kv <= bestv)%Q) mid →
    first_max (pre ++ (best, bestv) :: mid ++ rest) (Py.max_key_from best bestv rest).
Proof.
  induction rest as [|[k v] rest IH]; intros pre mid best bestv Hpre Hmid; simpl.
  - rewrite app_nil_r. exists (length pre), bestv. split; [|split].
    + by rewrite list_lookup_middle.
    + intros j kj vj Hj.
      apply list_elem_of_lookup_2, elem_of_app in Hj as [Hj|Hj].
      * apply Qlt_le_weak. by apply (proj1 (Forall_forall _ _) Hpre (kj, vj)).
      * apply elem_of_cons in Hj as [[= -> ->]|Hj]; [apply Qle_refl|].
        by apply (proj1 (Forall_forall _ _) Hmid (kj, vj)).
    + intros j kj vj Hlt Hj. rewrite lookup_app_l in Hj by done.
      apply list_elem_of_lookup_2 in Hj.
      by apply (proj1 (Forall_forall _ _) Hpre (kj, vj)).
  - destruct (Py.gtb v bestv) eqn:Hg.
    + apply gtb_lt in Hg.
      specialize (IH (pre ++ (best, bestv) :: mid)%list [] k v).
      rewrite <- app_assoc in IH. simpl in IH. apply IH; [|constructor].
      apply Forall_app. split; [|constructor].
      * eapply Forall_impl; [exact Hpre|]. intros kv Hkv. simpl in *.
        eapply Qlt_trans; eassumption.
      * exact Hg.
      * eapply Forall_impl; [exact Hmid|]. intros kv Hkv. simpl in *.
        eapply Qle_lt_trans; eassumption.
    + apply gtb_le in Hg.
      specialize (IH pre (mid ++ [(k, v)])%list best bestv Hpre).
      rewrite <- app_assoc in IH. simpl in IH. apply IH.
      apply Forall_app. split; [exact Hmid|]. by constructor.
Qed.

Lemma max_key_first_max {K : Type} (items : list (K * Q)) (k : K) :
  Py.max_key items = Some k → first_max items k.
Proof.
  destruct items as [|[k0 v0] rest]; [done|]. simpl. intros [= <-].
  apply (max_key_from_first_max rest [] [] k0 v0); constructor.
Qed.

Lemma three_way_tie (neg neu pos : Q) :
  (neg == pos)%Q → (neu <= neg)%Q →
  Py.max_key [("negative", neg); ("neutral", neu); ("positive", pos)] = Some "negative".
Proof.
  intros Htie Hle. simpl.
  rewrite (proj2 (gtb_le neu neg) Hle).
  rewrite (proj2 (gtb_le pos neg)); [done|].
  rewrite Htie. apply Qle_refl.
Qed.

Lemma aggregate_dominant (sym : string) (rows : list (Z * SentimentRow * NewsRow))
    (s : Fusion.Sentiment) :
  Fusion.aggregate sym rows = Some s →
  Py.max_key (Fusion.scores_of (Fusion.avg_negative s) (Fusion.avg_neutral s)
                (Fusion.avg_positive s)) = Some (Fusion.dominant_sentiment s).
Proof.
  unfold Fusion.aggregate. destruct rows as [|latest rest]; [done|].
  cbv zeta. intros H.
  apply bind_Some in H as (dom & Hdom & H).
  apply bind_Some in H as (conf & Hconf & H).
  injection H as <-. simpl. exact Hdom.
Qed.

Lemma aggregate_total (sym : string) (rows : list (Z * SentimentRow * NewsRow)) :
  rows ≠ [] → is_Some (Fusion.aggregate sym rows).
Proof.
  intros Hne. unfold Fusion.aggregate. destruct rows as [|latest rest]; [done|].
  cbv zeta. unfold Fusion.scores_of, Py.max_key.
  set (neg := (_ / _)%Q). set (neu := (_ / _)%Q). set (pos := (_ / _)%Q).
  cbn [Py.max_key_from].
  destruct (Py.gtb neu neg); destruct (Py.gtb pos _); simpl; eauto.
Qed.

Lemma latest_sentiment_aggregate (d : Database) (sym : string) (s : Fusion.Sentiment) :
  Fusion._get_latest_sentiment d sym = Some s →
  ∃ rows, Fusion.aggregate sym rows = Some s.
Proof.
  unfold Fusion._get_latest_sentiment. destruct (db_up d); [|done]. eauto.
Qed.

Lemma average_chunks_dominant (results : list Processor.Analysis) (a : Processor.Analysis) :
  Processor.average_chunks results = Some a →
  Py.max_key [("negative", Processor.score_negative a);
              ("neutral", Processor.score_neutral a);
              ("positive", Processor.score_positive a)] =
  Some (Processor.dominant_sentiment a).
Proof.
  unfold Processor.average_chunks. destruct results as [|r rest]; [done|].
  cbv zeta. destruct (fold_left _ _ _) as [[neg neu] pos]. intros H.
  apply bind_Some in H as (dom & Hdom & H).
  apply bind_Some in H as (conf & Hconf & H).
  injection H as <-. simpl. exact Hdom.
Qed.

Lemma average_chunks_total (results : list Processor.Analysis) :
  results ≠ [] → is_Some (Processor.average_chunks results).
Proof.
  intros Hne. unfold Processor.average_chunks. destruct results as [|r rest]; [done|].
  cbv zeta. destruct (fold_left _ _ _) as [[neg neu] pos].
  unfold Py.max_key. cbn [Py.max_key_from].
  destruct (Py.gtb neu neg); destruct (Py.gtb pos _); simpl; eauto.
Qed.

(** C10. Whenever class averages tie for the maximum, the dominant
    sentiment is the first maximal label in the order negative, neutral,
    positive, both in the aggregation over a symbol's recent news and in
    the averaging over the chunks of a long text; an aggregation always
    has a dominant label.  In particular a tie of the negative and the
    positive average at the maximum gives negative, whose signal is
    SELL. *)
Theorem C10_dominant_tie_break :
  (∀ d sym s,
      Fusion._get_latest_sentiment d sym = Some s →
      first_max
        (Fusion.scores_of (Fusion.avg_negative s) (Fusion.avg_neutral s) (Fusion.avg_positive s))
        (Fusion.dominant_sentiment s) ∧
      ((Fusion.avg_negative s == Fusion.avg_positive s)%Q →
       (Fusion.avg_neutral s <= Fusion.avg_negative s)%Q →
       Fusion.dominant_sentiment s = "negative" ∧
       fst (Fusion.sentiment_input (Some s)) = "SELL")) ∧
  (∀ sym rows, rows ≠ [] → is_Some (Fusion.aggregate sym rows)) ∧
  (∀ results a,
      Processor.average_chunks results = Some a →
      first_max
        [("negative", Processor.score_negative a); ("neutral", Processor.score_neutral a);
         ("positive", Processor.score_positive a)]
        (Processor.dominant_sentiment a) ∧
      ((Processor.score_negative a == Processor.score_positive a)%Q →
       (Processor.score_neutral a <= Processor.score_negative a)%Q →
       Processor.dominant_sentiment a = "negative")) ∧
  (∀ results, results ≠ [] → is_Some (Processor.average_chunks results)).
Proof.
  split; [|split; [|split]].
  - intros d sym s Hs.
    apply latest_sentiment_aggregate in Hs as [rows Hagg].
    apply aggregate_dominant in Hagg.
    split; [by apply max_key_first_max|].
    intros Htie Hle.
    assert (Fusion.dominant_sentiment s = "negative") as Hdom.
    { unfold Fusion.scores_of in Hagg.
      rewrite (three_way_tie _ _ _ Htie Hle) in Hagg. congruence. }
    split; [exact Hdom|]. simpl. by rewrite Hdom.
  - exact aggregate_total.
  - intros results a Ha. apply average_chunks_dominant in Ha.
    split; [by apply max_key_first_max|].
    intros Htie Hle. rewrite (three_way_tie _ _ _ Htie Hle) in Ha. congruence.
  - exact average_chunks_total.
Qed.

Lemma C10_dominant_tie_break_witness :
  ∃ s,
    Fusion._get_latest_sentiment Sample.tied_db "AAPL" = Some s ∧
    (Fusion.avg_negative s == Fusion.avg_positive s)%Q ∧
    (Fusion.avg_neutral s <= Fusion.avg_negative s)%Q ∧
    Fusion.dominant_sentiment s = "negative" ∧
    fst (Fusion.sentiment_input (Some s)) = "SELL" ∧
    Processor.average_chunks [Sample.tied] ≠ None.
Proof.
  destruct C10_dominant_tie_break as (Hfusion & _ & _ & Htotal).
  eexists. split; [vm_compute; reflexivity|].
  assert (0 + 0.4 / 1 == 0 + 0.4 / 1)%Q as Htie by reflexivity.
  assert (0 + 0.2 / 1 <= 0 + 0.4 / 1)%Q as Hle by (vm_compute; discriminate).
  split; [vm_compute; reflexivity|]. split; [vm_compute; discriminate|].
  match goal with
  | |- Fusion.dominant_sentiment ?s = _ ∧ _ =>
      destruct (Hfusion Sample.tied_db "AAPL" s) as [_ Hdom]; [vm_compute; reflexivity|]
  end.
  destruct Hdom as [Hneg Hsell]; [vm_compute; reflexivity | vm_compute; discriminate |].
  split; [exact Hneg|]. split; [exact Hsell|].
  intros Hnone. destruct (Htotal [Sample.tied]) as [a Ha]; [discriminate|]. congruence.
Defined.

Lemma elem_of_map_filter {A B : Type} (g : A → B) (f : A → bool) (l : list A) (y : B) :
  y ∈ map g (List.filter f l) ↔ ∃ x, x ∈ l ∧ f x = true ∧ y = g x.
Proof.
  rewrite list_elem_of_fmap. split.
  - intros (x & -> & Hx). apply list_elem_of_In, filter_In in Hx as [Hx Hf].
    exists x. by rewrite list_elem_of_In.
  - intros (x & Hx & Hf & ->). exists x. split; [done|].
    apply list_elem_of_In, filter_In. by rewrite <- list_elem_of_In.
Qed.

Lemma NoDup_map_filter {A B : Type} (g : A → B) (f : A → bool) (l : list A) :
  NoDup (map g l) → NoDup (map g (List.filter f l)).
Proof.
  induction l as [|x l IH]; simpl; [done|].
  rewrite NoDup_cons. intros [Hx Hl].
  destruct (f x); simpl; [|by apply IH].
  apply NoDup_cons. split; [|by apply IH].
  intros Hin. apply Hx. apply elem_of_map_filter in Hin as (x' & Hx' & _ & ->).
  apply list_elem_of_fmap. eauto.
Qed.

(** ** Checkpointed stream processor *)

#[global] Instance rowid_le_total {A : Type} : Total (@rowid_le A).
Proof. intros a b. unfold rowid_le. lia. Qed.

#[global] Instance rowid_le_trans {A : Type} : Transitive (@rowid_le A).
Proof. intros a b c. unfold rowid_le. lia. Qed.

Lemma strongly_sorted_rowids {A : Type} (l : list (Z * A)) :
  StronglySorted rowid_le l → NoDup (map fst l) → StronglySorted Z.lt (map fst l).
Proof.
  induction 1 as [|a l Hl IH Hall]; intros Hnd; simpl; [constructor|].
  apply NoDup_cons in Hnd as [Hni Hnd]. constructor; [by apply IH|].
  apply Forall_forall. intros j Hj. apply list_elem_of_fmap in Hj as (b & -> & Hb).
  rewrite Forall_forall in Hall. specialize (Hall b Hb). unfold rowid_le in Hall.
  assert (fst a ≠ fst b).
  { intros E. apply Hni. rewrite E. apply list_elem_of_fmap. by exists b. }
  lia.
Qed.

Lemma fetch_sorted (st : Processor.State) :
  StronglySorted Z.lt (map Processor.ni_id (Processor.fetch_unprocessed_news st)).
Proof.
  unfold Processor.fetch_unprocessed_news. destruct (db_up (Processor.db st)); [|constructor].
  rewrite map_map.
  rewrite (map_ext _ (λ ir : Z * NewsRow, fst ir)) by (by intros [i r]).
  apply strongly_sorted_rowids.
  - unfold order_by_rowid. apply StronglySorted_merge_sort; apply _.
  - unfold order_by_rowid. rewrite merge_sort_Permutation.
    apply (NoDup_map_filter (λ ir : Z * NewsRow, fst ir)
             (λ '(rowid, _), rowid >? Processor.last_news_id st)).
    apply NoDup_fst_map_to_list.
Qed.

Lemma chunks_fuel_concat {A : Type} (n : nat) :
  (0 < n)%nat →
  ∀ fuel (l : list A), (length l <= fuel)%nat → concat (Processor.chunks_fuel fuel n l) = l.
Proof.
  intros Hn. induction fuel as [|fuel IH]; intros l Hlen; simpl.
  { destruct l; [done | simpl in Hlen; lia]. }
  destruct l as [|a l]; [done|].
  remember (a :: l) as l' eqn:Hl'. simpl. rewrite IH; [apply take_drop|].
  rewrite length_drop. subst l'. simpl in *. lia.
Qed.

Section StreamProcessor.

Variable analyze_text : nat → string → option Processor.Analysis.

Lemma scoring_phase_refl (st : Processor.State) (results : list Processor.Result)
    (items : list Processor.NewsItem) :
  scoring_phase st st results results items.
Proof.
  unfold scoring_phase.
  split; [done|]. split; [done|]. split; [done|]. split; [done|]. split; [done|].
  split; [lia|].
  exists [], []. rewrite !app_nil_r. simpl.
  split; [done|]. split; [done|]. split; [done|].
  split; [intros i Hi; by apply elem_of_nil in Hi|].
  split; [intros i Hi; by apply elem_of_nil in Hi|].
  split; [intros i [Hi|Hi]; by apply elem_of_nil in Hi|].
  split; done.
Qed.

Lemma scoring_phase_trans (st1 st2 st3 : Processor.State)
    (r1 r2 r3 : list Processor.Result) (items1 items2 items : list Processor.NewsItem) :
  scoring_phase st1 st2 r1 r2 items1 →
  scoring_phase st2 st3 r2 r3 items2 →
  (∀ i, i ∈ map Processor.ni_id items1 → i ∈ map Processor.ni_id items) →
  (∀ i, i ∈ map Processor.ni_id items2 → i ∈ map Processor.ni_id items) →
  scoring_phase st1 st3 r1 r3 items.
Proof.
  intros (A1 & A2 & A3 & A4 & A5 & A6 & evs1 & new1 & L1 & R1 & M1 & S1 & F1 & I1 & E1 & N1)
         (B1 & B2 & B3 & B4 & B5 & B6 & evs2 & new2 & L2 & R2 & M2 & S2 & F2 & I2 & E2 & N2)
         Hsub1 Hsub2.
  unfold scoring_phase.
  split; [congruence|]. split; [congruence|]. split; [congruence|].
  split; [congruence|]. split; [congruence|]. split; [lia|].
  exists (evs1 ++ evs2)%list, (new1 ++ new2)%list.
  assert (Processor.scored_ids (evs1 ++ evs2) =
          (Processor.scored_ids evs1 ++ Processor.scored_ids evs2)%list) as Hs
    by apply omap_app.
  assert (Processor.failed_ids (evs1 ++ evs2) =
          (Processor.failed_ids evs1 ++ Processor.failed_ids evs2)%list) as Hf
    by apply omap_app.
  rewrite Hs, Hf.
  split; [by rewrite L2, L1, app_assoc|].
  split; [by rewrite R2, R1, app_assoc|].
  split; [by rewrite map_app, M1, M2|].
  split.
  { intros i Hi. apply elem_of_app in Hi as [Hi|Hi].
    - specialize (S1 i Hi). lia.
    - specialize (S2 i Hi). lia. }
  split.
  { intros i Hi. apply elem_of_app in Hi as [Hi|Hi].
    - by apply F1.
    - specialize (F2 i Hi). lia. }
  split.
  { intros i Hi. rewrite !elem_of_app in Hi.
    destruct Hi as [[Hi|Hi]|[Hi|Hi]]; (apply Hsub1, I1; tauto) || (apply Hsub2, I2; tauto). }
  split.
  { intros Hnil. apply app_eq_nil in Hnil as [H1 H2]. rewrite (E2 H2). by apply E1. }
  intros Hne. rewrite elem_of_app.
  destruct (Processor.scored_ids evs2) as [|x l] eqn:Hevs2.
  - left. rewrite (E2 eq_refl). apply N1. by rewrite app_nil_r in Hne.
  - right. by apply N2.
Qed.


Lemma process_item_phase (st : Processor.State) (results : list Processor.Result)
    (item : Processor.NewsItem) :
  scoring_phase st (fst (Processor.process_item analyze_text (st, results) item))
    results (snd (Processor.process_item analyze_text (st, results) item)) [item].
Proof.
  unfold Processor.process_item.
  destruct (Z.gtb_spec (Processor.ni_id item) (Processor.last_processed_id st)) as [Hgt|Hle];
    [|apply scoring_phase_refl].
  destruct (analyze_text _ _) as [sentiment|]; simpl; unfold scoring_phase; simpl.
  - split; [done|]. split; [done|]. split; [done|]. split; [done|]. split; [done|].
    split; [lia|].
    exists [Processor.Scored (Processor.ni_id item)],
           [{| Processor.r_id := Processor.ni_id item;
               Processor.r_symbol := Processor.ni_symbol item;
               Processor.r_sentiment := sentiment |}].
    simpl. split; [done|]. split; [done|]. split; [done|].
    split; [intros i Hi; apply list_elem_of_singleton in Hi as ->; lia|].
    split; [intros i Hi; by apply elem_of_nil in Hi|].
    split.
    { intros i [Hi|Hi]; [|by apply elem_of_nil in Hi]. exact Hi. }
    split; [done|]. intros _. by left.
  - split; [done|]. split; [done|]. split; [done|]. split; [done|]. split; [done|].
    split; [lia|].
    exists [Processor.ScoringFailed (Processor.ni_id item)], []. rewrite app_nil_r.
    simpl. split; [done|]. split; [done|]. split; [done|].
    split; [intros i Hi; by apply elem_of_nil in Hi|].
    split; [intros i Hi; apply list_elem_of_singleton in Hi as ->; lia|].
    split.
    { intros i [Hi|Hi]; [by apply elem_of_nil in Hi|]. exact Hi. }
    split; done.
Qed.

Lemma process_items_phase (batch : list Processor.NewsItem) :
  ∀ st results,
    scoring_phase st (fst (fold_left (Processor.process_item analyze_text) batch (st, results)))
      results (snd (fold_left (Processor.process_item analyze_text) batch (st, results))) batch.
Proof.
  induction batch as [|item rest IH]; intros st results; cbn [fold_left].
  { apply scoring_phase_refl. }
  pose proof (process_item_phase st results item) as H1.
  destruct (Processor.process_item analyze_text (st, results) item) as [st1 results1].
  simpl in H1.
  eapply scoring_phase_trans; [exact H1 | apply IH | |].
  - intros i Hi. simpl in *. apply list_elem_of_singleton in Hi as ->. by left.
  - intros i Hi. simpl. by right.
Qed.

(** Signal handlers and the analyzer's checkpoint write leave everything
    a scoring phase speaks about as it was. *)
Lemma quiet_phase (st st' : Processor.State) (results : list Processor.Result)
    (items : list Processor.NewsItem) :
  Processor.db st' = Processor.db st →
  Processor.last_news_id st' = Processor.last_news_id st →
  Processor.last_run st' = Processor.last_run st →
  Processor.processor_checkpoint_file st' = Processor.processor_checkpoint_file st →
  Processor.fs_up st' = Processor.fs_up st →
  Processor.last_processed_id st' = Processor.last_processed_id st →
  Processor.log st' = Processor.log st →
  scoring_phase st st' results results items.
Proof.
  intros H1 H2 H3 H4 H5 H6 H7. unfold scoring_phase.
  split; [done|]. split; [done|]. split; [done|]. split; [done|]. split; [done|].
  split; [lia|].
  exists [], []. rewrite !app_nil_r. simpl.
  split; [done|]. split; [done|]. split; [done|].
  split; [intros i Hi; by apply elem_of_nil in Hi|].
  split; [intros i Hi; by apply elem_of_nil in Hi|].
  split; [intros i [Hi|Hi]; by apply elem_of_nil in Hi|].
  split; done.
Qed.

Lemma deliver_phase (s : option Processor.Signum) (st : Processor.State)
    (results : list Processor.Result) (items : list Processor.NewsItem) :
  scoring_phase st (Processor.deliver s st) results results items.
Proof. apply quiet_phase; by destruct s as [[|]|]. Qed.

Lemma analyzer_checkpoint_phase (st : Processor.State)
    (results : list Processor.Result) (items : list Processor.NewsItem) :
  scoring_phase st (Processor.analyzer_save_checkpoint st) results results items.
Proof.
  apply quiet_phase; unfold Processor.analyzer_save_checkpoint;
    by destruct (Processor.fs_up st) eqn:E.
Qed.

Lemma process_batches_phase (batches : list (list Processor.NewsItem)) :
  ∀ signals st results,
    scoring_phase st
      (fst (Processor.process_batches analyze_text batches signals (st, results)))
      results
      (snd (Processor.process_batches analyze_text batches signals (st, results)))
      (concat batches).
Proof.
  induction batches as [|batch rest IH]; intros signals st results; simpl.
  { apply scoring_phase_refl. }
  set (st1 := Processor.deliver (List.hd None signals) st).
  destruct (Processor.pause_event st1).
  - simpl. eapply scoring_phase_trans with (items1 := []) (items2 := []);
      [apply deliver_phase | apply analyzer_checkpoint_phase | |];
      intros i Hi; by apply elem_of_nil in Hi.
  - pose proof (process_items_phase batch st1 results) as Hb.
    destruct (fold_left _ batch (st1, results)) as [st2 results2]. simpl in Hb.
    eapply scoring_phase_trans with (items1 := batch) (items2 := concat rest).
    + eapply scoring_phase_trans with (items1 := []) (items2 := batch);
        [apply deliver_phase | exact Hb | |]; [intros i Hi; by apply elem_of_nil in Hi | done].
    + eapply scoring_phase_trans with (items1 := []) (items2 := concat rest);
        [apply analyzer_checkpoint_phase | apply IH | |];
        [intros i Hi; by apply elem_of_nil in Hi | done].
    + intros i Hi. rewrite map_app, elem_of_app. by left.
    + intros i Hi. rewrite map_app, elem_of_app. by right.
Qed.

Lemma chunks_fuel_subset {A : Type} (fuel n : nat) :
  ∀ (l : list A) x, x ∈ concat (Processor.chunks_fuel fuel n l) → x ∈ l.
Proof.
  induction fuel as [|fuel IH]; intros l x; simpl.
  { intros Hx. by apply elem_of_nil in Hx. }
  destruct l as [|a l]; [done|].
  remember (a :: l) as l' eqn:Hl'. simpl. rewrite elem_of_app. intros [Hx|Hx].
  - by eapply subseteq_take.
  - apply IH in Hx. by eapply subseteq_drop.
Qed.

Lemma process_news_batch_phase (st st' : Processor.State)
    (news_items : list Processor.NewsItem) (batch_size : Z)
    (signals : list (option Processor.Signum)) (results : list Processor.Result) :
  Processor.process_news_batch analyze_text st news_items batch_size signals =
    Some (st', results) →
  scoring_phase st st' [] results news_items.
Proof.
  unfold Processor.process_news_batch.
  destruct (batch_size =? 0); [done|].
  destruct (batch_size <? 0).
  { intros [= <- <-]. apply scoring_phase_refl. }
  intros [= Hrun].
  pose proof (process_batches_phase
                (Processor.chunks (Z.to_nat batch_size) news_items) signals st []) as Hp.
  rewrite Hrun in Hp. simpl in Hp.
  eapply scoring_phase_trans with (items1 := []);
    [apply scoring_phase_refl | exact Hp | |].
  - intros i Hi. by apply elem_of_nil in Hi.
  - intros i Hi. apply list_elem_of_fmap in Hi as (x & -> & Hx).
    apply list_elem_of_fmap. exists x. split; [done|].
    eapply chunks_fuel_subset, Hx.
Qed.

Lemma fetch_ids (st : Processor.State) (i : Z) :
  i ∈ map Processor.ni_id (Processor.fetch_unprocessed_news st) ↔
  db_up (Processor.db st) = true ∧
  is_Some (news_data (Processor.db st) !! i) ∧
  Processor.last_news_id st < i.
Proof.
  unfold Processor.fetch_unprocessed_news.
  destruct (db_up (Processor.db st)).
  2: { split; [intros H; by apply elem_of_nil in H | by intros [? _]]. }
  rewrite map_map, list_elem_of_fmap. unfold order_by_rowid. split.
  - intros ([j nd] & -> & Hin). simpl.
    rewrite merge_sort_Permutation in Hin.
    apply list_elem_of_In, filter_In in Hin as [Hin Hgt].
    apply list_elem_of_In, elem_of_map_to_list in Hin.
    split; [done|]. split; [eauto|]. simpl in Hgt. lia.
  - intros (_ & [nd Hnd] & Hgt). exists (i, nd). split; [done|].
    rewrite merge_sort_Permutation.
    apply list_elem_of_In, filter_In. split.
    + by apply list_elem_of_In, elem_of_map_to_list.
    + simpl. lia.
Qed.

Lemma max_id_spec (r : Processor.Result) (rest : list Processor.Result) :
  Processor.max_id r rest ∈ map Processor.r_id (r :: rest) ∧
  ∀ i, i ∈ map Processor.r_id (r :: rest) → i <= Processor.max_id r rest.
Proof.
  unfold Processor.max_id.
  assert (∀ m,
    (fold_left (λ m r', if Processor.r_id r' >? m then Processor.r_id r' else m) rest m = m ∨
     fold_left (λ m r', if Processor.r_id r' >? m then Processor.r_id r' else m) rest m
       ∈ map Processor.r_id rest) ∧
    m <= fold_left (λ m r', if Processor.r_id r' >? m then Processor.r_id r' else m) rest m ∧
    ∀ i, i ∈ map Processor.r_id rest →
         i <= fold_left (λ m r', if Processor.r_id r' >? m then Processor.r_id r' else m) rest m)
    as Hgen.
  { induction rest as [|x rest IH]; intros m; simpl.
    - split; [by left|]. split; [lia|]. intros i Hi. by apply elem_of_nil in Hi.
    - destruct (IH (if Processor.r_id x >? m then Processor.r_id x else m)) as (Hin & Hle & Hall).
      destruct (Z.gtb_spec (Processor.r_id x) m) as [Hgt|Hngt].
      + split; [right; destruct Hin as [->|Hin]; [by left | by right]|].
        split; [lia|].
        intros i Hi. apply elem_of_cons in Hi as [->|Hi]; [lia | by apply Hall].
      + split; [destruct Hin as [->|Hin]; [by left | right; by right]|].
        split; [lia|].
        intros i Hi. apply elem_of_cons in Hi as [->|Hi]; [lia | by apply Hall]. }
  destruct (Hgen (Processor.r_id r)) as (Hin & Hle & Hall). simpl. split.
  - destruct Hin as [->|Hin]; [by left | by right].
  - intros i Hi. apply elem_of_cons in Hi as [->|Hi]; [lia | by apply Hall].
Qed.

Lemma save_checkpoint_fields (st : Processor.State) :
  let st' := Processor._save_checkpoint st in
  Processor.db st' = Processor.db st ∧
  Processor.last_news_id st' = Processor.last_news_id st ∧
  Processor.last_processed_id st' = Processor.last_processed_id st ∧
  Processor.log st' = Processor.log st ∧
  Processor.fs_up st' = Processor.fs_up st ∧
  (Processor.fs_up st = true →
   Processor.persisted_last_news_id st' = Processor.last_news_id st) ∧
  (Processor.fs_up st = false →
   Processor.persisted_last_news_id st' = Processor.persisted_last_news_id st).
Proof.
  unfold Processor._save_checkpoint, Processor.persisted_last_news_id.
  destruct (Processor.fs_up st) eqn:E; simpl; repeat split; congruence.
Qed.

Lemma save_results_fields (now utc_now : string) (st : Processor.State)
    (results : list Processor.Result) :
  let st' := Processor.save_sentiment_results now utc_now st results in
  db_up (Processor.db st') = db_up (Processor.db st) ∧
  news_data (Processor.db st') = news_data (Processor.db st) ∧
  Processor.last_processed_id st' = Processor.last_processed_id st ∧
  Processor.log st' = Processor.log st ∧
  Processor.fs_up st' = Processor.fs_up st ∧
  match results with
  | [] => st' = st
  | r :: rest =>
      if db_up (Processor.db st) then
        Processor.last_news_id st' = Processor.max_id r rest ∧
        (Processor.fs_up st = true →
         Processor.persisted_last_news_id st' = Processor.max_id r rest) ∧
        (Processor.fs_up st = false →
         Processor.persisted_last_news_id st' = Processor.persisted_last_news_id st)
      else st' = st
  end.
Proof.
  unfold Processor.save_sentiment_results.
  destruct results as [|r rest]; [done|].
  destruct (db_up (Processor.db st)) eqn:Hup; [|by rewrite Hup].
  match goal with |- context [Processor._save_checkpoint ?s] =>
    destruct (save_checkpoint_fields s) as (H1 & H2 & H3 & H4 & H5 & H6 & H7) end.
  simpl in *. rewrite H1, H2, H3, H4, H5. simpl.
  repeat split; try done.
Qed.

Lemma iteration_cases (batch_size : Z) (now utc_now : string)
    (signals : list (option Processor.Signum)) (st : Processor.State) :
  let st' := Processor.process_iteration analyze_text batch_size now utc_now signals st in
  st' = st ∨
  ∃ st1 results,
    scoring_phase st st1 [] results (Processor.fetch_unprocessed_news st) ∧
    st' = Processor.save_sentiment_results now utc_now st1 results.
Proof.
  unfold Processor.process_iteration.
  destruct (Processor.shutdown_flag st); [by left|].
  destruct (Processor.pause_event st); [by left|].
  destruct (Processor.fetch_unprocessed_news st) as [|item items] eqn:Hfetch; [by left|].
  destruct (Processor.process_news_batch _ _ _ _ _) as [[st1 results]|] eqn:Hrun; [|by left].
  right. exists st1, results. split; [|done].
  by eapply process_news_batch_phase.
Qed.

Lemma processor_new_events_app (st st' : Processor.State) (evs : list Processor.Event) :
  Processor.log st' = (Processor.log st ++ evs)%list → Processor.new_events st st' = evs.
Proof. intros H. unfold Processor.new_events. by rewrite H, drop_app_length. Qed.

Lemma processor_new_events_same (st : Processor.State) : Processor.new_events st st = [].
Proof. unfold Processor.new_events. apply drop_all. Qed.

Lemma process_item_attempt (st : Processor.State) (results : list Processor.Result)
    (item : Processor.NewsItem) :
  let st' := fst (Processor.process_item analyze_text (st, results) item) in
  Processor.pause_event st' = Processor.pause_event st ∧
  (Processor.last_processed_id st' = Processor.last_processed_id st ∨
   Processor.last_processed_id st' = Processor.ni_id item) ∧
  ∃ evs, Processor.log st' = (Processor.log st ++ evs)%list ∧
         (Processor.last_processed_id st < Processor.ni_id item →
          map Processor.attempt_id evs = [Processor.ni_id item]).
Proof.
  unfold Processor.process_item.
  destruct (Z.gtb_spec (Processor.ni_id item) (Processor.last_processed_id st)) as [Hgt|Hle].
  - destruct (analyze_text _ _) as [sentiment|]; simpl.
    + split; [done|]. split; [by right|]. eexists. split; [reflexivity|]. done.
    + split; [done|]. split; [by left|]. eexists. split; [reflexivity|]. done.
  - simpl. split; [done|]. split; [by left|]. exists []. rewrite app_nil_r.
    split; [done|]. lia.
Qed.

Lemma process_items_attempt (batch : list Processor.NewsItem) :
  ∀ st results,
    let st' := fst (fold_left (Processor.process_item analyze_text) batch (st, results)) in
    Processor.pause_event st' = Processor.pause_event st ∧
    (Processor.last_processed_id st' = Processor.last_processed_id st ∨
     Processor.last_processed_id st' ∈ map Processor.ni_id batch) ∧
    ∃ evs, Processor.log st' = (Processor.log st ++ evs)%list ∧
           (StronglySorted Z.lt (map Processor.ni_id batch) →
            ∀ f, f ∈ map Processor.ni_id batch → Processor.last_processed_id st < f →
                 f ∈ map Processor.attempt_id evs).
Proof.
  induction batch as [|item rest IH]; intros st results; cbn [fold_left].
  { simpl. split; [done|]. split; [by left|]. exists []. rewrite app_nil_r.
    split; [done|]. intros _ f Hf. by apply elem_of_nil in Hf. }
  pose proof (process_item_attempt st results item) as (P1 & C1 & evs1 & L1 & A1).
  destruct (Processor.process_item analyze_text (st, results) item) as [st1 results1].
  simpl in P1, C1, L1, A1.
  destruct (IH st1 results1) as (P2 & C2 & evs2 & L2 & A2).
  split; [congruence|]. split.
  { cbn [map]. rewrite elem_of_cons.
    destruct C2 as [C2|C2]; [|tauto]. rewrite C2. destruct C1 as [C1|C1]; tauto. }
  exists (evs1 ++ evs2)%list. split; [by rewrite L2, L1, app_assoc|].
  cbn [map]. intros Hs f Hf Hgt. apply StronglySorted_inv in Hs as [Hs Hall].
  rewrite map_app, elem_of_app.
  apply elem_of_cons in Hf as [->|Hf].
  - left. rewrite (A1 Hgt). by left.
  - right. apply A2; [exact Hs | exact Hf |].
    rewrite Forall_forall in Hall. specialize (Hall f Hf).
    destruct C1 as [C1|C1]; lia.
Qed.

Lemma process_batches_attempt (batches : list (list Processor.NewsItem)) :
  ∀ signals st results,
    (∀ s, s ∈ signals → s = None) →
    Processor.pause_event st = false →
    StronglySorted Z.lt (map Processor.ni_id (concat batches)) →
    let st' := fst (Processor.process_batches analyze_text batches signals (st, results)) in
    ∃ evs, Processor.log st' = (Processor.log st ++ evs)%list ∧
           ∀ f, f ∈ map Processor.ni_id (concat batches) →
                Processor.last_processed_id st < f → f ∈ map Processor.attempt_id evs.
Proof.
  induction batches as [|batch rest IH]; intros signals st results Hquiet Hp Hs; simpl.
  { exists []. rewrite app_nil_r. split; [done|]. intros f Hf. by apply elem_of_nil in Hf. }
  assert (List.hd None signals = None) as ->.
  { destruct signals as [|s l]; [done|]. simpl. apply Hquiet. by left. }
  simpl. rewrite Hp.
  simpl in Hs. rewrite map_app in Hs.
  pose proof (process_items_attempt batch st results) as (P1 & C1 & evs1 & L1 & A1).
  destruct (fold_left _ batch (st, results)) as [st1 results1]. simpl in P1, C1, L1, A1.
  destruct (IH (List.tl signals) (Processor.analyzer_save_checkpoint st1) results1)
    as (evs2 & L2 & A2).
  { intros s Hin. apply Hquiet. destruct signals; [done | by right]. }
  { unfold Processor.analyzer_save_checkpoint. destruct (Processor.fs_up st1); simpl; congruence. }
  { eapply StronglySorted_app_1_r, Hs. }
  assert (Processor.log (Processor.analyzer_save_checkpoint st1) = Processor.log st1 ∧
          Processor.last_processed_id (Processor.analyzer_save_checkpoint st1) =
          Processor.last_processed_id st1) as [L3 C3].
  { unfold Processor.analyzer_save_checkpoint. by destruct (Processor.fs_up st1). }
  exists (evs1 ++ evs2)%list. split; [by rewrite L2, L3, L1, app_assoc|].
  intros f Hf Hgt. rewrite map_app, elem_of_app in Hf. rewrite map_app, elem_of_app.
  destruct Hf as [Hf|Hf].
  - left. apply A1; [eapply StronglySorted_app_1_l, Hs | exact Hf | exact Hgt].
  - right. apply A2; [exact Hf|]. rewrite C3.
    destruct C1 as [C1|C1]; [lia|].
    eapply StronglySorted_app_1_elem_of; [exact Hs | exact C1 | exact Hf].
Qed.

Lemma iteration_attempts (batch_size : Z) (now utc_now : string)
    (signals : list (option Processor.Signum)) (st : Processor.State) (f : Z) :
  0 < batch_size →
  (∀ s, s ∈ signals → s = None) →
  Processor.shutdown_flag st = false →
  Processor.pause_event st = false →
  f ∈ map Processor.ni_id (Processor.fetch_unprocessed_news st) →
  Processor.last_processed_id st < f →
  f ∈ map Processor.attempt_id
        (Processor.new_events st
           (Processor.process_iteration analyze_text batch_size now utc_now signals st)).
Proof.
  intros Hb Hquiet Hsd Hp Hf Hgt. unfold Processor.process_iteration. rewrite Hsd, Hp.
  pose proof (fetch_sorted st) as Hs.
  destruct (Processor.fetch_unprocessed_news st) as [|item items] eqn:Hfetch.
  { by apply elem_of_nil in Hf. }
  rewrite <- Hfetch in *. clear Hfetch.
  unfold Processor.process_news_batch.
  destruct (Z.eqb_spec batch_size 0) as [|_]; [lia|].
  destruct (Z.ltb_spec batch_size 0) as [|_]; [lia|].
  assert (concat (Processor.chunks (Z.to_nat batch_size) (Processor.fetch_unprocessed_news st)) =
          Processor.fetch_unprocessed_news st) as Hcat.
  { apply chunks_fuel_concat; lia. }
  pose proof (process_batches_attempt
                (Processor.chunks (Z.to_nat batch_size) (Processor.fetch_unprocessed_news st))
                signals st [] Hquiet Hp) as Hrun.
  rewrite Hcat in Hrun. destruct (Hrun Hs) as (evs & L & A).
  destruct (Processor.process_batches _ _ _ _) as [st1 results]. simpl in L.
  pose proof (save_results_fields now utc_now st1 results) as (_ & _ & _ & LG & _).
  rewrite (processor_new_events_app st _ evs) by (by rewrite LG).
  by apply A.
Qed.

Lemma attempt_ids_split (evs : list Processor.Event) (f : Z) :
  f ∈ map Processor.attempt_id evs ↔
  f ∈ Processor.scored_ids evs ∨ f ∈ Processor.failed_ids evs.
Proof.
  unfold Processor.scored_ids, Processor.failed_ids.
  induction evs as [|e evs IH]; simpl.
  - rewrite !elem_of_nil. tauto.
  - destruct e as [i|i]; simpl; rewrite !elem_of_cons, IH; tauto.
Qed.

(** C2, as the code has it.  After a run of the processor against a
    reachable store: if some item was scored, the checkpoint is the
    highest id scored in the run, and the checkpoint file holds it when
    the file can be written; if none was, the checkpoint is where it was.
    An item that failed scoring is fetched again by the next run exactly
    when its id lies above the new checkpoint, that is above every id
    scored in the run, and it is then above the analyzer's cursor too.
    The next run, whatever its batch size and whatever signals reach it,
    attempts the failed item only if its id lies above the new
    checkpoint; and it does attempt it then, when its batch size is
    positive, the processor is neither paused nor shut down and no signal
    arrives during the run. *)
Theorem C2_checkpoint_after_run (batch_size : Z) (now utc_now : string)
    (signals : list (option Processor.Signum)) (st : Processor.State) :
  db_up (Processor.db st) = true →
  let st' := Processor.process_iteration analyze_text batch_size now utc_now signals st in
  let scored := Processor.scored_ids (Processor.new_events st st') in
  let failed := Processor.failed_ids (Processor.new_events st st') in
  (scored ≠ [] →
   Processor.last_news_id st' ∈ scored ∧
   (∀ i, i ∈ scored → i <= Processor.last_news_id st') ∧
   (Processor.fs_up st = true →
    Processor.persisted_last_news_id st' = Processor.last_news_id st')) ∧
  (scored = [] → Processor.last_news_id st' = Processor.last_news_id st) ∧
  (∀ f, f ∈ failed →
        (f ∈ map Processor.ni_id (Processor.fetch_unprocessed_news st') ↔
         Processor.last_news_id st' < f) ∧
        (Processor.last_news_id st' < f → Processor.last_processed_id st' < f) ∧
        ∀ batch_size' now' utc_now' signals',
          let st'' := Processor.process_iteration analyze_text batch_size' now' utc_now'
                        signals' st' in
          (f ∈ map Processor.attempt_id (Processor.new_events st' st'') →
           Processor.last_news_id st' < f) ∧
          (Processor.last_news_id st' < f →
           0 < batch_size' →
           (∀ s, s ∈ signals' → s = None) →
           Processor.shutdown_flag st' = false →
           Processor.pause_event st' = false →
           f ∈ map Processor.attempt_id (Processor.new_events st' st''))).
Proof.
  intros Hup st' scored failed.
  destruct (iteration_cases batch_size now utc_now signals st)
    as [Hsame|(st1 & results & Hphase & Hsave)]; [fold st' in Hsame | fold st' in Hsave].
  { subst scored failed. rewrite Hsame, processor_new_events_same. simpl.
    split; [done|]. split; [done|]. intros f Hf. by apply elem_of_nil in Hf. }
  destruct Hphase as (A1 & A2 & A3 & A4 & A5 & A6 & evs & new & L & R & M & S & F & I & E & N).
  pose proof (save_results_fields now utc_now st1 results) as Hfields.
  rewrite <- Hsave in Hfields. simpl in Hfields.
  destruct Hfields as (U & ND & LP & LG & FS & Hres).
  assert (Processor.new_events st st' = evs) as Hevs.
  { apply processor_new_events_app. by rewrite LG. }
  subst scored failed. rewrite Hevs. simpl in R. subst results.
  rewrite A1, Hup in Hres.
  assert (Processor.scored_ids evs ≠ [] →
          Processor.last_news_id st' ∈ Processor.scored_ids evs ∧
          (∀ i, i ∈ Processor.scored_ids evs → i <= Processor.last_news_id st') ∧
          (Processor.fs_up st = true →
           Processor.persisted_last_news_id st' = Processor.last_news_id st')) as Hscored.
  { intros Hne. destruct new as [|r rest]; [done|].
    destruct Hres as (Hlast & Hfile & _).
    destruct (max_id_spec r rest) as [Hin Hmax].
    rewrite Hlast, <- M. split; [exact Hin|]. split; [exact Hmax|].
    intros Hfs. apply Hfile. by rewrite A5. }
  assert (Processor.scored_ids evs = [] →
          Processor.last_news_id st' = Processor.last_news_id st) as Hnone.
  { intros Hnil. rewrite Hnil in M. destruct new; [|done]. by rewrite Hres. }
  split; [exact Hscored|]. split; [exact Hnone|].
  intros f Hf.
  assert (f ∈ map Processor.ni_id (Processor.fetch_unprocessed_news st') ↔
          Processor.last_news_id st' < f) as Hfetch.
  { rewrite fetch_ids. rewrite U, ND, A1, Hup.
    assert (f ∈ map Processor.ni_id (Processor.fetch_unprocessed_news st)) as Hfetched
      by (apply I; by right).
    apply fetch_ids in Hfetched as (_ & Hrow & _). tauto. }
  assert (Processor.last_news_id st' < f → Processor.last_processed_id st' < f) as Hcursor.
  { intros Hgt. rewrite LP.
    destruct (Processor.scored_ids evs) as [|x l] eqn:Hs.
    - rewrite (E eq_refl). by apply F.
    - assert (x :: l ≠ []) as Hne by done.
      destruct (Hscored Hne) as (_ & Hmax & _).
      specialize (Hmax _ (N Hne)). lia. }
  split; [exact Hfetch|]. split; [exact Hcursor|].
  intros batch_size' now' utc_now' signals' st''. split.
  - intros Hatt. apply Hfetch.
    destruct (iteration_cases batch_size' now' utc_now' signals' st')
      as [Hsame|(st2 & results2 & Hphase2 & Hsave2)];
      [fold st'' in Hsame | fold st'' in Hsave2].
    { rewrite Hsame, processor_new_events_same in Hatt. by apply elem_of_nil in Hatt. }
    destruct Hphase2 as (_ & _ & _ & _ & _ & _ & evs2 & new2 & L2 & _ & _ & _ & _ & I2 & _).
    pose proof (save_results_fields now' utc_now' st2 results2) as (_ & _ & _ & LG2 & _).
    rewrite <- Hsave2 in LG2.
    rewrite (processor_new_events_app st' st'' evs2) in Hatt by (by rewrite LG2).
    apply I2. by apply attempt_ids_split.
  - intros Hgt Hb Hquiet Hsd Hp.
    apply iteration_attempts; [exact Hb | exact Hquiet | exact Hsd | exact Hp | | ].
    + by apply Hfetch.
    + by apply Hcursor.
Qed.
End StreamProcessor.

Lemma C2_checkpoint_after_run_witness :
  let st := Sample.fresh in
  let st' := Processor.process_iteration Sample.fails_third_call 10
               "2024-03-01 10:00:00" "2024-03-01 09:00:00" [] st in
  let st'' := Processor.process_iteration Sample.fails_third_call 10
                "2024-03-01 10:01:00" "2024-03-01 09:01:00" [] st' in
  db_up (Processor.db st) = true ∧
  Processor.scored_ids (Processor.new_events st st') ≠ [] ∧
  3 ∈ Processor.failed_ids (Processor.new_events st st') ∧
  Processor.last_news_id st' ∈ Processor.scored_ids (Processor.new_events st st') ∧
  Processor.last_news_id st' < 3 ∧
  3 ∈ map Processor.ni_id (Processor.fetch_unprocessed_news st') ∧
  3 ∈ map Processor.attempt_id (Processor.new_events st' st'').
Proof.
  intros st st' st''.
  assert (db_up (Processor.db st) = true) as Hup by reflexivity.
  assert (Processor.scored_ids (Processor.new_events st st') ≠ []) as Hscored
    by (vm_compute; discriminate).
  assert (3 ∈ Processor.failed_ids (Processor.new_events st st')) as Hfailed
    by (vm_compute; left).
  assert (Processor.last_news_id st' < 3) as Hgt by (vm_compute; reflexivity).
  destruct (C2_checkpoint_after_run Sample.fails_third_call 10
              "2024-03-01 10:00:00" "2024-03-01 09:00:00" [] st Hup)
    as (Hmax & _ & Hretry).
  destruct (Hmax Hscored) as (Hin & _ & _).
  destruct (Hretry 3 Hfailed) as (Hiff & _ & Hnext).
  destruct (Hnext 10 "2024-03-01 10:01:00" "2024-03-01 09:01:00" []) as [_ Hagain].
  split; [exact Hup|]. split; [exact Hscored|]. split; [exact Hfailed|].
  split; [exact Hin|]. split; [exact Hgt|]. split; [by apply Hiff|].
  apply Hagain; [exact Hgt | lia | | reflexivity | reflexivity].
  intros s Hs. by apply elem_of_nil in Hs.
Defined.

(** C2, as stated, fails: with three unscored items and a classifier that
    fails on the second one only, the run scores items 1 and 3, advances
    the checkpoint to 3, past the failed item 2, and neither fetches nor
    attempts item 2 in the next run. *)
Lemma C2_counterexample :
  let st1 := Processor.process_iteration Sample.fails_on_second 10
               "2024-03-01 10:00:00" "2024-03-01 09:00:00" [] Sample.fresh in
  let st2 := Processor.process_iteration Sample.never_fails 10
               "2024-03-01 10:01:00" "2024-03-01 09:01:00" [] st1 in
  Processor.new_events Sample.fresh st1 =
    [Processor.Scored 1; Processor.ScoringFailed 2; Processor.Scored 3] ∧
  Processor.last_news_id st1 = 3 ∧
  Processor.persisted_last_news_id st1 = 3 ∧
  ¬ (Processor.last_news_id st1 < 2) ∧
  Processor.fetch_unprocessed_news st1 = [] ∧
  Processor.new_events st1 st2 = [].
Proof. vm_compute. repeat split; try reflexivity. discriminate. Qed.

Section CheckpointMonotone.

Variable analyze_text : nat → string → option Processor.Analysis.

(** Closes a monotonicity goal for a step that leaves both checkpoint
    values untouched. *)
Ltac untouched_checkpoint :=
  unfold Processor.persisted_last_news_id; simpl;
  split; [lia|]; split; [lia|]; intros H; split; [lia | exact H].

Lemma iteration_monotone (batch_size : Z) (now utc_now : string)
    (signals : list (option Processor.Signum)) (st : Processor.State) :
  let st' := Processor.process_iteration analyze_text batch_size now utc_now signals st in
  Processor.last_news_id st <= Processor.last_news_id st' ∧
  Processor.last_processed_id st <= Processor.last_processed_id st' ∧
  (Processor.persisted_last_news_id st <= Processor.last_news_id st →
   Processor.persisted_last_news_id st <= Processor.persisted_last_news_id st' ∧
   Processor.persisted_last_news_id st' <= Processor.last_news_id st').
Proof.
  intros st'.
  destruct (iteration_cases analyze_text batch_size now utc_now signals st)
    as [Hsame|(st1 & results & Hphase & Hsave)]; [fold st' in Hsame | fold st' in Hsave].
  { rewrite Hsame. split; [lia|]. split; [lia|]. intros H. split; [lia | exact H]. }
  destruct Hphase as (A1 & A2 & A3 & A4 & A5 & A6 & evs & new & L & R & M & S & F & I & E & N).
  pose proof (save_results_fields now utc_now st1 results) as Hfields.
  rewrite <- Hsave in Hfields. simpl in Hfields.
  destruct Hfields as (U & ND & LP & LG & FS & Hres).
  assert (Processor.persisted_last_news_id st1 = Processor.persisted_last_news_id st) as P1
    by (unfold Processor.persisted_last_news_id; by rewrite A4).
  split; [|split; [lia|]].
  - destruct results as [|r rest]; [rewrite Hres; lia|].
    destruct (db_up (Processor.db st1)); [|rewrite Hres; lia].
    destruct Hres as (Hlast & _).
    destruct (max_id_spec r rest) as [Hin _].
    simpl in R. rewrite R, M in Hin.
    assert (Processor.max_id r rest ∈
            map Processor.ni_id (Processor.fetch_unprocessed_news st)) as Hf
      by (apply I; by left).
    apply fetch_ids in Hf as (_ & _ & Hgt). lia.
  - intros Hinv.
    destruct results as [|r rest]; [rewrite Hres; lia|].
    destruct (db_up (Processor.db st1)); [|rewrite Hres; lia].
    destruct Hres as (Hlast & Hw & Hnw).
    destruct (max_id_spec r rest) as [Hin _].
    simpl in R. rewrite R, M in Hin.
    assert (Processor.max_id r rest ∈
            map Processor.ni_id (Processor.fetch_unprocessed_news st)) as Hf
      by (apply I; by left).
    apply fetch_ids in Hf as (_ & _ & Hgt).
    destruct (Processor.fs_up st1) eqn:Hfs.
    + rewrite (Hw eq_refl), Hlast. lia.
    + rewrite (Hnw eq_refl), Hlast, P1. lia.
Qed.

Lemma step_monotone (op : Processor.Op) (st : Processor.State) :
  let st' := Processor.step analyze_text op st in
  Processor.last_news_id st <= Processor.last_news_id st' ∧
  Processor.last_processed_id st <= Processor.last_processed_id st' ∧
  (Processor.persisted_last_news_id st <= Processor.last_news_id st →
   Processor.persisted_last_news_id st <= Processor.persisted_last_news_id st' ∧
   Processor.persisted_last_news_id st' <= Processor.last_news_id st').
Proof.
  destruct op as [batch_size now utc_now signals| | | |s|f|b]; simpl.
  - apply iteration_monotone.
  - untouched_checkpoint.
  - untouched_checkpoint.
  - unfold Processor.shutdown.
    match goal with |- context [Processor._save_checkpoint ?s] =>
      destruct (save_checkpoint_fields s) as (H1 & H2 & H3 & H4 & H5 & H6 & H7) end.
    simpl in *. rewrite H2, H3.
    split; [lia|]. split; [lia|]. intros H.
    destruct (Processor.fs_up st).
    + rewrite (H6 eq_refl). lia.
    + rewrite (H7 eq_refl). unfold Processor.persisted_last_news_id in *. simpl. lia.
  - destruct s; untouched_checkpoint.
  - untouched_checkpoint.
  - untouched_checkpoint.
Qed.

Lemma run_monotone (ops : list Processor.Op) :
  ∀ st, let st' := Processor.run analyze_text ops st in
    Processor.last_news_id st <= Processor.last_news_id st' ∧
    Processor.last_processed_id st <= Processor.last_processed_id st' ∧
    (Processor.persisted_last_news_id st <= Processor.last_news_id st →
     Processor.persisted_last_news_id st <= Processor.persisted_last_news_id st' ∧
     Processor.persisted_last_news_id st' <= Processor.last_news_id st').
Proof.
  induction ops as [|op ops IH]; intros st; simpl.
  { split; [lia|]. split; [lia|]. intros H. split; [lia | exact H]. }
  destruct (step_monotone op st) as (H1 & H2 & H3).
  destruct (IH (Processor.step analyze_text op st)) as (K1 & K2 & K3).
  unfold Processor.run in *. simpl in *.
  split; [lia|]. split; [lia|]. intros H.
  destruct (H3 H) as [H4 H5]. destruct (K3 H5) as [K4 K5]. lia.
Qed.

Lemma run_app (ops1 ops2 : list Processor.Op) (st : Processor.State) :
  Processor.run analyze_text (ops1 ++ ops2) st =
  Processor.run analyze_text ops2 (Processor.run analyze_text ops1 st).
Proof. unfold Processor.run. apply fold_left_app. Qed.

(** C5. Whatever the processor goes through in one lifetime (turns of
    its loop with any signals arriving, pause, resume, shutdown, signals
    between turns, changes made to the store by others, the store or the
    checkpoint directory going away and coming back), its checkpoint
    never decreases: the value in memory after any further operations is
    at least the value before them, the same holds for the analyzer's
    cursor, and, from start-up on, for the value held by the checkpoint
    file, which never exceeds the value in memory. *)
Theorem C5_checkpoint_never_decreases :
  (∀ ops st,
      Processor.last_news_id st <= Processor.last_news_id (Processor.run analyze_text ops st) ∧
      Processor.last_processed_id st <=
        Processor.last_processed_id (Processor.run analyze_text ops st)) ∧
  (∀ op st,
      Processor.last_news_id st <= Processor.last_news_id (Processor.step analyze_text op st)) ∧
  (∀ d sentiment_file processor_file ops1 ops2,
      let st1 := Processor.run analyze_text ops1
                   (Processor.startup d sentiment_file processor_file) in
      let st2 := Processor.run analyze_text (ops1 ++ ops2)
                   (Processor.startup d sentiment_file processor_file) in
      Processor.last_news_id st1 <= Processor.last_news_id st2 ∧
      Processor.persisted_last_news_id st1 <= Processor.persisted_last_news_id st2 ∧
      Processor.persisted_last_news_id st2 <= Processor.last_news_id st2).
Proof.
  split; [|split].
  - intros ops st. destruct (run_monotone ops st) as (H1 & H2 & _). done.
  - intros op st. by destruct (step_monotone op st) as (H1 & _).
  - intros d sf pf ops1 ops2 st1 st2.
    subst st2. rewrite run_app. fold st1.
    assert (Processor.persisted_last_news_id st1 <= Processor.last_news_id st1) as Hinv.
    { destruct (run_monotone ops1 (Processor.startup d sf pf)) as (_ & _ & H3).
      apply H3. unfold Processor.persisted_last_news_id, Processor.startup. simpl. lia. }
    destruct (run_monotone ops2 st1) as (H1 & _ & H3).
    destruct (H3 Hinv) as [H4 H5]. done.
Qed.

End CheckpointMonotone.

Lemma C5_checkpoint_never_decreases_witness :
  let ops := [Processor.Iterate 10 "2024-03-01 10:00:00" "2024-03-01 09:00:00" [Some Processor.SIGINT];
              Processor.Resume;
              Processor.Iterate 10 "2024-03-01 10:01:00" "2024-03-01 09:01:00" [];
              Processor.Shutdown] in
  Processor.last_news_id Sample.fresh <=
    Processor.last_news_id (Processor.run Sample.fails_on_second ops Sample.fresh) ∧
  Processor.last_news_id (Processor.run Sample.fails_on_second ops Sample.fresh) = 3.
Proof.
  intros ops. split.
  - apply (proj1 (C5_checkpoint_never_decreases Sample.fails_on_second)).
  - vm_compute. reflexivity.
Defined.

(** ** Notification gate *)

Lemma quiet_hours_window (c : Notify.Config) (now s e : Notify.Time) :
  Notify.quiet_hours_enabled c = true →
  Notify.strptime_HM (Notify.quiet_hours_start c) = Some s →
  Notify.strptime_HM (Notify.quiet_hours_end c) = Some e →
  Notify._is_in_quiet_hours c now =
  Some (if Notify.time_gt s e then Notify.time_ge now s || Notify.time_le now e
        else Notify.time_le s now && Notify.time_le now e).
Proof.
  intros Hen Hs He. unfold Notify._is_in_quiet_hours.
  rewrite Hen, Hs, He. simpl. by destruct (Notify.time_gt s e).
Qed.

Lemma quiet_hours_hold_back (w : Notify.Outside) (sg : Notify.Signal) (st : Notify.State) :
  Notify._is_in_quiet_hours (Notify.config st) (Notify.time (Notify.now w)) = Some true →
  Notify.send_signal w sg st = (Notify.add_log (Notify.QuietHours (Notify.sg_id sg)) st, Some false).
Proof. intros H. unfold Notify.send_signal. by rewrite H. Qed.

(** C4, as the code has it.  With quiet hours enabled and a readable
    window, a delivery is held back exactly when the current time lies in
    the window: for a window that wraps midnight ([start > end]) when
    [now >= start] or [now <= end]; for any other window when
    [start <= now <= end], both ends included, so a time equal to [end] is
    held back too.  A held-back signal makes [send_signal] return [False]
    without sending.  For the window 22:00-07:30, 23:00 and 06:00 are held
    back while 08:00 and 21:59 are not. *)
Theorem C4_quiet_hours_window :
  (∀ c now s e,
      Notify.quiet_hours_enabled c = true →
      Notify.strptime_HM (Notify.quiet_hours_start c) = Some s →
      Notify.strptime_HM (Notify.quiet_hours_end c) = Some e →
      Notify._is_in_quiet_hours c now =
      Some (if Notify.time_gt s e then Notify.time_ge now s || Notify.time_le now e
            else Notify.time_le s now && Notify.time_le now e)) ∧
  (∀ w sg st,
      Notify._is_in_quiet_hours (Notify.config st) (Notify.time (Notify.now w)) = Some true →
      Notify.send_signal w sg st =
      (Notify.add_log (Notify.QuietHours (Notify.sg_id sg)) st, Some false)) ∧
  Notify._is_in_quiet_hours Notify.default_config (Sample.at_time 23 0) = Some true ∧
  Notify._is_in_quiet_hours Notify.default_config (Sample.at_time 6 0) = Some true ∧
  Notify._is_in_quiet_hours Notify.default_config (Sample.at_time 8 0) = Some false ∧
  Notify._is_in_quiet_hours Notify.default_config (Sample.at_time 21 59) = Some false.
Proof.
  split; [exact quiet_hours_window|].
  split; [exact quiet_hours_hold_back|].
  repeat split; reflexivity.
Qed.

Lemma C4_quiet_hours_window_witness :
  Notify.quiet_hours_enabled Sample.office_hours = true ∧
  Notify.strptime_HM (Notify.quiet_hours_start Sample.office_hours) = Some (Sample.at_time 9 0) ∧
  Notify.strptime_HM (Notify.quiet_hours_end Sample.office_hours) = Some (Sample.at_time 17 0) ∧
  Notify._is_in_quiet_hours Sample.office_hours (Sample.at_time 12 0) = Some true ∧
  Notify.send_signal (Sample.outside Sample.tuesday true 1)
    {| Notify.sg_id := 1; Notify.sg_symbol := "AAPL";
       Notify.sg_timestamp := "2024-03-02 10:00:00"; Notify.sg_signal_type := "BUY";
       Notify.sg_confidence := 0.85%Q; Notify.sg_close_price := Some 180%Q;
       Notify.sg_reason := "Technische Indikatoren" |}
    (Sample.gate Sample.office_hours) =
  (Notify.add_log (Notify.QuietHours 1) (Sample.gate Sample.office_hours), Some false).
Proof.
  split; [reflexivity|]. split; [reflexivity|]. split; [reflexivity|].
  split.
  - apply (proj1 C4_quiet_hours_window Sample.office_hours (Sample.at_time 12 0)
             (Sample.at_time 9 0) (Sample.at_time 17 0)); reflexivity.
  - apply (proj1 (proj2 C4_quiet_hours_window)). reflexivity.
Defined.

(** C4, as stated, fails: for the window 09:00-17:00, which does not wrap
    midnight, the time 17:00 equals the end of the window and is outside
    the half-open window of the specification, but the code holds the
    delivery back. *)
Lemma C4_counterexample :
  Notify.quiet_hours_enabled Sample.office_hours = true ∧
  Notify.strptime_HM (Notify.quiet_hours_start Sample.office_hours) = Some (Sample.at_time 9 0) ∧
  Notify.strptime_HM (Notify.quiet_hours_end Sample.office_hours) = Some (Sample.at_time 17 0) ∧
  quiet_window_spec (Sample.at_time 9 0) (Sample.at_time 17 0) (Sample.at_time 17 0) = false ∧
  Notify._is_in_quiet_hours Sample.office_hours (Sample.at_time 17 0) = Some true ∧
  Notify._is_in_quiet_hours Sample.office_hours (Sample.at_time 17 0) ≠
  Some (quiet_window_spec (Sample.at_time 9 0) (Sample.at_time 17 0) (Sample.at_time 17 0)).
Proof. repeat split; try reflexivity. discriminate. Qed.

Lemma suppressed_policy (c c' : Notify.Config) (m : Notify.Moment) :
  Notify.policy c = Notify.policy c' → Notify.suppressed c m → Notify.suppressed c' m.
Proof.
  unfold Notify.policy, Notify.suppressed, Notify._is_in_quiet_hours, Notify._is_weekend.
  intros [= H1 H2 H3 H4 H5]. by rewrite H1, H2, H3, H4, H5.
Qed.

Lemma window_readable_policy (c c' : Notify.Config) :
  Notify.policy c = Notify.policy c' → Notify.window_readable c → Notify.window_readable c'.
Proof.
  unfold Notify.policy, Notify.window_readable.
  intros [= H1 H2 H3 _ _]. by rewrite H1, H2, H3.
Qed.

Lemma window_readable_some (c : Notify.Config) (t : Notify.Time) :
  Notify.window_readable c → is_Some (Notify._is_in_quiet_hours c t).
Proof.
  unfold Notify.window_readable, Notify._is_in_quiet_hours.
  intros [->|[[s ->] [e ->]]]; simpl; [eauto|].
  destruct (Notify.quiet_hours_enabled c); simpl; [|eauto].
  destruct (Notify.time_gt s e); eauto.
Qed.

(** The four ways [send_signal] can end. *)
Lemma send_signal_cases (w : Notify.Outside) (sg : Notify.Signal) (st : Notify.State) :
  (Notify.send_signal w sg st = (st, None) ∧
   (Notify._is_in_quiet_hours (Notify.config st) (Notify.time (Notify.now w)) = None ∨
    (¬ Notify.suppressed (Notify.config st) (Notify.now w) ∧
     Notify.sg_close_price sg = None))) ∨
  (∃ e, Notify.send_signal w sg st = (Notify.add_log e st, Some false) ∧
        Notify.event_id e = Notify.sg_id sg ∧ Notify.sent_ids [e] = [] ∧
        (Notify.suppressed (Notify.config st) (Notify.now w) ∨ Notify.transport_ok w = false)) ∨
  (Notify.send_signal w sg st = (Notify.delivered w sg st, Some true) ∧
   Notify.transport_ok w = true ∧
   ¬ Notify.suppressed (Notify.config st) (Notify.now w)).
Proof.
  unfold Notify.send_signal, Notify.suppressed, Notify._format_signal_message.
  destruct (Notify._is_in_quiet_hours _ _) as [[|]|] eqn:Hq.
  - right. left. eexists. repeat split; eauto.
  - destruct (_ && _) eqn:Hw.
    + right. left. eexists. repeat split; eauto.
    + destruct (Notify.sg_close_price sg) as [price|] eqn:Hprice.
      * destruct (Notify.transport_ok w) eqn:Ht.
        -- right. right. repeat split. intros [?|?]; congruence.
        -- right. left. eexists. repeat split; eauto.
      * left. split; [done|]. right. split; [|done]. intros [?|?]; congruence.
  - left. split; [done|]. by left.
Qed.

Lemma mark_lookup (accepted : bool) (i j : Z) (d : Database) :
  trading_signals (Notify.mark_as_notified accepted i d) !! j = trading_signals d !! j ∨
  (j = i ∧ trading_signals (Notify.mark_as_notified accepted i d) !! j =
           Notify.mark_row <$> trading_signals d !! j).
Proof.
  unfold Notify.mark_as_notified. destruct (db_up d && accepted); [|by left]. simpl.
  destruct (decide (j = i)) as [->|Hne].
  - right. split; [done|]. by rewrite lookup_alter_eq.
  - left. by rewrite lookup_alter_ne.
Qed.

Lemma mark_db_up (accepted : bool) (i : Z) (d : Database) :
  db_up (Notify.mark_as_notified accepted i d) = db_up d.
Proof. unfold Notify.mark_as_notified. by destruct (db_up d && accepted). Qed.

Lemma mark_row_twice (o : option SignalRow) :
  Notify.mark_row <$> (Notify.mark_row <$> o) = Notify.mark_row <$> o.
Proof. by destruct o. Qed.

(** What the loop of [send_notifications] does to the state. *)
Lemma notify_each_spec (world : Z → Notify.Outside) (signals : list Notify.Signal) :
  ∀ st, let st' := Notify.notify_each world signals st in
    Notify.policy (Notify.config st') = Notify.policy (Notify.config st) ∧
    db_up (Notify.db st') = db_up (Notify.db st) ∧
    ∃ evs sent,
      Notify.log st' = (Notify.log st ++ evs)%list ∧
      Notify.outbox st' = (Notify.outbox st ++ sent)%list ∧
      map Notify.sg_id sent = Notify.sent_ids evs ∧
      (∀ j, j ∈ map Notify.event_id evs → j ∈ map Notify.sg_id signals) ∧
      (∀ j, j ∈ Notify.sent_ids evs →
            Notify.transport_ok (world j) = true ∧
            ¬ Notify.suppressed (Notify.config st) (Notify.now (world j))) ∧
      (∀ i, trading_signals (Notify.db st') !! i = trading_signals (Notify.db st) !! i ∨
            (i ∈ Notify.sent_ids evs ∧
             trading_signals (Notify.db st') !! i =
             Notify.mark_row <$> trading_signals (Notify.db st) !! i)) ∧
      (Notify.window_readable (Notify.config st) →
       (∀ x, x ∈ signals → is_Some (Notify.sg_close_price x)) →
       ∀ j, j ∈ map Notify.sg_id signals → j ∈ map Notify.event_id evs).
Proof.
  induction signals as [|sg rest IH]; intros st; simpl.
  { split; [done|]. split; [done|]. exists [], []. rewrite !app_nil_r.
    split; [done|]. split; [done|]. split; [done|].
    split; [done|].
    split; [intros j Hj; inversion Hj|].
    split; [by left | done]. }
  destruct (send_signal_cases (world (Notify.sg_id sg)) sg st)
    as [[-> Hq]|[(e & -> & He & Hns & Hwhy)|(-> & Hok & Hnot)]].
  - split; [done|]. split; [done|]. exists [], []. rewrite !app_nil_r.
    split; [done|]. split; [done|]. split; [done|].
    split; [intros j Hj; inversion Hj|].
    split; [intros j Hj; inversion Hj|].
    split; [by left|].
    intros Hr Hprice.
    destruct Hq as [Hq|[_ Hq]].
    + destruct (window_readable_some _
                  (Notify.time (Notify.now (world (Notify.sg_id sg)))) Hr).
      congruence.
    + destruct (Hprice sg ltac:(by left)). congruence.
  - specialize (IH (Notify.add_log e st)).
    destruct IH as (Hpol & Hup & evs & sent & Hlog & Hout & Hids & Hev & Hsent & Hlk & Hall).
    split; [exact Hpol|]. split; [exact Hup|].
    exists (e :: evs), sent. simpl in Hlog, Hout.
    split; [by rewrite Hlog, <- app_assoc|].
    split; [exact Hout|].
    assert (Notify.sent_ids (e :: evs) = Notify.sent_ids evs) as Hse.
    { change (e :: evs) with ([e] ++ evs)%list. unfold Notify.sent_ids in *.
      by rewrite omap_app, Hns. }
    rewrite Hse.
    split; [exact Hids|].
    split.
    { intros j Hj. simpl in Hj. apply elem_of_cons in Hj as [->|Hj].
      - rewrite He. by left.
      - right. by apply Hev. }
    split; [exact Hsent|].
    split; [exact Hlk|].
    intros Hr Hprice j Hj. simpl. apply elem_of_cons in Hj as [->|Hj].
    + rewrite He. by left.
    + right. apply Hall; [done| |done]. intros x Hx. apply Hprice. by right.
  - set (w := world (Notify.sg_id sg)) in *.
    set (st1 := Notify.set_db _ _).
    specialize (IH st1).
    destruct IH as (Hpol & Hup & evs & sent & Hlog & Hout & Hids & Hev & Hsent & Hlk & Hall).
    assert (Notify.policy (Notify.config st1) = Notify.policy (Notify.config st)) as Hpol1 by done.
    split; [by rewrite Hpol|].
    split; [by rewrite Hup; subst st1; simpl; rewrite mark_db_up|].
    exists (Notify.Sent (Notify.sg_id sg) :: evs), (sg :: sent).
    split; [by rewrite Hlog; subst st1; simpl; rewrite <- app_assoc|].
    split; [by rewrite Hout; subst st1; simpl; rewrite <- app_assoc|].
    split; [by simpl; rewrite Hids|].
    split.
    { intros j Hj. simpl in Hj. apply elem_of_cons in Hj as [->|Hj]; [by left|].
      right. by apply Hev. }
    split.
    { intros j Hj. simpl in Hj. apply elem_of_cons in Hj as [->|Hj]; [done|].
      destruct (Hsent j Hj) as [H1 H2]. split; [exact H1|].
      intros Hs. apply H2. eapply suppressed_policy; [|exact Hs]. by rewrite Hpol1. }
    split.
    { intros i. simpl.
      destruct (Hlk i) as [Hsame|[Hin Hmark]];
        destruct (mark_lookup (Notify.store_ok w) (Notify.sg_id sg) i (Notify.db st))
          as [Hm|[-> Hm]]; subst st1; simpl in *.
      - left. by rewrite Hsame.
      - right. split; [by left|]. by rewrite Hsame.
      - right. split; [by right|]. by rewrite Hmark, Hm.
      - right. split; [by left|]. by rewrite Hmark, Hm, mark_row_twice. }
    intros Hr Hprice j Hj. simpl. apply elem_of_cons in Hj as [->|Hj]; [by left|].
    right. apply Hall; [| |exact Hj].
    + eapply window_readable_policy; [|exact Hr]. by rewrite Hpol1.
    + intros x Hx. apply Hprice. by right.
Qed.

Lemma unnotified_elem (d : Database) (i : Z) :
  db_up d = true →
  i ∈ map Notify.sg_id (Notify.get_unnotified_signals d) ↔
  ∃ row, trading_signals d !! i = Some row ∧ ts_notified row = false.
Proof.
  intros Hup. unfold Notify.get_unnotified_signals. rewrite Hup.
  rewrite map_map. unfold order_by_timestamp_desc.
  rewrite list_elem_of_fmap. split.
  - intros ([j r] & -> & Hin). simpl.
    rewrite merge_sort_Permutation in Hin.
    apply list_elem_of_In, filter_In in Hin as [Hin Hn].
    apply list_elem_of_In, elem_of_map_to_list in Hin.
    exists r. split; [exact Hin|]. simpl in Hn. by destruct (ts_notified r).
  - intros (row & Hrow & Hn). exists (i, row). split; [done|].
    rewrite merge_sort_Permutation.
    apply list_elem_of_In, filter_In. split.
    + by apply list_elem_of_In, elem_of_map_to_list.
    + simpl. by rewrite Hn.
Qed.

Lemma unnotified_row (d : Database) (x : Notify.Signal) :
  x ∈ Notify.get_unnotified_signals d →
  ∃ row, trading_signals d !! Notify.sg_id x = Some row ∧ ts_notified row = false ∧
         Notify.sg_close_price x = ts_close_price row.
Proof.
  unfold Notify.get_unnotified_signals. destruct (db_up d); [|intros H; by apply elem_of_nil in H].
  intros Hin. apply list_elem_of_fmap in Hin as ([j r] & -> & Hin). simpl.
  unfold order_by_timestamp_desc in Hin. rewrite merge_sort_Permutation in Hin.
  apply list_elem_of_In, filter_In in Hin as [Hin Hn].
  apply list_elem_of_In, elem_of_map_to_list in Hin.
  exists r. split; [exact Hin|]. simpl in Hn. split; [by destruct (ts_notified r) | done].
Qed.

(** A job leaves the close price of every signal that is still
    un-notified as it found it. *)
Lemma unnotified_priced (d : Database) (x : Notify.Signal) :
  prices_known d → x ∈ Notify.get_unnotified_signals d → is_Some (Notify.sg_close_price x).
Proof.
  intros Hprice Hx. apply unnotified_row in Hx as (r & Hr & Hn & ->). by eapply Hprice.
Qed.

Lemma unnotified_prices_kept (world : Z → Notify.Outside) (signals : list Notify.Signal)
    (st : Notify.State) :
  prices_known (Notify.db st) →
  ∀ x, x ∈ Notify.get_unnotified_signals (Notify.db (Notify.notify_each world signals st)) →
       is_Some (Notify.sg_close_price x).
Proof.
  intros Hprice x Hx.
  destruct (notify_each_spec world signals st)
    as (_ & _ & evs & sent & _ & _ & _ & _ & _ & Hlk & _).
  apply unnotified_row in Hx as (r' & Hr' & Hn' & ->).
  destruct (Hlk (Notify.sg_id x)) as [Hsame|[_ Hmark]].
  - rewrite Hsame in Hr'. by eapply Hprice.
  - rewrite Hmark in Hr'.
    destruct (trading_signals (Notify.db st) !! Notify.sg_id x) as [r|]; [|done].
    simpl in Hr'. injection Hr' as <-. done.
Qed.

Lemma prices_known_kept (world : Z → Notify.Outside) (signals : list Notify.Signal)
    (st : Notify.State) :
  prices_known (Notify.db st) →
  prices_known (Notify.db (Notify.notify_each world signals st)).
Proof.
  intros Hprice j r' Hr' Hn'.
  destruct (notify_each_spec world signals st)
    as (_ & _ & evs & sent & _ & _ & _ & _ & _ & Hlk & _).
  destruct (Hlk j) as [Hsame|[_ Hmark]].
  - rewrite Hsame in Hr'. by eapply Hprice.
  - rewrite Hmark in Hr'.
    destruct (trading_signals (Notify.db st) !! j) as [r|]; [|done].
    simpl in Hr'. injection Hr' as <-. done.
Qed.

Lemma new_events_app (st st' : Notify.State) (evs : list Notify.Event) :
  Notify.log st' = (Notify.log st ++ evs)%list → Notify.new_events st st' = evs.
Proof. intros H. unfold Notify.new_events. by rewrite H, drop_app_length. Qed.

(** C6, at a store the code breaks the claim on: two signals wait, and
    the newer one, which the job reads first, has a close price that is
    [NULL].  On Saturday the weekend policy holds both back and both stay
    un-notified.  On Tuesday nothing holds them back and the transport
    works, yet formatting the newer signal raises, which ends the job:
    the older signal is not attempted, no message leaves and its flag
    stays false. *)
Theorem C6_null_close_price_ends_job :
  let st := Scenario.unpriced_gate in
  let st' := Notify.send_notifications (Sample.outside Sample.saturday true) st in
  let st'' := Notify.send_notifications (Sample.outside Sample.tuesday true) st' in
  trading_signals (Notify.db st) !! 1 = Some Sample.pending_row ∧
  ts_notified Sample.pending_row = false ∧
  Notify.suppressed (Notify.config st) Sample.saturday ∧
  Notify.new_events st st' = [Notify.Weekend 2; Notify.Weekend 1] ∧
  Notify.notified (Notify.db st') 1 = Some false ∧
  map Notify.sg_id (Notify.get_unnotified_signals (Notify.db st')) = [2; 1] ∧
  ¬ Notify.suppressed (Notify.config st') Sample.tuesday ∧
  Notify.new_events st' st'' = [] ∧
  Notify.outbox st'' = [] ∧
  Notify.notified (Notify.db st'') 1 = Some false.
Proof.
  cbv zeta. repeat split; try (vm_compute; reflexivity).
  - right. vm_compute. reflexivity.
  - intros [H|H]; vm_compute in H; discriminate.
Qed.

Lemma weekend_suppressed (c : Notify.Config) (m : Notify.Moment) :
  Notify.weekends_enabled c = true →
  Notify.collect_for_monday c = false →
  5 <= Notify.weekday m →
  Notify.suppressed c m.
Proof.
  intros He Hc Hw. right. unfold Notify._is_weekend. rewrite He, Hc. simpl.
  rewrite andb_true_r. apply Z.geb_le. lia.
Qed.

Lemma run_gate_weekend (worlds : list (Z → Notify.Outside)) (i : Z) (row : SignalRow) :
  ∀ st,
    Notify.weekends_enabled (Notify.config st) = true →
    Notify.collect_for_monday (Notify.config st) = false →
    trading_signals (Notify.db st) !! i = Some row →
    (∀ world, world ∈ worlds → 5 <= Notify.weekday (Notify.now (world i))) →
    let st' := Notify.run_gate worlds st in
    trading_signals (Notify.db st') !! i = Some row ∧
    ∃ evs sent,
      Notify.log st' = (Notify.log st ++ evs)%list ∧
      Notify.outbox st' = (Notify.outbox st ++ sent)%list ∧
      (i ∉ Notify.sent_ids evs) ∧
      (i ∉ map Notify.sg_id sent).
Proof.
  induction worlds as [|world rest IH]; intros st He Hc Hrow Hw; simpl.
  { split; [exact Hrow|]. exists [], []. rewrite !app_nil_r.
    split; [done|]. split; [done|]. split; intros H; inversion H. }
  unfold Notify.send_notifications.
  destruct (notify_each_spec world (Notify.get_unnotified_signals (Notify.db st)) st)
    as (Hpol & _ & evs & sent & Hlog & Hout & Hids & _ & Hsent & Hlk & _).
  set (st1 := Notify.notify_each world _ st) in *.
  assert (i ∉ Notify.sent_ids evs) as Hni.
  { intros Hin. destruct (Hsent i Hin) as [_ H2]. apply H2.
    apply weekend_suppressed; [done|done|]. apply Hw. by left. }
  assert (trading_signals (Notify.db st1) !! i = Some row) as Hrow1.
  { destruct (Hlk i) as [->|[Hin _]]; [exact Hrow | contradiction]. }
  unfold Notify.policy in Hpol. injection Hpol as _ _ _ He1 Hc1.
  destruct (IH st1) as (Hfinal & evs' & sent' & Hlog' & Hout' & Hni' & Hns').
  { by rewrite He1. }
  { by rewrite Hc1. }
  { exact Hrow1. }
  { intros w' Hw'. apply Hw. by right. }
  split; [exact Hfinal|].
  exists (evs ++ evs')%list, (sent ++ sent')%list.
  split; [by rewrite Hlog', Hlog, app_assoc|].
  split; [by rewrite Hout', Hout, app_assoc|].
  split.
  - unfold Notify.sent_ids in *. rewrite omap_app, elem_of_app. tauto.
  - rewrite map_app, elem_of_app, Hids. tauto.
Qed.

(** C7. With weekend suppression enabled and [collect_for_monday] off, a
    signal whose delivery is only ever attempted on Saturdays or Sundays
    is not delivered by any of those jobs, and after each of them its
    [notified] flag is still false. *)
Theorem C7_weekend_suppression (worlds : list (Z → Notify.Outside)) (st : Notify.State)
    (i : Z) (row : SignalRow) :
  Notify.weekends_enabled (Notify.config st) = true →
  Notify.collect_for_monday (Notify.config st) = false →
  trading_signals (Notify.db st) !! i = Some row →
  ts_notified row = false →
  (∀ world, world ∈ worlds → 5 <= Notify.weekday (Notify.now (world i))) →
  ∀ k,
    let st' := Notify.run_gate (take k worlds) st in
    Notify.notified (Notify.db st') i = Some false ∧
    (i ∉ Notify.sent_ids (Notify.new_events st st')) ∧
    (∀ sg, sg ∈ drop (length (Notify.outbox st)) (Notify.outbox st') → Notify.sg_id sg ≠ i).
Proof.
  intros He Hc Hrow Hn Hw k st'.
  destruct (run_gate_weekend (take k worlds) i row st He Hc Hrow)
    as (Hfinal & evs & sent & Hlog & Hout & Hni & Hns).
  { intros world Hin. apply Hw. by eapply subseteq_take. }
  fold st' in Hfinal, Hlog, Hout.
  split; [by unfold Notify.notified; rewrite Hfinal; simpl; rewrite Hn|].
  split; [by rewrite (new_events_app st st' evs Hlog)|].
  intros sg Hsg Hid. rewrite Hout, drop_app_length in Hsg.
  apply Hns. rewrite <- Hid. apply list_elem_of_fmap. eauto.
Qed.

Lemma C7_weekend_suppression_witness :
  let st := Sample.gate Sample.weekend_policy in
  let worlds := [Sample.outside Sample.saturday true; Sample.outside Sample.saturday true] in
  Notify.weekends_enabled (Notify.config st) = true ∧
  Notify.collect_for_monday (Notify.config st) = false ∧
  trading_signals (Notify.db st) !! 1 = Some Sample.pending_row ∧
  ts_notified Sample.pending_row = false ∧
  (∀ world, world ∈ worlds → 5 <= Notify.weekday (Notify.now (world 1))) ∧
  Notify.notified (Notify.db (Notify.run_gate (take 2 worlds) st)) 1 = Some false ∧
  (1 ∉ Notify.sent_ids (Notify.new_events st (Notify.run_gate (take 2 worlds) st))).
Proof.
  intros st worlds.
  assert (∀ world, world ∈ worlds → 5 <= Notify.weekday (Notify.now (world 1))) as Hw.
  { intros world Hin. subst worlds. rewrite !elem_of_cons, elem_of_nil in Hin.
    destruct Hin as [->|[->|[]]]; simpl; lia. }
  destruct (C7_weekend_suppression worlds st 1 Sample.pending_row
              eq_refl eq_refl eq_refl eq_refl Hw 2%nat) as (Hflag & Hsent & _).
  split; [reflexivity|]. split; [reflexivity|]. split; [reflexivity|].
  split; [reflexivity|]. split; [exact Hw|]. split; [exact Hflag | exact Hsent].
Defined.

(** ** Process supervisor *)

Lemma check_processes_status (procs : list Monitor.Proc) (status : gmap string Z) :
  Monitor.check_processes procs = Some status →
  status ≠ ∅ ∧
  status !! "data_collector_running" = Monitor.flag (Monitor.is_running "run_collector.py" procs) ∧
  status !! "technical_analyzer_running" =
    Monitor.flag (Monitor.is_running "run_technical_analysis.py" procs) ∧
  status !! "signal_generator_running" =
    Monitor.flag (Monitor.is_running "run_signal_generator.py" procs) ∧
  status !! "notifier_running" = Monitor.flag (Monitor.is_running "run_notifier.py" procs) ∧
  is_Some (Monitor.is_running "run_collector.py" procs) ∧
  is_Some (Monitor.is_running "run_technical_analysis.py" procs) ∧
  is_Some (Monitor.is_running "run_signal_generator.py" procs) ∧
  is_Some (Monitor.is_running "run_notifier.py" procs).
Proof.
  unfold Monitor.check_processes. simpl.
  destruct (Monitor.is_running "run_collector.py" procs) as [b1|]; [|done].
  destruct (Monitor.is_running "run_technical_analysis.py" procs) as [b2|]; [|done].
  destruct (Monitor.is_running "run_signal_generator.py" procs) as [b3|]; [|done].
  destruct (Monitor.is_running "run_notifier.py" procs) as [b4|]; [|done].
  intros [= <-]. simpl.
  split; [apply insert_non_empty|].
  repeat split; eauto; by simplify_map_eq.
Qed.



Lemma save_status_log (w : Monitor.Outside) (st : Monitor.State) :
  Monitor.log (fst (Monitor.save_status w st)) = Monitor.log st.
Proof.
  unfold Monitor.save_status.
  repeat (match goal with
          | |- context [match ?x with _ => _ end] => destruct x
          end; simpl; try done).
Qed.




(** * Further properties *)

(** ** Signal fusion *)

(** X2. A combined signal other than NEUTRAL is the signal of at least
    one input, and neither input contradicts it: each input either
    carries the same signal or is NEUTRAL. *)
Theorem combine_signal_sound (ts : string) (tq : Q) (ss : string) (sq : Q) :
  fst (Fusion.combine ts tq ss sq) ≠ "NEUTRAL" →
  (ts = fst (Fusion.combine ts tq ss sq) ∨ ss = fst (Fusion.combine ts tq ss sq)) ∧
  (ts = fst (Fusion.combine ts tq ss sq) ∨ ts = "NEUTRAL") ∧
  (ss = fst (Fusion.combine ts tq ss sq) ∨ ss = "NEUTRAL").
Proof.
  unfold Fusion.combine. rewrite !eqb_decide.
  destruct (decide (ts = ss)) as [E1|E1];
    destruct (decide (ts = "NEUTRAL")) as [E2|E2];
    destruct (decide (ss = "NEUTRAL")) as [E3|E3];
    try (exfalso; congruence);
    repeat first
      [ rewrite bool_decide_eq_true_2 by assumption
      | rewrite bool_decide_eq_false_2 by assumption ];
    simpl; intros Hne; try done; auto.
Qed.

Lemma combine_signal_sound_witness :
  fst (Fusion.combine "NEUTRAL" 0.5 "SELL" 0.75) ≠ "NEUTRAL" ∧
  ("SELL" = fst (Fusion.combine "NEUTRAL" 0.5 "SELL" 0.75) ∨ "SELL" = "NEUTRAL").
Proof.
  assert (fst (Fusion.combine "NEUTRAL" 0.5 "SELL" 0.75) ≠ "NEUTRAL") as H
    by (vm_compute; discriminate).
  split; [exact H|].
  apply (combine_signal_sound "NEUTRAL" 0.5 "SELL" 0.75 H).
Defined.

(** *** The order of timestamps *)

Lemma ascii_compare_refl (a : ascii) : Ascii.compare a a = Eq.
Proof. unfold Ascii.compare. apply N.compare_refl. Qed.

Lemma ascii_compare_lt_trans (a b c : ascii) :
  Ascii.compare a b = Lt → Ascii.compare b c = Lt → Ascii.compare a c = Lt.
Proof. unfold Ascii.compare. rewrite !N.compare_lt_iff. lia. Qed.

Lemma string_compare_lt_trans (s1 : string) :
  ∀ s2 s3, String.compare s1 s2 = Lt → String.compare s2 s3 = Lt → String.compare s1 s3 = Lt.
Proof.
  induction s1 as [|a s1 IH]; intros [|b s2] [|c s3]; simpl; try done.
  destruct (Ascii.compare a b) eqn:Hab; try done;
    destruct (Ascii.compare b c) eqn:Hbc; try done; intros H1 H2.
  - apply Ascii.compare_eq_iff in Hab, Hbc. subst. rewrite ascii_compare_refl. eauto.
  - apply Ascii.compare_eq_iff in Hab. subst. by rewrite Hbc.
  - apply Ascii.compare_eq_iff in Hbc. subst. by rewrite Hab.
  - by rewrite (ascii_compare_lt_trans a b c).
Qed.

Lemma string_compare_refl (s : string) : String.compare s s = Eq.
Proof. induction s as [|a s IH]; simpl; [done|]. by rewrite ascii_compare_refl. Qed.

Lemma string_leb_trans (s1 s2 s3 : string) :
  String.leb s1 s2 = true → String.leb s2 s3 = true → String.leb s1 s3 = true.
Proof.
  unfold String.leb.
  destruct (String.compare s1 s2) eqn:H12; try done;
    destruct (String.compare s2 s3) eqn:H23; try done; intros _ _.
  - apply String.compare_eq_iff in H12, H23. subst. by rewrite string_compare_refl.
  - apply String.compare_eq_iff in H12. subst. by rewrite H23.
  - apply String.compare_eq_iff in H23. subst. by rewrite H12.
  - by rewrite (string_compare_lt_trans s1 s2 s3).
Qed.

Lemma string_ltb_not_leb (s1 s2 : string) :
  String.ltb s1 s2 = true → String.leb s2 s1 = false.
Proof.
  unfold String.ltb, String.leb. rewrite (String.compare_antisym s2 s1).
  by destruct (String.compare s1 s2).
Qed.

#[local] Instance newer_first_trans {A : Type} (ts : A → string) : Transitive (newer_first ts).
Proof. intros x y z Hxy Hyz. unfold newer_first in *. by eapply string_leb_trans. Qed.

#[local] Instance newer_first_total {A : Type} (ts : A → string) : Total (newer_first ts).
Proof. intros x y. unfold newer_first. destruct (String.leb_total (ts y) (ts x)); auto. Qed.

(** The rows come back newest first, the same rows as before. *)
Lemma order_by_timestamp_desc_sorted {A : Type} (ts : A → string) (rows : list A) :
  StronglySorted (newer_first ts) (order_by_timestamp_desc ts rows) ∧
  order_by_timestamp_desc ts rows ≡ₚ rows.
Proof.
  split; [apply StronglySorted_merge_sort; apply _ | apply merge_sort_Permutation].
Qed.

Lemma newest_first_head {A : Type} (ts : A → string) (rows : list A) (h : A) (rest : list A) :
  order_by_timestamp_desc ts rows = h :: rest →
  h ∈ rows ∧ ∀ x, x ∈ rows → String.leb (ts x) (ts h) = true.
Proof.
  intros Hsort. destruct (order_by_timestamp_desc_sorted ts rows) as [Hs Hp].
  rewrite Hsort in Hs, Hp. split.
  - rewrite <- Hp. by left.
  - intros x Hx. rewrite <- Hp in Hx. apply elem_of_cons in Hx as [->|Hx].
    + unfold String.leb. by rewrite string_compare_refl.
    + apply StronglySorted_inv in Hs as [_ Hall].
      by apply (proj1 (Forall_forall _ _) Hall x).
Qed.

(** X3. The technical analysis the fusion engine reads for a symbol is a
    stored row of that symbol, and no row of the symbol has a later
    timestamp. *)
Theorem latest_technical_is_newest (d : Database) (sym : string) (t : Fusion.Technical) :
  Fusion._get_latest_technical_analysis d sym = Some t →
  ∃ row,
    row ∈ technical_analysis d ∧
    ta_symbol row = sym ∧
    t = {| Fusion.t_symbol := ta_symbol row; Fusion.t_timestamp := ta_timestamp row;
           Fusion.t_close_price := ta_close_price row;
           Fusion.overall_signal := ta_overall_signal row;
           Fusion.signal_strength := ta_signal_strength row |} ∧
    ∀ r, r ∈ technical_analysis d → ta_symbol r = sym →
         String.leb (ta_timestamp r) (ta_timestamp row) = true.
Proof.
  unfold Fusion._get_latest_technical_analysis.
  destruct (db_up d); [|done].
  destruct (order_by_timestamp_desc _ _) as [|row rest] eqn:Hsort; [done|].
  intros [= <-]. exists row.
  apply newest_first_head in Hsort as [Hin Hall].
  apply list_elem_of_In, filter_In in Hin as [Hin Hsym].
  split; [by apply list_elem_of_In|]. split; [by apply String.eqb_eq|]. split; [done|].
  intros r Hr Hrs. apply Hall.
  apply list_elem_of_In, filter_In. split; [by apply list_elem_of_In | by apply String.eqb_eq].
Qed.

Lemma latest_technical_is_newest_witness :
  ∃ row,
    row ∈ technical_analysis Sample.market_db ∧ ta_symbol row = "AAPL" ∧
    ∀ r, r ∈ technical_analysis Sample.market_db → ta_symbol r = "AAPL" →
         String.leb (ta_timestamp r) (ta_timestamp row) = true.
Proof.
  destruct (latest_technical_is_newest Sample.market_db "AAPL"
              {| Fusion.t_symbol := "AAPL"; Fusion.t_timestamp := "2024-03-01 09:10:00";
                 Fusion.t_close_price := Some 180%Q; Fusion.overall_signal := "BUY";
                 Fusion.signal_strength := 0.8%Q |} eq_refl)
    as (row & Hin & Hsym & _ & Hall).
  exists row. split; [exact Hin|]. split; [exact Hsym | exact Hall].
Defined.

Lemma sentiment_join_elem (d : Database) (sym : string) (i : Z) (sr : SentimentRow)
    (nd : NewsRow) :
  (i, sr, nd) ∈ Fusion.sentiment_join d sym ↔
  sentiment_results d !! i = Some sr ∧ sr_symbol sr = sym ∧ news_data d !! i = Some nd.
Proof.
  unfold Fusion.sentiment_join. rewrite list_elem_of_omap. split.
  - intros ([j sr'] & Hin & Hf). apply elem_of_map_to_list in Hin.
    destruct (String.eqb_spec (sr_symbol sr') sym) as [Hs|]; [|done].
    destruct (news_data d !! j) as [nd'|] eqn:Hnd; [|done].
    injection Hf as -> -> ->. done.
  - intros (Hsr & Hs & Hnd). exists (i, sr). split; [by apply elem_of_map_to_list|].
    rewrite (proj2 (String.eqb_eq _ _) Hs), Hnd. done.
Qed.

(** X4. The sentiment of a symbol is aggregated over a window of at most
    five scored news items of that symbol, each with its news row; the
    window is the whole history when that has at most five items, and
    otherwise five items none of which is older than an item left out;
    the headline cited is that of the newest item of the window. *)
Theorem sentiment_window_is_newest (d : Database) (sym : string) (s : Fusion.Sentiment) :
  Fusion._get_latest_sentiment d sym = Some s →
  ∃ window others,
    Fusion.sentiment_join d sym ≡ₚ (window ++ others)%list ∧
    Fusion.aggregate sym window = Some s ∧
    (0 < length window <= 5)%nat ∧
    (others ≠ [] → length window = 5%nat) ∧
    (∀ x y, x ∈ window → y ∈ others →
            String.leb (sr_timestamp (snd (fst y))) (sr_timestamp (snd (fst x))) = true) ∧
    ∃ sr nd,
      (Fusion.latest_news_id s, sr, nd) ∈ window ∧
      Fusion.latest_news_title s = nd_title nd ∧
      Fusion.latest_news_summary s = nd_summary nd ∧
      ∀ x, x ∈ Fusion.sentiment_join d sym →
           String.leb (sr_timestamp (snd (fst x))) (sr_timestamp sr) = true.
Proof.
  unfold Fusion._get_latest_sentiment. destruct (db_up d); [|done].
  set (ts := λ r : Z * SentimentRow * NewsRow, sr_timestamp (snd (fst r))).
  set (sorted := order_by_timestamp_desc ts (Fusion.sentiment_join d sym)).
  intros Hagg.
  destruct (order_by_timestamp_desc_sorted ts (Fusion.sentiment_join d sym)) as [Hs Hp].
  fold sorted in Hs, Hp.
  exists (take 5 sorted), (drop 5 sorted).
  split; [by rewrite take_drop|]. split; [exact Hagg|].
  assert (take 5 sorted ≠ []) as Hne.
  { intros E. rewrite E in Hagg. done. }
  split.
  { split; [destruct (take 5 sorted); [done | simpl; lia]|].
    rewrite length_take. lia. }
  split.
  { intros Hothers. rewrite length_take.
    destruct (decide (5 <= length sorted)%nat) as [|Hshort]; [lia|].
    rewrite drop_ge in Hothers by lia. done. }
  split.
  { intros x y Hx Hy. rewrite <- (take_drop 5 sorted) in Hs.
    assert (∀ l1 l2 : list (Z * SentimentRow * NewsRow),
              StronglySorted (newer_first ts) (l1 ++ l2) →
              ∀ a b, a ∈ l1 → b ∈ l2 → newer_first ts a b) as Hsplit.
    { intros l1. induction l1 as [|h l1 IH]; intros l2 Hss a b Ha Hb.
      - by apply elem_of_nil in Ha.
      - simpl in Hss. apply StronglySorted_inv in Hss as [Hss Hall].
        apply elem_of_cons in Ha as [->|Ha].
        + apply (proj1 (Forall_forall _ _) Hall b). apply elem_of_app. by right.
        + by eapply IH. }
    exact (Hsplit _ _ Hs x y Hx Hy). }
  destruct sorted as [|[[i sr] nd] rest] eqn:Hsorted; [done|].
  exists sr, nd.
  cbn [take] in Hagg. unfold Fusion.aggregate in Hagg. cbv zeta in Hagg.
  apply bind_Some in Hagg as (dom & _ & Hagg).
  apply bind_Some in Hagg as (conf & _ & Hagg).
  injection Hagg as <-. simpl.
  split; [cbn [take]; by left|]. split; [done|]. split; [done|].
  intros x Hx.
  subst sorted. apply newest_first_head in Hsorted as [_ Hall].
  by apply (Hall x).
Qed.

Lemma sentiment_window_is_newest_witness :
  ∃ s window others,
    Fusion._get_latest_sentiment Sample.market_db "AAPL" = Some s ∧
    Fusion.sentiment_join Sample.market_db "AAPL" ≡ₚ (window ++ others)%list ∧
    (0 < length window <= 5)%nat.
Proof.
  eexists.
  assert (Fusion._get_latest_sentiment Sample.market_db "AAPL" = Some _) as H
    by (vm_compute; reflexivity).
  destruct (sentiment_window_is_newest Sample.market_db "AAPL" _ H)
    as (window & others & Hp & _ & Hlen & _).
  exists window, others. split; [exact H|]. split; [exact Hp | exact Hlen].
Defined.

Lemma max_key_from_value {K : Type} (rest : list (K * Q)) :
  ∀ (best : K) (bestv : Q),
    ∃ v, (Py.max_key_from best bestv rest, v) ∈ (best, bestv) :: rest ∧
         ∀ kv, kv ∈ (best, bestv) :: rest → (snd kv <= v)%Q.
Proof.
  induction rest as [|[k v] rest IH]; intros best bestv; simpl.
  - exists bestv. split; [by left|]. intros kv Hkv.
    apply list_elem_of_singleton in Hkv as ->. apply Qle_refl.
  - destruct (Py.gtb v bestv) eqn:Hg.
    + apply gtb_lt in Hg. destruct (IH k v) as (w & Hin & Hmax).
      exists w. split; [by right|]. intros kv Hkv.
      apply elem_of_cons in Hkv as [->|Hkv]; [|by apply Hmax].
      simpl. eapply Qle_trans; [apply Qlt_le_weak, Hg|]. apply (Hmax (k, v)). by left.
    + apply gtb_le in Hg. destruct (IH best bestv) as (w & Hin & Hmax).
      exists w. split.
      * apply elem_of_cons in Hin as [Hin|Hin]; [rewrite Hin; by left | right; by right].
      * intros kv Hkv. apply elem_of_cons in Hkv as [->|Hkv]; [apply Hmax; by left|].
        apply elem_of_cons in Hkv as [->|Hkv]; [|apply Hmax; by right].
        simpl. eapply Qle_trans; [exact Hg|]. apply (Hmax (best, bestv)). by left.
Qed.

Lemma getitem_first (items : list (string * Q)) (k : string) (v w : Q) :
  NoDup (map fst items) → (k, v) ∈ items → Py.getitem items k = Some w → w = v.
Proof.
  induction items as [|[k' v'] items IH]; intros Hnd Hin Hget.
  - by apply elem_of_nil in Hin.
  - simpl in *. apply NoDup_cons in Hnd as [Hk' Hnd].
    destruct (String.eqb_spec k' k) as [->|Hne].
    + injection Hget as <-. apply elem_of_cons in Hin as [[= ->]|Hin]; [done|].
      exfalso. apply Hk'. apply list_elem_of_fmap. by exists (k, v).
    + apply elem_of_cons in Hin as [[= -> ->]|Hin]; [done|]. by apply IH.
Qed.

Lemma latest_sentiment_rows (d : Database) (sym : string) (s : Fusion.Sentiment) :
  Fusion._get_latest_sentiment d sym = Some s →
  ∃ window, Fusion.aggregate sym window = Some s ∧
            ∀ x, x ∈ window → x ∈ Fusion.sentiment_join d sym.
Proof.
  unfold Fusion._get_latest_sentiment. destruct (db_up d); [|done].
  intros Hagg. eexists. split; [exact Hagg|].
  intros x Hx. eapply elem_of_sublist in Hx; [|apply sublist_take].
  unfold order_by_timestamp_desc in Hx. by rewrite merge_sort_Permutation in Hx.
Qed.

(** X5. The strength of the sentiment is the largest of the three class
    averages the aggregation returns, and it is one of them. *)
Theorem sentiment_confidence_is_max (d : Database) (sym : string) (s : Fusion.Sentiment) :
  Fusion._get_latest_sentiment d sym = Some s →
  (Fusion.avg_negative s <= Fusion.confidence s)%Q ∧
  (Fusion.avg_neutral s <= Fusion.confidence s)%Q ∧
  (Fusion.avg_positive s <= Fusion.confidence s)%Q ∧
  (Fusion.confidence s = Fusion.avg_negative s ∨
   Fusion.confidence s = Fusion.avg_neutral s ∨
   Fusion.confidence s = Fusion.avg_positive s).
Proof.
  intros Hs.
  destruct (latest_sentiment_rows d sym s Hs) as (window & Hagg & _).
  unfold Fusion.aggregate in Hagg. destruct window as [|latest rest] eqn:Hw; [done|].
  rewrite <- Hw in *. cbv zeta in Hagg.
  set (n := inject_Z (Z.of_nat (length window))) in *.
  set (neg := (Py.sum (map (λ r, sr_negative_score (snd (fst r))) window) / n)%Q) in *.
  set (neu := (Py.sum (map (λ r, sr_neutral_score (snd (fst r))) window) / n)%Q) in *.
  set (pos := (Py.sum (map (λ r, sr_positive_score (snd (fst r))) window) / n)%Q) in *.
  apply bind_Some in Hagg as (dom & Hdom & Hagg).
  apply bind_Some in Hagg as (conf & Hconf & Hagg).
  injection Hagg as <-. simpl.
  assert (Py.max_key_from "negative" neg [("neutral", neu); ("positive", pos)] = dom)
    as Hdom' by (unfold Fusion.scores_of, Py.max_key in Hdom; congruence).
  destruct (max_key_from_value [("neutral", neu); ("positive", pos)] "negative" neg)
    as (v & Hin & Hmax).
  rewrite Hdom' in Hin.
  assert (conf = v) as ->.
  { eapply getitem_first; [|exact Hin|exact Hconf].
    simpl. apply (bool_decide_unpack _). vm_compute. exact I. }
  assert ((neg <= v)%Q ∧ (neu <= v)%Q ∧ (pos <= v)%Q) as (H1 & H2 & H3).
  { split; [|split].
    - apply (Hmax ("negative", neg)). by left.
    - apply (Hmax ("neutral", neu)). right. by left.
    - apply (Hmax ("positive", pos)). right. right. by left. }
  split; [exact H1|]. split; [exact H2|]. split; [exact H3|].
  rewrite !elem_of_cons, elem_of_nil in Hin.
  destruct Hin as [[= _ ->]|[[= _ ->]|[[= _ ->]|[]]]]; auto.
Qed.

Lemma sentiment_confidence_is_max_witness :
  ∃ s,
    Fusion._get_latest_sentiment Sample.market_db "AAPL" = Some s ∧
    (Fusion.avg_negative s <= Fusion.confidence s)%Q ∧
    (Fusion.avg_neutral s <= Fusion.confidence s)%Q ∧
    (Fusion.avg_positive s <= Fusion.confidence s)%Q.
Proof.
  eexists.
  assert (Fusion._get_latest_sentiment Sample.market_db "AAPL" = Some _) as H
    by (vm_compute; reflexivity).
  split; [exact H|].
  destruct (sentiment_confidence_is_max Sample.market_db "AAPL" _ H) as (H1 & H2 & H3 & _).
  split; [exact H1|]. split; [exact H2 | exact H3].
Defined.

(** X6. An invocation yields at most one signal per occurrence of a
    symbol, in the order of the symbols given, and every signal it yields
    has a confidence of at least the threshold. *)
Theorem generate_signals_shape (d : Database) (thr : Q) (now : string)
    (symbols : list string) :
  map Fusion.symbol (Fusion.generate_signals d thr now symbols) `sublist_of` symbols ∧
  ∀ sg, sg ∈ Fusion.generate_signals d thr now symbols → (thr <= Fusion.sig_confidence sg)%Q.
Proof.
  split.
  - induction symbols as [|sym rest IH]; simpl; [done|].
    destruct (Fusion.generate_signals_body d thr now sym) as [sg|] eqn:Hb.
    + simpl. rewrite (body_symbol _ _ _ _ _ Hb). by apply sublist_skip.
    + by apply sublist_cons.
  - intros sg Hsg. apply generate_signals_elem in Hsg as (sym & _ & Hb).
    unfold Fusion.generate_signals_body in Hb.
    destruct (Fusion._get_latest_technical_analysis d sym); [|done].
    destruct (Fusion.sentiment_input _) as [ssig sstr].
    destruct (Fusion.combine _ _ _ _) as [csig cstr].
    destruct (Py.geb cstr thr) eqn:Hg; [|done].
    injection Hb as <-. simpl. by apply geb_le.
Qed.

(** X7. Raising the threshold only removes signals: the signals
    generated at a higher threshold are among those generated at a lower
    one, in the same order. *)
Theorem generate_signals_threshold_monotone (d : Database) (thr1 thr2 : Q) (now : string)
    (symbols : list string) :
  (thr1 <= thr2)%Q →
  Fusion.generate_signals d thr2 now symbols `sublist_of`
  Fusion.generate_signals d thr1 now symbols.
Proof.
  intros Hle. induction symbols as [|sym rest IH]; simpl; [done|].
  unfold Fusion.generate_signals_body.
  destruct (Fusion._get_latest_technical_analysis d sym) as [t|]; [|exact IH].
  destruct (Fusion.sentiment_input _) as [ssig sstr].
  destruct (Fusion.combine _ _ _ _) as [csig cstr].
  destruct (Py.geb cstr thr2) eqn:H2.
  - apply geb_le in H2.
    rewrite (proj2 (geb_le cstr thr1)) by (eapply Qle_trans; eassumption).
    by apply sublist_skip.
  - destruct (Py.geb cstr thr1); [by apply sublist_cons | exact IH].
Qed.

Lemma generate_signals_threshold_monotone_witness :
  Fusion.generate_signals Sample.market_db 0.8 "2024-03-01 09:30:00" ["AAPL"; "MSFT"]
    `sublist_of`
  Fusion.generate_signals Sample.market_db 0.7 "2024-03-01 09:30:00" ["AAPL"; "MSFT"].
Proof.
  apply (generate_signals_threshold_monotone Sample.market_db 0.7 0.8).
  vm_compute. discriminate.
Defined.

Lemma insert_all_other_tables (sgs : list Fusion.Signal) (d : Database) :
  let d' := fold_left Fusion.insert_signal sgs d in
  db_up d' = db_up d ∧ news_data d' = news_data d ∧
  sentiment_results d' = sentiment_results d ∧
  technical_analysis d' = technical_analysis d ∧
  system_status d' = system_status d.
Proof.
  revert d. induction sgs as [|sg rest IH]; intros d; simpl; [done|].
  destruct (IH (Fusion.insert_signal d sg)) as (H1 & H2 & H3 & H4 & H5).
  simpl in *. done.
Qed.

Lemma save_signals_fresh_rows (d : Database) (sgs : list Fusion.Signal) :
  db_up d = true →
  db_up (Fusion.save_signals d sgs) = true ∧
  ∀ k sg, sgs !! k = Some sg →
          trading_signals (Fusion.save_signals d sgs)
            !! (trading_signals_seq d + 1 + Z.of_nat k) =
          Some (Fusion.signal_row sg).
Proof.
  intros Hup. unfold Fusion.save_signals. destruct sgs as [|sg0 rest] eqn:Hsgs.
  { split; [done|]. intros k sg Hk. done. }
  rewrite <- Hsgs. clear Hsgs sg0 rest. rewrite Hup.
  split; [by rewrite (proj1 (insert_all_other_tables sgs d))|].
  intros k sg Hk. pose proof (lookup_lt_Some _ _ _ Hk).
  rewrite insert_all_lookup, decide_True by lia.
  replace (Z.to_nat _) with k by lia. by rewrite Hk.
Qed.

(** X8. Saving signals never touches a row that is already stored nor any
    other table, keeps the id sequence ahead of the table, and stores the
    k-th signal, un-notified and unverified, under the k-th id after the
    sequence. *)
Theorem save_signals_appends (d : Database) (sgs : list Fusion.Signal) :
  signals_seq_ok d →
  let d' := Fusion.save_signals d sgs in
  signals_seq_ok d' ∧
  (∀ i row, trading_signals d !! i = Some row → trading_signals d' !! i = Some row) ∧
  (db_up d = true →
   trading_signals_seq d' = trading_signals_seq d + Z.of_nat (length sgs) ∧
   ∀ k sg, sgs !! k = Some sg →
           trading_signals d' !! (trading_signals_seq d + 1 + Z.of_nat k) =
           Some (Fusion.signal_row sg)) ∧
  news_data d' = news_data d ∧ sentiment_results d' = sentiment_results d ∧
  technical_analysis d' = technical_analysis d ∧ system_status d' = system_status d.
Proof.
  intros Hok d'. subst d'. unfold Fusion.save_signals.
  destruct sgs as [|sg0 rest] eqn:Hsgs.
  { split; [done|]. split; [done|]. split; [|done].
    intros _. split; [simpl; lia|]. intros k sg Hk. done. }
  rewrite <- Hsgs. clear Hsgs sg0 rest.
  destruct (db_up d) eqn:Hup.
  2: { split; [done|]. split; [done|]. split; [done|]. done. }
  destruct (insert_all_other_tables sgs d) as (_ & H2 & H3 & H4 & H5).
  split.
  { intros i [row Hrow]. rewrite insert_all_seq.
    rewrite insert_all_lookup in Hrow. case_decide as Hr; [lia|].
    assert (i <= trading_signals_seq d) by (apply Hok; eauto). lia. }
  split.
  { intros i row Hrow. rewrite insert_all_lookup.
    rewrite decide_False; [done|].
    assert (i <= trading_signals_seq d) by (apply Hok; eauto). lia. }
  split; [|done].
  intros _. split; [apply insert_all_seq|].
  intros k sg Hk. pose proof (lookup_lt_Some _ _ _ Hk).
  rewrite insert_all_lookup, decide_True by lia.
  replace (Z.to_nat _) with k by lia. by rewrite Hk.
Qed.

Lemma save_signals_appends_witness :
  signals_seq_ok Sample.pending_db ∧
  trading_signals
    (Fusion.save_signals Sample.pending_db
       (Fusion.generate_signals Sample.market_db 0.7 "2024-03-01 09:30:00" ["AAPL"])) !! 1 =
  Some Sample.pending_row.
Proof.
  assert (signals_seq_ok Sample.pending_db) as Hok.
  { intros i [row Hrow]. simpl in *. destruct (decide (i = 1)) as [->|Hne]; [lia|].
    rewrite lookup_insert_ne, lookup_empty in Hrow by done. discriminate. }
  split; [exact Hok|].
  apply (save_signals_appends Sample.pending_db _ Hok). reflexivity.
Defined.

(** X9. With the store reachable, every signal an invocation generates is
    afterwards among the un-notified signals the notification job
    fetches, with its symbol, type, confidence and timestamp. *)
Theorem generated_signals_become_unnotified (d : Database) (thr : Q) (now : string)
    (symbols : list string) (sg : Fusion.Signal) :
  db_up d = true →
  signals_seq_ok d →
  sg ∈ Fusion.generate_signals d thr now symbols →
  ∃ n, n ∈ Notify.get_unnotified_signals (Fusion.generate_signals_job d thr now symbols) ∧
       trading_signals d !! Notify.sg_id n = None ∧
       Notify.sg_symbol n = Fusion.symbol sg ∧
       Notify.sg_signal_type n = Fusion.signal_type sg ∧
       Notify.sg_confidence n = Fusion.sig_confidence sg ∧
       Notify.sg_timestamp n = Fusion.timestamp sg ∧
       Notify.sg_reason n = Fusion.reason sg.
Proof.
  intros Hup Hok Hsg. unfold Fusion.generate_signals_job.
  set (sgs := Fusion.generate_signals d thr now symbols) in *.
  destruct (save_signals_fresh_rows d sgs Hup) as [Hup' Hk].
  apply list_elem_of_lookup_1 in Hsg as [k Hsg].
  specialize (Hk k sg Hsg).
  set (d' := Fusion.save_signals d sgs) in *.
  set (i := trading_signals_seq d + 1 + Z.of_nat k) in *.
  exists {| Notify.sg_id := i; Notify.sg_symbol := Fusion.symbol sg;
            Notify.sg_timestamp := Fusion.timestamp sg;
            Notify.sg_signal_type := Fusion.signal_type sg;
            Notify.sg_confidence := Fusion.sig_confidence sg;
            Notify.sg_close_price := Fusion.close_price sg;
            Notify.sg_reason := Fusion.reason sg |}.
  split; [|split; [|done]].
  - unfold Notify.get_unnotified_signals. rewrite Hup'.
    apply list_elem_of_fmap. exists (i, Fusion.signal_row sg). split; [done|].
    unfold order_by_timestamp_desc. rewrite merge_sort_Permutation.
    apply list_elem_of_In, filter_In. split; [|done].
    by apply list_elem_of_In, elem_of_map_to_list.
  - simpl. destruct (trading_signals d !! i) eqn:E; [|done].
    assert (i <= trading_signals_seq d) by (apply Hok; eauto). lia.
Qed.

Lemma generated_signals_become_unnotified_witness :
  ∃ sg n,
    sg ∈ Fusion.generate_signals Sample.market_db 0.7 "2024-03-01 09:30:00" ["AAPL"] ∧
    n ∈ Notify.get_unnotified_signals
          (Fusion.generate_signals_job Sample.market_db 0.7 "2024-03-01 09:30:00" ["AAPL"]) ∧
    Notify.sg_symbol n = Fusion.symbol sg.
Proof.
  assert (signals_seq_ok Sample.market_db) as Hok.
  { intros i [row Hrow]. simpl in Hrow. rewrite lookup_empty in Hrow. discriminate. }
  eexists.
  assert (_ ∈ Fusion.generate_signals Sample.market_db 0.7 "2024-03-01 09:30:00" ["AAPL"])
    as Hsg by (vm_compute; left).
  destruct (generated_signals_become_unnotified Sample.market_db 0.7
              "2024-03-01 09:30:00" ["AAPL"] _ eq_refl Hok Hsg) as (n & Hn & _ & Hsym & _).
  exists n. split; [exact Hsg|]. split; [exact Hn | exact Hsym].
Defined.

(** ** Technical analyzer *)

(** The seven comparisons the vote depends on. *)
Lemma overall_cases (ind : Technical.Indicators) :
  ∃ b1 b2 b3 b4 b5 b6 b7 : bool,
    Technical.indicator_signals ind =
    [("sma_crossover", if b1 then "BUY" else "SELL");
     ("ema_crossover", if b2 then "BUY" else "SELL");
     ("rsi", if b3 then "BUY" else if b4 then "SELL" else "NEUTRAL");
     ("macd", if b5 then "BUY" else "SELL");
     ("bollinger", if b6 then "SELL" else if b7 then "BUY" else "NEUTRAL")].
Proof. unfold Technical.indicator_signals. by repeat eexists. Qed.

(** X10. The technical vote over the five indicators gives BUY or SELL
    with the share of the winning votes as strength, which is one of 2/5,
    3/5, 4/5 and 1, or NEUTRAL with strength 0.5 when BUY and SELL votes
    are level; the strength is always between 0.4 and 1. *)
Theorem technical_vote_range (ind : Technical.Indicators) :
  let signals := Technical.indicator_signals ind in
  let vote := Technical.overall signals in
  ((fst vote = "NEUTRAL" ∧ snd vote = 0.5%Q ∧
    Technical.count_votes "BUY" signals = Technical.count_votes "SELL" signals) ∨
   ((fst vote = "BUY" ∨ fst vote = "SELL") ∧
    2 <= Technical.count_votes (fst vote) signals <= 5 ∧
    snd vote = (inject_Z (Technical.count_votes (fst vote) signals) / 5)%Q)) ∧
  (0.4 <= snd vote)%Q ∧ (snd vote <= 1)%Q.
Proof.
  intros signals vote. subst vote signals.
  destruct (overall_cases ind) as (b1 & b2 & b3 & b4 & b5 & b6 & b7 & ->).
  destruct b1, b2, b3, b4, b5, b6, b7; vm_compute;
    (split; [first [left; repeat split; congruence
                   |right; repeat split; first [left; reflexivity | right; reflexivity
                                               | discriminate | reflexivity]]
            |split; discriminate]).
Qed.

(** X11. With fewer than 30 bars, or with no market data at all, a symbol
    gets no analysis and the store keeps its rows; otherwise the analysis
    is appended as one row, and when its timestamp is later than every
    stored one of the symbol it is the analysis the fusion engine reads
    from then on. *)
Theorem analysis_reaches_fusion (market : string → option (nat * Technical.Indicators))
    (now sym : string) (d : Database) :
  let d' := Technical.save_analysis_results d (Technical.analyze_symbol market now sym) in
  ((market sym = None ∨ ∃ bars ind, market sym = Some (bars, ind) ∧ (bars < 30)%nat) →
   d' = d) ∧
  (∀ bars ind,
      market sym = Some (bars, ind) → (30 <= bars)%nat → db_up d = true →
      (∀ r, r ∈ technical_analysis d → ta_symbol r = sym →
            String.ltb (ta_timestamp r) now = true) →
      (∃ row, technical_analysis d' = (technical_analysis d ++ [row])%list) ∧
      Fusion._get_latest_technical_analysis d' sym =
      Some {| Fusion.t_symbol := sym; Fusion.t_timestamp := now;
              Fusion.t_close_price := Technical.latest_close ind;
              Fusion.overall_signal :=
                fst (Technical.overall (Technical.indicator_signals ind));
              Fusion.signal_strength :=
                snd (Technical.overall (Technical.indicator_signals ind)) |}).
Proof.
  intros d'. subst d'. split.
  - unfold Technical.analyze_symbol.
    intros [->|(bars & ind & -> & Hlt)]; [done|].
    by rewrite (proj2 (Nat.ltb_lt _ _) Hlt).
  - intros bars ind Hm Hbars Hup Hnew.
    unfold Technical.analyze_symbol. rewrite Hm.
    rewrite (proj2 (Nat.ltb_ge _ _) Hbars).
    destruct (Technical.overall _) as [osig ostr] eqn:Hov.
    unfold Technical.save_analysis_results. rewrite Hup. simpl.
    split; [eauto|].
    unfold Fusion._get_latest_technical_analysis. simpl. rewrite Hup.
    set (new := {| ta_symbol := sym; ta_timestamp := now;
                   ta_close_price := Technical.latest_close ind;
                   ta_overall_signal := osig; ta_signal_strength := ostr |}).
    destruct (order_by_timestamp_desc _ _) as [|h rest] eqn:Hsort.
    { apply merge_sort_nil_inv in Hsort.
      assert (new ∈ List.filter (λ r, String.eqb (ta_symbol r) sym)
                      (technical_analysis d ++ [new])) as Hin.
      { apply list_elem_of_In, filter_In. split.
        - apply list_elem_of_In, elem_of_app. right. by left.
        - simpl. apply String.eqb_refl. }
      rewrite Hsort in Hin. by apply elem_of_nil in Hin. }
    apply newest_first_head in Hsort as [Hh Hall].
    assert (new ∈ List.filter (λ r, String.eqb (ta_symbol r) sym)
                    (technical_analysis d ++ [new])) as Hin.
    { apply list_elem_of_In, filter_In. split.
      - apply list_elem_of_In, elem_of_app. right. by left.
      - simpl. apply String.eqb_refl. }
    apply list_elem_of_In, filter_In in Hh as [Hh Hsym].
    apply list_elem_of_In, elem_of_app in Hh as [Hold|Hnewrow].
    + exfalso. specialize (Hall new Hin). simpl in Hall.
      apply String.eqb_eq in Hsym.
      pose proof (string_ltb_not_leb _ _ (Hnew h Hold Hsym)). congruence.
    + apply list_elem_of_singleton in Hnewrow as ->. done.
Qed.

(** X12. A directional technical vote on a symbol without sentiment
    passes the default confidence threshold exactly when at least four of
    the five indicators voted for it. *)
Theorem technical_only_needs_four_votes (ind : Technical.Indicators) :
  let signals := Technical.indicator_signals ind in
  let vote := Technical.overall signals in
  fst vote ≠ "NEUTRAL" →
  (Fusion.default_confidence_threshold <=
     snd (Fusion.combine (fst vote) (snd vote) "NEUTRAL" 0.5))%Q ↔
  4 <= Technical.count_votes (fst vote) signals.
Proof.
  intros signals vote. subst vote signals.
  destruct (overall_cases ind) as (b1 & b2 & b3 & b4 & b5 & b6 & b7 & ->).
  destruct b1, b2, b3, b4, b5, b6, b7; vm_compute; intros Hne;
    try (exfalso; apply Hne; reflexivity);
    (split; intros H; first [discriminate | exfalso; apply H; reflexivity]).
Qed.

(** ** Checkpointed stream processor, further *)

(** X13. Cutting a list of news items into batches of a positive size
    loses nothing and reorders nothing: the batches, put end to end, are
    the list; and every batch is non-empty and no longer than the batch
    size. *)
Theorem chunks_partition {A : Type} (n : nat) (l : list A) :
  (0 < n)%nat →
  concat (Processor.chunks n l) = l ∧
  Forall (λ c, (0 < length c <= n)%nat) (Processor.chunks n l).
Proof.
  intros Hn. unfold Processor.chunks.
  assert (∀ fuel (k : list A),
            (length k <= fuel)%nat →
            concat (Processor.chunks_fuel fuel n k) = k ∧
            Forall (λ c, (0 < length c <= n)%nat) (Processor.chunks_fuel fuel n k)) as Hgen.
  { induction fuel as [|fuel IH]; intros k Hlen; simpl.
    { destruct k; [done | simpl in Hlen; lia]. }
    destruct k as [|a k]; [done|].
    remember (a :: k) as k' eqn:Hk'.
    destruct (IH (drop n k')) as [Hcat Hall].
    { rewrite length_drop. subst k'. simpl in *. lia. }
    split.
    - simpl. rewrite Hcat. apply take_drop.
    - constructor; [|exact Hall]. rewrite length_take. subst k'. simpl. lia. }
  by apply Hgen.
Qed.

Lemma chunks_partition_witness :
  concat (Processor.chunks 2 [1; 2; 3; 4; 5]) = [1; 2; 3; 4; 5] ∧
  Forall (λ c, (0 < length c <= 2)%nat) (Processor.chunks 2 [1; 2; 3; 4; 5]).
Proof. apply chunks_partition. lia. Defined.

Section StreamProcessorFurther.

Variable analyze_text : nat → string → option Processor.Analysis.

Lemma ascending_phase_refl (st : Processor.State) (results : list Processor.Result)
    (items : list Processor.NewsItem) :
  ascending_phase analyze_text st st results results items.
Proof.
  split; [lia|]. exists [], []. rewrite !app_nil_r. simpl.
  split; [done|]. split; [done|]. split; [done|]. split; [constructor|].
  split; intros x Hx; by apply elem_of_nil in Hx.
Qed.

Lemma strongly_sorted_app (l1 l2 : list Z) (c : Z) :
  StronglySorted Z.lt l1 → StronglySorted Z.lt l2 →
  (∀ i, i ∈ l1 → i <= c) → (∀ i, i ∈ l2 → c < i) →
  StronglySorted Z.lt (l1 ++ l2).
Proof.
  intros H1 H2 Hle Hgt. induction H1 as [|x l1 Hs IH Hall]; simpl; [done|].
  constructor.
  - apply IH. intros i Hi. apply Hle. by right.
  - apply Forall_app. split; [exact Hall|].
    apply Forall_forall. intros y Hy.
    specialize (Hle x ltac:(by left)). specialize (Hgt y Hy). lia.
Qed.

Lemma ascending_phase_trans (st1 st2 st3 : Processor.State)
    (r1 r2 r3 : list Processor.Result) (items1 items2 items : list Processor.NewsItem) :
  ascending_phase analyze_text st1 st2 r1 r2 items1 →
  ascending_phase analyze_text st2 st3 r2 r3 items2 →
  (∀ x, x ∈ items1 → x ∈ items) →
  (∀ x, x ∈ items2 → x ∈ items) →
  ascending_phase analyze_text st1 st3 r1 r3 items.
Proof.
  intros (A & evs1 & new1 & L1 & R1 & M1 & S1 & B1 & I1)
         (B & evs2 & new2 & L2 & R2 & M2 & S2 & B2 & I2) Hsub1 Hsub2.
  split; [lia|].
  exists (evs1 ++ evs2)%list, (new1 ++ new2)%list.
  assert (Processor.scored_ids (evs1 ++ evs2) =
          (Processor.scored_ids evs1 ++ Processor.scored_ids evs2)%list) as Hs
    by apply omap_app.
  rewrite Hs.
  split; [by rewrite L2, L1, app_assoc|].
  split; [by rewrite R2, R1, app_assoc|].
  split; [by rewrite map_app, M1, M2|].
  split.
  { apply (strongly_sorted_app _ _ (Processor.last_processed_id st2)); [done|done| |].
    - intros i Hi. specialize (B1 i Hi). lia.
    - intros i Hi. specialize (B2 i Hi). lia. }
  split.
  { intros i Hi. apply elem_of_app in Hi as [Hi|Hi].
    - specialize (B1 i Hi). lia.
    - specialize (B2 i Hi). lia. }
  intros r Hr. apply elem_of_app in Hr as [Hr|Hr].
  - destruct (I1 r Hr) as (item & call & Hin & Hid & Hsym & Hcall). exists item, call. auto.
  - destruct (I2 r Hr) as (item & call & Hin & Hid & Hsym & Hcall). exists item, call. auto.
Qed.

Lemma process_item_ascending (st : Processor.State) (results : list Processor.Result)
    (item : Processor.NewsItem) :
  ascending_phase analyze_text st (fst (Processor.process_item analyze_text (st, results) item))
    results (snd (Processor.process_item analyze_text (st, results) item)) [item].
Proof.
  unfold Processor.process_item.
  destruct (Z.gtb_spec (Processor.ni_id item) (Processor.last_processed_id st)) as [Hgt|Hle];
    [|apply ascending_phase_refl].
  destruct (analyze_text _ _) as [sentiment|] eqn:Hcall; simpl; split; simpl; try lia.
  - exists [Processor.Scored (Processor.ni_id item)],
           [{| Processor.r_id := Processor.ni_id item;
               Processor.r_symbol := Processor.ni_symbol item;
               Processor.r_sentiment := sentiment |}].
    simpl. split; [done|]. split; [done|]. split; [done|].
    split; [repeat constructor|].
    split; [intros i Hi; apply list_elem_of_singleton in Hi as ->; lia|].
    intros r Hr. apply list_elem_of_singleton in Hr as ->.
    exists item, (Processor.calls st). split; [by left | done].
  - exists [Processor.ScoringFailed (Processor.ni_id item)], []. rewrite app_nil_r.
    simpl. split; [done|]. split; [done|]. split; [done|]. split; [constructor|].
    split; intros x Hx; by apply elem_of_nil in Hx.
Qed.

Lemma process_items_ascending (batch : list Processor.NewsItem) :
  ∀ st results,
    ascending_phase analyze_text st
      (fst (fold_left (Processor.process_item analyze_text) batch (st, results)))
      results
      (snd (fold_left (Processor.process_item analyze_text) batch (st, results))) batch.
Proof.
  induction batch as [|item rest IH]; intros st results; cbn [fold_left].
  { apply ascending_phase_refl. }
  pose proof (process_item_ascending st results item) as H1.
  destruct (Processor.process_item analyze_text (st, results) item) as [st1 results1].
  simpl in H1.
  eapply ascending_phase_trans; [exact H1 | apply IH | |].
  - intros x Hx. apply list_elem_of_singleton in Hx as ->. by left.
  - intros x Hx. by right.
Qed.

Lemma quiet_ascending (st st' : Processor.State) (results : list Processor.Result)
    (items : list Processor.NewsItem) :
  Processor.last_processed_id st' = Processor.last_processed_id st →
  Processor.log st' = Processor.log st →
  ascending_phase analyze_text st st' results results items.
Proof.
  intros H1 H2. split; [lia|]. exists [], []. rewrite !app_nil_r. simpl.
  split; [done|]. split; [done|]. split; [done|]. split; [constructor|].
  split; intros x Hx; by apply elem_of_nil in Hx.
Qed.

Lemma process_batches_ascending (batches : list (list Processor.NewsItem)) :
  ∀ signals st results,
    ascending_phase analyze_text st
      (fst (Processor.process_batches analyze_text batches signals (st, results)))
      results
      (snd (Processor.process_batches analyze_text batches signals (st, results)))
      (concat batches).
Proof.
  induction batches as [|batch rest IH]; intros signals st results; simpl.
  { apply ascending_phase_refl. }
  set (st1 := Processor.deliver (List.hd None signals) st).
  assert (ascending_phase analyze_text st st1 results results []) as Hd.
  { apply quiet_ascending; subst st1; by destruct (List.hd None signals) as [[|]|]. }
  assert (∀ s, ascending_phase analyze_text s (Processor.analyzer_save_checkpoint s) results results [])
    as Hsave.
  { intros s. apply quiet_ascending; unfold Processor.analyzer_save_checkpoint;
      by destruct (Processor.fs_up s) eqn:E. }
  destruct (Processor.pause_event st1).
  - simpl. eapply ascending_phase_trans with (items1 := []) (items2 := []);
      [exact Hd | apply Hsave | |]; intros x Hx; by apply elem_of_nil in Hx.
  - pose proof (process_items_ascending batch st1 results) as Hb.
    destruct (fold_left _ batch (st1, results)) as [st2 results2]. simpl in Hb.
    eapply ascending_phase_trans with (items1 := batch) (items2 := concat rest).
    + eapply ascending_phase_trans with (items1 := []) (items2 := batch);
        [exact Hd | exact Hb | |]; [intros x Hx; by apply elem_of_nil in Hx | done].
    + eapply ascending_phase_trans with (items1 := []) (items2 := concat rest);
        [|apply IH| |]; [|intros x Hx; by apply elem_of_nil in Hx | done].
      apply quiet_ascending; unfold Processor.analyzer_save_checkpoint;
        by destruct (Processor.fs_up st2) eqn:E.
    + intros x Hx. apply elem_of_app. by left.
    + intros x Hx. apply elem_of_app. by right.
Qed.

Lemma process_news_batch_ascending (st st' : Processor.State)
    (news_items : list Processor.NewsItem) (batch_size : Z)
    (signals : list (option Processor.Signum)) (results : list Processor.Result) :
  Processor.process_news_batch analyze_text st news_items batch_size signals =
    Some (st', results) →
  ascending_phase analyze_text st st' [] results news_items.
Proof.
  unfold Processor.process_news_batch.
  destruct (batch_size =? 0); [done|].
  destruct (batch_size <? 0).
  { intros [= <- <-]. apply ascending_phase_refl. }
  intros [= Hrun].
  pose proof (process_batches_ascending
                (Processor.chunks (Z.to_nat batch_size) news_items) signals st []) as Hp.
  rewrite Hrun in Hp. simpl in Hp.
  eapply ascending_phase_trans with (items1 := []);
    [apply ascending_phase_refl | exact Hp | |].
  - intros x Hx. by apply elem_of_nil in Hx.
  - intros x Hx. eapply chunks_fuel_subset, Hx.
Qed.

(** X14. In one run every item is scored at most once and in ascending
    order of id, and every item the run attempts, scored or failed, is a
    stored news item whose id lies above the processor's checkpoint and
    above the analyzer's cursor as they were when the run started. *)
Theorem run_scores_ascending (batch_size : Z) (now utc_now : string)
    (signals : list (option Processor.Signum)) (st : Processor.State) :
  let st' := Processor.process_iteration analyze_text batch_size now utc_now signals st in
  let evs := Processor.new_events st st' in
  StronglySorted Z.lt (Processor.scored_ids evs) ∧
  ∀ i, i ∈ Processor.scored_ids evs ∨ i ∈ Processor.failed_ids evs →
       Processor.last_news_id st < i ∧
       Processor.last_processed_id st < i ∧
       is_Some (news_data (Processor.db st) !! i).
Proof.
  intros st' evs. subst evs st'. unfold Processor.process_iteration.
  assert (Processor.new_events st st = []) as Hnone by apply processor_new_events_same.
  assert (StronglySorted Z.lt (Processor.scored_ids []) ∧
          ∀ i, i ∈ Processor.scored_ids [] ∨ i ∈ Processor.failed_ids [] →
               Processor.last_news_id st < i ∧ Processor.last_processed_id st < i ∧
               is_Some (news_data (Processor.db st) !! i)) as Hempty.
  { split; [constructor|]. intros i [Hi|Hi]; by apply elem_of_nil in Hi. }
  destruct (Processor.shutdown_flag st); [by rewrite Hnone|].
  destruct (Processor.pause_event st); [by rewrite Hnone|].
  destruct (Processor.fetch_unprocessed_news st) as [|item items] eqn:Hfetch;
    [by rewrite Hnone|].
  destruct (Processor.process_news_batch _ _ _ _ _) as [[st1 results]|] eqn:Hrun;
    [|by rewrite Hnone].
  pose proof (process_news_batch_ascending _ _ _ _ _ _ Hrun)
    as (_ & evs & new & L & _ & _ & Hsorted & _ & _).
  pose proof (process_news_batch_phase _ _ _ _ _ _ _ Hrun)
    as (_ & _ & _ & _ & _ & _ & evs' & new' & L' & _ & _ & S & F & I & _).
  assert (evs' = evs) as -> by (rewrite L in L'; by apply app_inv_head in L').
  destruct (save_results_fields now utc_now st1 results) as (_ & _ & _ & LG & _).
  rewrite (processor_new_events_app st _ evs) by (by rewrite LG).
  split; [exact Hsorted|].
  intros i Hi.
  assert (i ∈ map Processor.ni_id (Processor.fetch_unprocessed_news st)) as Hf
    by (rewrite Hfetch; by apply I).
  apply fetch_ids in Hf as (_ & Hrow & Hgt).
  split; [exact Hgt|]. split; [|exact Hrow].
  destruct Hi as [Hi|Hi]; [specialize (S i Hi); lia | by apply F].
Qed.

Lemma fetch_item (st : Processor.State) (item : Processor.NewsItem) :
  item ∈ Processor.fetch_unprocessed_news st →
  ∃ nd, news_data (Processor.db st) !! Processor.ni_id item = Some nd ∧
        Processor.ni_symbol item = nd_symbol nd ∧
        Processor.ni_title item = nd_title nd ∧
        Processor.ni_summary item = nd_summary nd.
Proof.
  unfold Processor.fetch_unprocessed_news.
  destruct (db_up (Processor.db st)); [|intros H; by apply elem_of_nil in H].
  intros Hin. apply list_elem_of_fmap in Hin as ([j nd] & -> & Hin). simpl.
  unfold order_by_rowid in Hin. rewrite merge_sort_Permutation in Hin.
  apply list_elem_of_In, filter_In in Hin as [Hin _].
  apply list_elem_of_In, elem_of_map_to_list in Hin. eauto.
Qed.

Lemma insert_results_lookup (utc_now : string) (results : list Processor.Result) :
  ∀ m,
    NoDup (map Processor.r_id results) →
    (∀ r, r ∈ results →
          fold_left (Processor.insert_result utc_now) results m !! Processor.r_id r =
          Processor.insert_result utc_now ∅ r !! Processor.r_id r) ∧
    (∀ i, i ∉ map Processor.r_id results →
          fold_left (Processor.insert_result utc_now) results m !! i = m !! i).
Proof.
  induction results as [|r0 rest IH]; intros m Hnd; simpl.
  { split; [intros r Hr; by apply elem_of_nil in Hr | done]. }
  apply NoDup_cons in Hnd as [Hnotin Hnd].
  destruct (IH (Processor.insert_result utc_now m r0) Hnd) as [Hin Hout].
  split.
  - intros r Hr. apply elem_of_cons in Hr as [->|Hr]; [|by apply Hin].
    rewrite (Hout _ Hnotin). unfold Processor.insert_result.
    by rewrite !lookup_insert_eq.
  - intros i Hi. apply not_elem_of_cons in Hi as [Hne Hi].
    rewrite (Hout _ Hi). unfold Processor.insert_result.
    by rewrite lookup_insert_ne.
Qed.

Lemma strongly_sorted_lt_NoDup (l : list Z) : StronglySorted Z.lt l → NoDup l.
Proof.
  induction 1 as [|x l Hs IH Hall]; constructor; [|done].
  intros Hin. rewrite Forall_forall in Hall. specialize (Hall x Hin). lia.
Qed.

(** X15. With the store reachable, a run writes one sentiment row for
    every item it scored, under the item's id: the row carries the symbol
    of the news row, the time of the write, and the scores, the dominant
    label and the confidence the classifier returned for the item's title
    and summary joined by a space.  No other sentiment row changes, and
    the news table is left as it was. *)
Theorem run_persists_scored (batch_size : Z) (now utc_now : string)
    (signals : list (option Processor.Signum)) (st : Processor.State) :
  db_up (Processor.db st) = true →
  let st' := Processor.process_iteration analyze_text batch_size now utc_now signals st in
  let scored := Processor.scored_ids (Processor.new_events st st') in
  (∀ i, i ∈ scored →
        ∃ nd call a,
          news_data (Processor.db st) !! i = Some nd ∧
          analyze_text call (String.append (nd_title nd) (String.append " " (nd_summary nd))) =
            Some a ∧
          sentiment_results (Processor.db st') !! i =
          Some {| sr_symbol := nd_symbol nd;
                  sr_negative_score := Processor.score_negative a;
                  sr_neutral_score := Processor.score_neutral a;
                  sr_positive_score := Processor.score_positive a;
                  sr_dominant_sentiment := Processor.dominant_sentiment a;
                  sr_confidence := Processor.confidence a;
                  sr_timestamp := utc_now |}) ∧
  (∀ i, i ∉ scored →
        sentiment_results (Processor.db st') !! i =
        sentiment_results (Processor.db st) !! i) ∧
  news_data (Processor.db st') = news_data (Processor.db st).
Proof.
  intros Hup st' scored. subst scored st'. unfold Processor.process_iteration.
  assert (Processor.new_events st st = []) as Hnone by apply processor_new_events_same.
  destruct (Processor.shutdown_flag st);
    [rewrite Hnone; split; [intros i Hi; by apply elem_of_nil in Hi | done]|].
  destruct (Processor.pause_event st);
    [rewrite Hnone; split; [intros i Hi; by apply elem_of_nil in Hi | done]|].
  destruct (Processor.fetch_unprocessed_news st) as [|item items] eqn:Hfetch;
    [rewrite Hnone; split; [intros i Hi; by apply elem_of_nil in Hi | done]|].
  destruct (Processor.process_news_batch _ _ _ _ _) as [[st1 results]|] eqn:Hrun;
    [|rewrite Hnone; split; [intros i Hi; by apply elem_of_nil in Hi | done]].
  pose proof (process_news_batch_ascending _ _ _ _ _ _ Hrun)
    as (_ & evs & new & L & R & M & Hsorted & _ & Hitems).
  pose proof (process_news_batch_phase _ _ _ _ _ _ _ Hrun) as (Hdb & _).
  simpl in R. subst results.
  destruct (save_results_fields now utc_now st1 new) as (_ & _ & _ & LG & _).
  rewrite (processor_new_events_app st _ evs) by (by rewrite LG).
  assert (NoDup (map Processor.r_id new)) as Hnd
    by (rewrite M; by apply strongly_sorted_lt_NoDup).
  unfold Processor.save_sentiment_results.
  destruct new as [|r rest].
  { simpl in M. rewrite <- M, Hdb.
    split; [intros i Hi; by apply elem_of_nil in Hi | done]. }
  cbv beta iota.
  remember (r :: rest) as new eqn:Hnew.
  rewrite Hdb, Hup.
  match goal with |- context [Processor._save_checkpoint ?s] =>
    destruct (save_checkpoint_fields s) as (-> & _) end.
  simpl.
  destruct (insert_results_lookup utc_now new (sentiment_results (Processor.db st)) Hnd)
    as [Hin Hout].
  rewrite <- M.
  split; [|split; [exact Hout | done]].
  intros i Hi. apply list_elem_of_fmap in Hi as (x & -> & Hx).
  destruct (Hitems x Hx) as (it & call & Hit & Hid & Hsym & Hcall).
  rewrite <- Hfetch in Hit.
  apply fetch_item in Hit as (nd & Hrow & Hs & Ht & Hsu).
  exists nd, call, (Processor.r_sentiment x).
  rewrite Hid. split; [exact Hrow|].
  rewrite <- Ht, <- Hsu. split; [exact Hcall|].
  rewrite <- Hid, (Hin x Hx). unfold Processor.insert_result.
  rewrite lookup_insert_eq. by rewrite Hsym, Hs.
Qed.

End StreamProcessorFurther.

Lemma run_persists_scored_witness :
  let st' := Processor.process_iteration Sample.never_fails 10
               "2024-03-01 10:00:00" "2024-03-01 09:00:00" [] Sample.fresh in
  (∀ i, i ∉ Processor.scored_ids (Processor.new_events Sample.fresh st') →
        sentiment_results (Processor.db st') !! i =
        sentiment_results (Processor.db Sample.fresh) !! i) ∧
  news_data (Processor.db st') = news_data (Processor.db Sample.fresh).
Proof.
  intros st'.
  apply (run_persists_scored Sample.never_fails 10 "2024-03-01 10:00:00"
           "2024-03-01 09:00:00" [] Sample.fresh eq_refl).
Defined.

(** ** Processor life cycle *)

Section LifeCycle.

Variable analyze_text : nat → string → option Processor.Analysis.

Lemma iteration_idle (batch_size : Z) (now utc_now : string)
    (signals : list (option Processor.Signum)) (st : Processor.State) :
  Processor.shutdown_flag st = true ∨ Processor.pause_event st = true →
  Processor.process_iteration analyze_text batch_size now utc_now signals st = st.
Proof.
  unfold Processor.process_iteration. intros [->| ->]; [done|].
  by destruct (Processor.shutdown_flag st).
Qed.

(** The state components a stopped processor keeps. *)
Lemma step_idle (op : Processor.Op) (st : Processor.State) :
  Processor.shutdown_flag st = true ∨
  (Processor.pause_event st = true ∧ op ≠ Processor.Resume) →
  let st' := Processor.step analyze_text op st in
  (Processor.shutdown_flag st = true → Processor.shutdown_flag st' = true) ∧
  (Processor.pause_event st = true → op ≠ Processor.Resume →
   Processor.pause_event st' = true) ∧
  Processor.log st' = Processor.log st ∧
  Processor.calls st' = Processor.calls st ∧
  Processor.last_news_id st' = Processor.last_news_id st ∧
  Processor.last_processed_id st' = Processor.last_processed_id st ∧
  Processor.last_run st' = Processor.last_run st ∧
  ((∀ f, op ≠ Processor.StoreChanged f) → Processor.db st' = Processor.db st).
Proof.
  intros Hidle st'. subst st'.
  destruct op as [bs now utc sigs| | | |s|f|b]; simpl.
  - rewrite iteration_idle by tauto. tauto.
  - tauto.
  - split; [tauto|]. split; [intros; congruence|]. tauto.
  - unfold Processor.shutdown.
    match goal with |- context [Processor._save_checkpoint ?s] =>
      unfold Processor._save_checkpoint; destruct (Processor.fs_up s) end; simpl; tauto.
  - destruct s; simpl; tauto.
  - split; [tauto|]. split; [tauto|]. split; [done|]. split; [done|]. split; [done|].
    split; [done|]. split; [done|]. intros H. by destruct (H f).
  - tauto.
Qed.

Lemma run_idle (ops : list Processor.Op) :
  ∀ st,
    Processor.shutdown_flag st = true ∨
    (Processor.pause_event st = true ∧ Forall (λ op, op ≠ Processor.Resume) ops) →
    let st' := Processor.run analyze_text ops st in
    (Processor.shutdown_flag st = true → Processor.shutdown_flag st' = true) ∧
    (Processor.pause_event st = true → Forall (λ op, op ≠ Processor.Resume) ops →
     Processor.pause_event st' = true) ∧
    Processor.log st' = Processor.log st ∧
    Processor.calls st' = Processor.calls st ∧
    Processor.last_news_id st' = Processor.last_news_id st ∧
    Processor.last_processed_id st' = Processor.last_processed_id st ∧
    Processor.last_run st' = Processor.last_run st ∧
    (Forall (λ op, ∀ f, op ≠ Processor.StoreChanged f) ops →
     Processor.db st' = Processor.db st).
Proof.
  induction ops as [|op rest IH]; intros st Hidle; simpl; [tauto|].
  assert (Processor.shutdown_flag st = true ∨
          (Processor.pause_event st = true ∧ op ≠ Processor.Resume)) as Hop.
  { destruct Hidle as [H|[H Hall]]; [by left|]. right. split; [done|].
    by apply Forall_cons in Hall as [? _]. }
  destruct (step_idle op st Hop) as (S1 & P1 & L1 & C1 & N1 & A1 & R1 & D1).
  assert (Processor.shutdown_flag (Processor.step analyze_text op st) = true ∨
          (Processor.pause_event (Processor.step analyze_text op st) = true ∧
           Forall (λ op, op ≠ Processor.Resume) rest)) as Hrest.
  { destruct Hidle as [H|[H Hall]]; [left; by apply S1|].
    apply Forall_cons in Hall as [Hne Hall]. right. split; [by apply P1 | done]. }
  destruct (IH _ Hrest) as (S2 & P2 & L2 & C2 & N2 & A2 & R2 & D2).
  fold (Processor.run analyze_text rest (Processor.step analyze_text op st)).
  split; [intros H; apply S2, S1, H|].
  split.
  { intros H Hall. apply Forall_cons in Hall as [Hne Hall]. apply P2; [by apply P1 | done]. }
  split; [congruence|]. split; [congruence|]. split; [congruence|].
  split; [congruence|]. split; [congruence|].
  intros Hall. apply Forall_cons in Hall as [Hne Hall].
  rewrite (D2 Hall). by apply D1.
Qed.

(** X16. Shutdown is final: once the shutdown flag is set, no sequence of
    loop turns, method calls, signals and outside changes clears it,
    calls the classifier, scores an item or moves the checkpoint, the
    analyzer's cursor or the time of the last run; and the processor
    itself never writes to the store again. *)
Theorem shutdown_is_terminal (ops : list Processor.Op) (st : Processor.State) :
  Processor.shutdown_flag st = true →
  let st' := Processor.run analyze_text ops st in
  Processor.shutdown_flag st' = true ∧
  Processor.log st' = Processor.log st ∧
  Processor.calls st' = Processor.calls st ∧
  Processor.last_news_id st' = Processor.last_news_id st ∧
  Processor.last_processed_id st' = Processor.last_processed_id st ∧
  Processor.last_run st' = Processor.last_run st ∧
  (Forall (λ op, ∀ f, op ≠ Processor.StoreChanged f) ops →
   Processor.db st' = Processor.db st).
Proof.
  intros Hflag st'. subst st'.
  destruct (run_idle ops st (or_introl Hflag)) as (S & _ & H). split; [by apply S | exact H].
Qed.

(** X17. A paused processor stays paused until [resume] is called: as
    long as no operation is a [resume], loop turns do nothing, so no item
    is scored, the classifier is not called and the checkpoint, the
    cursor and the time of the last run stay as they are; and the
    processor itself does not write to the store. *)
Theorem paused_until_resumed (ops : list Processor.Op) (st : Processor.State) :
  Processor.pause_event st = true →
  Forall (λ op, op ≠ Processor.Resume) ops →
  let st' := Processor.run analyze_text ops st in
  Processor.pause_event st' = true ∧
  Processor.log st' = Processor.log st ∧
  Processor.calls st' = Processor.calls st ∧
  Processor.last_news_id st' = Processor.last_news_id st ∧
  Processor.last_processed_id st' = Processor.last_processed_id st ∧
  Processor.last_run st' = Processor.last_run st ∧
  (Forall (λ op, ∀ f, op ≠ Processor.StoreChanged f) ops →
   Processor.db st' = Processor.db st).
Proof.
  intros Hpause Hall st'. subst st'.
  destruct (run_idle ops st (or_intror (conj Hpause Hall))) as (_ & P & H).
  split; [by apply P | exact H].
Qed.

Lemma events_none (evs : list Processor.Event) :
  Processor.scored_ids evs = [] → Processor.failed_ids evs = [] → evs = [].
Proof. destruct evs as [|[i|i] rest]; simpl; by intros. Qed.

(** X18. Items at or below the analyzer's cursor are never scored, even
    when the processor's checkpoint is behind the cursor and fetches
    them: a turn over such items attempts none of them, writes nothing to
    the store and leaves the checkpoint where it was, so the next turn
    fetches the same items again. *)
Theorem cursor_ahead_skips (batch_size : Z) (now utc_now : string)
    (signals : list (option Processor.Signum)) (st : Processor.State) :
  (∀ item, item ∈ Processor.fetch_unprocessed_news st →
           Processor.ni_id item <= Processor.last_processed_id st) →
  let st' := Processor.process_iteration analyze_text batch_size now utc_now signals st in
  Processor.new_events st st' = [] ∧
  Processor.db st' = Processor.db st ∧
  Processor.last_news_id st' = Processor.last_news_id st ∧
  Processor.last_processed_id st' = Processor.last_processed_id st ∧
  Processor.fetch_unprocessed_news st' = Processor.fetch_unprocessed_news st.
Proof.
  intros Hbelow st'.
  destruct (iteration_cases analyze_text batch_size now utc_now signals st)
    as [Hsame|(st1 & results & Hphase & Hsave)]; [fold st' in Hsame | fold st' in Hsave].
  { rewrite Hsame, processor_new_events_same. done. }
  destruct Hphase as (A1 & A2 & A3 & A4 & A5 & A6 & evs & new & L & R & M & S & F & I & E & N).
  assert (∀ i, i ∈ Processor.scored_ids evs ∨ i ∈ Processor.failed_ids evs → False) as Hno.
  { intros i Hi. pose proof (I i Hi) as Hin.
    apply list_elem_of_fmap in Hin as (item & -> & Hin). specialize (Hbelow item Hin).
    destruct Hi as [Hi|Hi]; [specialize (S _ Hi) | specialize (F _ Hi)]; lia. }
  assert (Processor.scored_ids evs = []) as Hs.
  { destruct (Processor.scored_ids evs) as [|x l]; [done|]. exfalso. apply (Hno x). left. by left. }
  assert (Processor.failed_ids evs = []) as Hf.
  { destruct (Processor.failed_ids evs) as [|x l]; [done|]. exfalso. apply (Hno x). right. by left. }
  pose proof (events_none evs Hs Hf) as ->.
  rewrite Hs in M. destruct new; [|done]. simpl in R. subst results.
  simpl in Hsave. rewrite Hsave.
  rewrite (processor_new_events_app st st1 []) by done.
  split; [done|]. split; [done|]. split; [done|]. split; [by apply E|].
  unfold Processor.fetch_unprocessed_news. by rewrite A1, A2.
Qed.

End LifeCycle.

Lemma cursor_ahead_skips_witness :
  let st := Processor.startup Sample.news_db (Some 3) None in
  let st' := Processor.process_iteration Sample.never_fails 10
               "2024-03-01 10:00:00" "2024-03-01 09:00:00" [] st in
  Processor.fetch_unprocessed_news st ≠ [] ∧
  Processor.new_events st st' = [] ∧
  Processor.fetch_unprocessed_news st' = Processor.fetch_unprocessed_news st.
Proof.
  intros st st'.
  split; [vm_compute; discriminate|].
  assert (∀ item, item ∈ Processor.fetch_unprocessed_news st →
                  Processor.ni_id item <= Processor.last_processed_id st) as Hbelow.
  { intros item Hin.
    assert (Processor.ni_id item ∈ map Processor.ni_id (Processor.fetch_unprocessed_news st))
      as Hid by (apply list_elem_of_fmap; eauto).
    revert Hid. generalize (Processor.ni_id item). intros i Hi.
    assert (map Processor.ni_id (Processor.fetch_unprocessed_news st) = [1; 2; 3]) as Hids
      by (vm_compute; reflexivity).
    rewrite Hids in Hi. simpl.
    repeat (apply elem_of_cons in Hi as [->|Hi]; [lia|]). by apply elem_of_nil in Hi. }
  destruct (cursor_ahead_skips Sample.never_fails 10 "2024-03-01 10:00:00"
              "2024-03-01 09:00:00" [] st Hbelow) as (H1 & _ & _ & _ & H5).
  split; [exact H1 | exact H5].
Defined.

(** X19. A clean shutdown followed by a start-up is a round trip for the
    processor's checkpoint: when the checkpoint file can be written, the
    restarted processor has the checkpoint and the time of the last run
    of the stopped one, is neither paused nor shut down, and its first
    fetch from the same store returns the items the stopped one would
    have fetched next. *)
Theorem restart_resumes_from_checkpoint (st : Processor.State) :
  Processor.fs_up st = true →
  let st' := Processor.shutdown st in
  let st2 := Processor.startup (Processor.db st') (Processor.sentiment_checkpoint_file st')
               (Processor.processor_checkpoint_file st') in
  Processor.shutdown_flag st' = true ∧
  Processor.last_news_id st2 = Processor.last_news_id st ∧
  Processor.last_run st2 = Processor.last_run st ∧
  Processor.pause_event st2 = false ∧
  Processor.shutdown_flag st2 = false ∧
  Processor.fetch_unprocessed_news st2 = Processor.fetch_unprocessed_news st.
Proof.
  intros Hfs st' st2. subst st2 st'.
  unfold Processor.shutdown, Processor._save_checkpoint. simpl. rewrite Hfs. simpl.
  split; [done|]. split; [done|]. split; [done|]. split; [done|]. split; [done|].
  unfold Processor.fetch_unprocessed_news. simpl. done.
Qed.

Lemma restart_resumes_from_checkpoint_witness :
  let st := Processor.process_iteration Sample.never_fails 10
              "2024-03-01 10:00:00" "2024-03-01 09:00:00" [] Sample.fresh in
  let st' := Processor.shutdown st in
  Processor.last_news_id
    (Processor.startup (Processor.db st') (Processor.sentiment_checkpoint_file st')
       (Processor.processor_checkpoint_file st')) = Processor.last_news_id st.
Proof.
  intros st st'.
  assert (Processor.fs_up st = true) as Hfs by (vm_compute; reflexivity).
  apply (restart_resumes_from_checkpoint st Hfs).
Defined.

(** ** Notification gate, further *)

Lemma sent_ids_sublist (evs : list Notify.Event) :
  Notify.sent_ids evs `sublist_of` map Notify.event_id evs.
Proof.
  induction evs as [|e evs IH]; simpl; [done|].
  destruct e; simpl; first [by apply sublist_skip | by apply sublist_cons].
Qed.

Lemma sent_ids_elem (evs : list Notify.Event) (i : Z) :
  i ∈ Notify.sent_ids evs ↔ Notify.Sent i ∈ evs.
Proof.
  unfold Notify.sent_ids. rewrite list_elem_of_omap. split.
  - intros (e & He & Hi). destruct e; try done. by injection Hi as ->.
  - intros H. by exists (Notify.Sent i).
Qed.

Lemma unnotified_NoDup (d : Database) :
  NoDup (map Notify.sg_id (Notify.get_unnotified_signals d)).
Proof.
  unfold Notify.get_unnotified_signals. destruct (db_up d); [|constructor].
  rewrite map_map. unfold order_by_timestamp_desc.
  rewrite merge_sort_Permutation.
  rewrite (map_ext _ (λ ir : Z * SignalRow, fst ir)) by (by intros [i r]).
  apply (NoDup_map_filter (λ ir : Z * SignalRow, fst ir)
           (λ ir, negb (ts_notified (snd ir)))).
  apply NoDup_fst_map_to_list.
Qed.

(** The log lines of one pass of the loop of [send_notifications]. *)
Lemma notify_each_trace (world : Z → Notify.Outside) (signals : list Notify.Signal) :
  ∀ st, let st' := Notify.notify_each world signals st in
    ∃ evs,
      Notify.log st' = (Notify.log st ++ evs)%list ∧
      map Notify.event_id evs `prefix_of` map Notify.sg_id signals ∧
      (Notify.window_readable (Notify.config st) →
       (∀ x, x ∈ signals → is_Some (Notify.sg_close_price x)) →
       map Notify.event_id evs = map Notify.sg_id signals) ∧
      (∀ e, e ∈ evs →
            e = Notify.Sent (Notify.event_id e) ↔
            Notify.transport_ok (world (Notify.event_id e)) = true ∧
            ¬ Notify.suppressed (Notify.config st) (Notify.now (world (Notify.event_id e)))) ∧
      (∀ i, Notify.store_ok (world i) = false →
            trading_signals (Notify.db st') !! i = trading_signals (Notify.db st) !! i) ∧
      (db_up (Notify.db st) = true →
       ∀ i, i ∈ Notify.sent_ids evs → Notify.store_ok (world i) = true →
            trading_signals (Notify.db st') !! i =
            Notify.mark_row <$> trading_signals (Notify.db st) !! i).
Proof.
  induction signals as [|sg rest IH]; intros st; simpl.
  { exists []. rewrite app_nil_r. split; [done|]. split; [done|]. split; [done|].
    split; [intros e He; by apply elem_of_nil in He|]. split; [done|].
    intros _ i Hi. by apply elem_of_nil in Hi. }
  destruct (send_signal_cases (world (Notify.sg_id sg)) sg st)
    as [[-> Hq]|[(e & -> & He & Hns & Hwhy)|(-> & Hok & Hnot)]].
  - exists []. rewrite app_nil_r. split; [done|]. split; [apply prefix_nil|].
    split.
    { intros Hr Hprice. destruct Hq as [Hq|[_ Hq]].
      - destruct (window_readable_some _
                    (Notify.time (Notify.now (world (Notify.sg_id sg)))) Hr). congruence.
      - destruct (Hprice sg ltac:(by left)). congruence. }
    split; [intros e He; by apply elem_of_nil in He|]. split; [done|].
    intros _ i Hi. by apply elem_of_nil in Hi.
  - destruct (IH (Notify.add_log e st)) as (evs & Hlog & Hpre & Hall & Hsent & Hst & Hmk).
    exists (e :: evs). simpl in Hlog.
    split; [by rewrite Hlog, <- app_assoc|].
    split; [simpl; rewrite He; by apply prefix_cons|].
    split.
    { intros Hr Hprice. simpl. rewrite He, (Hall Hr); [done|].
      intros x Hx. apply Hprice. by right. }
    split.
    { intros e' He'. apply elem_of_cons in He' as [->|He']; [|by apply Hsent].
      split.
      - intros Heq. rewrite Heq in Hns. done.
      - intros [Ht Hs]. rewrite He in Ht, Hs. destruct Hwhy; [contradiction | congruence]. }
    split; [exact Hst|].
    intros Hup i Hi. apply Hmk; [exact Hup|].
    change (e :: evs) with ([e] ++ evs)%list in Hi. unfold Notify.sent_ids in *.
    by rewrite omap_app, Hns in Hi.
  - set (w := world (Notify.sg_id sg)) in *.
    set (st1 := Notify.set_db _ _).
    destruct (IH st1) as (evs & Hlog & Hpre & Hall & Hsent & Hst & Hmk).
    destruct (notify_each_spec world rest st1)
      as (_ & _ & evs' & sent' & Hlog' & _ & _ & _ & _ & Hlk & _).
    assert (evs' = evs) as -> by (rewrite Hlog in Hlog'; by apply app_inv_head in Hlog').
    assert (Notify.policy (Notify.config st1) = Notify.policy (Notify.config st)) as Hpol by done.
    exists (Notify.Sent (Notify.sg_id sg) :: evs).
    split; [by rewrite Hlog; subst st1; simpl; rewrite <- app_assoc|].
    split; [by apply prefix_cons|].
    split.
    { intros Hr Hprice. simpl. rewrite Hall; [done| |].
      - eapply window_readable_policy; [|exact Hr]. by rewrite Hpol.
      - intros x Hx. apply Hprice. by right. }
    split.
    { intros e' He'. apply elem_of_cons in He' as [->|He']; [done|].
      rewrite (Hsent e' He'). split; intros [H1 H2]; (split; [exact H1|]);
        intros Hs; apply H2; (eapply suppressed_policy; [|exact Hs]); by rewrite Hpol. }
    split.
    { intros i Hi. rewrite (Hst i Hi). subst st1. simpl.
      unfold Notify.mark_as_notified.
      destruct (db_up (Notify.db st) && Notify.store_ok w) eqn:Hc; [|done].
      simpl. destruct (decide (i = Notify.sg_id sg)) as [->|Hne].
      - fold w in Hi. rewrite Hi in Hc. by rewrite andb_false_r in Hc.
      - by rewrite lookup_alter_ne. }
    intros Hup i Hi Hs. simpl in Hi.
    assert (db_up (Notify.db st1) = true) as Hup1
      by (subst st1; simpl; by rewrite mark_db_up).
    assert (i = Notify.sg_id sg →
            trading_signals (Notify.db st1) !! i =
            Notify.mark_row <$> trading_signals (Notify.db st) !! i) as Hhead.
    { intros ->. subst st1. simpl. unfold Notify.mark_as_notified.
      fold w in Hs. rewrite Hup, Hs. simpl. by rewrite lookup_alter_eq. }
    assert (i ≠ Notify.sg_id sg →
            trading_signals (Notify.db st1) !! i = trading_signals (Notify.db st) !! i) as Hother.
    { intros Hne. subst st1. simpl. unfold Notify.mark_as_notified.
      destruct (_ && _); [|done]. simpl. by rewrite lookup_alter_ne. }
    destruct (decide (i = Notify.sg_id sg)) as [Heq|Hne].
    + destruct (Hlk i) as [Hsame|[_ Hmark]].
      * rewrite Hsame. by apply Hhead.
      * rewrite Hmark, (Hhead Heq). apply mark_row_twice.
    + apply elem_of_cons in Hi as [Hi|Hi]; [done|].
      rewrite (Hmk Hup1 i Hi Hs). by rewrite (Hother Hne).
Qed.

(** Which signals one job attempts and which it sends. *)
Lemma job_sent (world : Z → Notify.Outside) (st : Notify.State) :
  let st' := Notify.send_notifications world st in
  let evs := Notify.new_events st st' in
  (Notify.window_readable (Notify.config st) →
   prices_known (Notify.db st) →
   map Notify.event_id evs = map Notify.sg_id (Notify.get_unnotified_signals (Notify.db st))) ∧
  (∀ i, i ∈ Notify.sent_ids evs ↔
        i ∈ map Notify.event_id evs ∧
        Notify.transport_ok (world i) = true ∧
        ¬ Notify.suppressed (Notify.config st) (Notify.now (world i))).
Proof.
  intros st' evs. subst evs st'. unfold Notify.send_notifications.
  set (signals := Notify.get_unnotified_signals (Notify.db st)).
  destruct (notify_each_trace world signals st) as (evs & Hlog & _ & Hall & Hsent & _).
  rewrite (new_events_app st _ evs Hlog).
  split; [intros Hr Hprice; apply Hall; [done|]; intros x Hx; by eapply unnotified_priced|].
  intros i. rewrite sent_ids_elem. split.
  - intros Hi. split; [apply list_elem_of_fmap; by exists (Notify.Sent i)|].
    by apply (Hsent (Notify.Sent i) Hi).
  - intros (Hi & Ht & Hs). apply list_elem_of_fmap in Hi as (e & -> & He).
    assert (e = Notify.Sent (Notify.event_id e)) as Heq by (by apply (Hsent e He)).
    by rewrite <- Heq.
Qed.

Lemma pending_prices_known : prices_known Sample.pending_db.
Proof.
  intros j r Hr Hn. simpl in Hr. destruct (decide (j = 1)) as [->|Hne].
  - rewrite lookup_insert_eq in Hr. injection Hr as <-. simpl. eauto.
  - rewrite lookup_insert_ne, lookup_empty in Hr by done. discriminate.
Qed.

(** X31. For a signal that is not yet notified when the job starts (the
    store being reachable): its flag is set only if
    the transport accepted its message in this job, the policy not holding
    it back; if the transport fails or the policy holds it back, the flag
    stays false and the signal is again among the un-notified signals the
    next job fetches; and the next job attempts it, whatever it meets
    outside, when the quiet-hours window can be read and no un-notified
    signal has a close price that is [NULL]. *)
Theorem flag_set_only_after_delivery (world : Z → Notify.Outside) (st : Notify.State)
    (i : Z) (row : SignalRow) :
  db_up (Notify.db st) = true →
  trading_signals (Notify.db st) !! i = Some row →
  ts_notified row = false →
  let st' := Notify.send_notifications world st in
  (Notify.notified (Notify.db st') i = Some true →
   i ∈ Notify.sent_ids (Notify.new_events st st') ∧
   Notify.transport_ok (world i) = true ∧
   ¬ Notify.suppressed (Notify.config st) (Notify.now (world i))) ∧
  (Notify.transport_ok (world i) = false ∨
   Notify.suppressed (Notify.config st) (Notify.now (world i)) →
   Notify.notified (Notify.db st') i = Some false ∧
   i ∈ map Notify.sg_id (Notify.get_unnotified_signals (Notify.db st')) ∧
   (Notify.window_readable (Notify.config st) →
    prices_known (Notify.db st) →
    ∀ world',
      i ∈ map Notify.event_id
            (Notify.new_events st' (Notify.send_notifications world' st')))).
Proof.
  intros Hup Hrow Hn st'. subst st'. unfold Notify.send_notifications.
  destruct (notify_each_spec world (Notify.get_unnotified_signals (Notify.db st)) st)
    as (Hpol & Hup' & evs & sent & Hlog & _ & _ & _ & Hsent & Hlk & _).
  pose proof (unnotified_prices_kept world (Notify.get_unnotified_signals (Notify.db st)) st)
    as Hprices.
  set (st' := Notify.notify_each world _ st) in *.
  rewrite (new_events_app st st' evs Hlog).
  assert (i ∉ Notify.sent_ids evs →
          trading_signals (Notify.db st') !! i = Some row) as Hkeep.
  { intros Hni. destruct (Hlk i) as [->|[Hin _]]; [exact Hrow | contradiction]. }
  split.
  - intros Hflag. unfold Notify.notified in Hflag.
    destruct (Hlk i) as [Hsame|[Hin _]].
    + rewrite Hsame, Hrow in Hflag. simpl in Hflag. congruence.
    + split; [exact Hin|]. by apply Hsent.
  - intros Hwhy.
    assert (i ∉ Notify.sent_ids evs) as Hni.
    { intros Hin. destruct (Hsent i Hin) as [H1 H2]. destruct Hwhy; [congruence|contradiction]. }
    specialize (Hkeep Hni).
    assert (i ∈ map Notify.sg_id (Notify.get_unnotified_signals (Notify.db st'))) as Hnext.
    { apply unnotified_elem; [by rewrite Hup'|]. eauto. }
    split; [by unfold Notify.notified; rewrite Hkeep; simpl; rewrite Hn|].
    split; [exact Hnext|].
    intros Hr Hprice world'.
    destruct (notify_each_spec world' (Notify.get_unnotified_signals (Notify.db st')) st')
      as (_ & _ & evs' & sent' & Hlog' & _ & _ & _ & _ & _ & Hall).
    rewrite (new_events_app _ _ evs' Hlog').
    apply Hall; [|by apply Hprices|exact Hnext].
    eapply window_readable_policy; [|exact Hr]. by rewrite Hpol.
Qed.

Lemma flag_set_only_after_delivery_witness :
  let st := Sample.gate Sample.weekend_policy in
  let delivered := Notify.send_notifications (Sample.outside Sample.tuesday true) st in
  let failed := Notify.send_notifications (Sample.outside Sample.tuesday false) st in
  let again := Notify.send_notifications (Sample.outside Sample.tuesday true) failed in
  db_up (Notify.db st) = true ∧
  trading_signals (Notify.db st) !! 1 = Some Sample.pending_row ∧
  ts_notified Sample.pending_row = false ∧
  Notify.notified (Notify.db delivered) 1 = Some true ∧
  1 ∈ Notify.sent_ids (Notify.new_events st delivered) ∧
  Notify.transport_ok (Sample.outside Sample.tuesday false 1) = false ∧
  Notify.notified (Notify.db failed) 1 = Some false ∧
  1 ∈ map Notify.sg_id (Notify.get_unnotified_signals (Notify.db failed)) ∧
  Notify.window_readable (Notify.config st) ∧
  prices_known (Notify.db st) ∧
  1 ∈ map Notify.event_id (Notify.new_events failed again).
Proof.
  intros st delivered failed again.
  assert (db_up (Notify.db st) = true) as Hup by reflexivity.
  assert (trading_signals (Notify.db st) !! 1 = Some Sample.pending_row) as Hrow
    by reflexivity.
  assert (ts_notified Sample.pending_row = false) as Hn by reflexivity.
  assert (Notify.notified (Notify.db delivered) 1 = Some true) as Hflag
    by (vm_compute; reflexivity).
  assert (Notify.window_readable (Notify.config st)) as Hr by (left; reflexivity).
  destruct (flag_set_only_after_delivery (Sample.outside Sample.tuesday true) st 1
              Sample.pending_row Hup Hrow Hn) as [Honly _].
  destruct (flag_set_only_after_delivery (Sample.outside Sample.tuesday false) st 1
              Sample.pending_row Hup Hrow Hn) as [_ Hretry].
  destruct (Honly Hflag) as (Hsent & _ & _).
  destruct Hretry as (Hkept & Hnext & Hagain); [left; reflexivity|].
  split; [exact Hup|]. split; [exact Hrow|]. split; [exact Hn|].
  split; [exact Hflag|]. split; [exact Hsent|]. split; [reflexivity|].
  split; [exact Hkept|]. split; [exact Hnext|]. split; [exact Hr|].
  split; [exact pending_prices_known|].
  exact (Hagain Hr pending_prices_known (Sample.outside Sample.tuesday true)).
Defined.

(** X20. One notification job handles the un-notified signals in the
    order it fetched them and each at most once: the signals its log
    lines are about are a duplicate-free initial part of the fetched
    list (all of it when the quiet-hours window can be read and no
    un-notified signal has a [NULL] close price), a message goes out for
    a handled signal exactly when the transport accepts it and the policy
    does not hold it back, and the messages handed to the transport are
    those of the signals logged as sent, in order. *)
Theorem job_handles_each_signal_once (world : Z → Notify.Outside) (st : Notify.State) :
  let st' := Notify.send_notifications world st in
  let evs := Notify.new_events st st' in
  map Notify.event_id evs `prefix_of`
    map Notify.sg_id (Notify.get_unnotified_signals (Notify.db st)) ∧
  (Notify.window_readable (Notify.config st) →
   prices_known (Notify.db st) →
   map Notify.event_id evs = map Notify.sg_id (Notify.get_unnotified_signals (Notify.db st))) ∧
  NoDup (map Notify.event_id evs) ∧
  NoDup (Notify.sent_ids evs) ∧
  (∀ i, i ∈ Notify.sent_ids evs ↔
        i ∈ map Notify.event_id evs ∧
        Notify.transport_ok (world i) = true ∧
        ¬ Notify.suppressed (Notify.config st) (Notify.now (world i))) ∧
  ∃ sent, Notify.outbox st' = (Notify.outbox st ++ sent)%list ∧
          map Notify.sg_id sent = Notify.sent_ids evs.
Proof.
  intros st' evs. subst evs st'. unfold Notify.send_notifications.
  set (signals := Notify.get_unnotified_signals (Notify.db st)).
  destruct (notify_each_trace world signals st) as (evs & Hlog & Hpre & Hall & Hsent & _).
  destruct (notify_each_spec world signals st)
    as (_ & _ & evs' & sent & Hlog' & Hout & Hids & _).
  assert (evs' = evs) as -> by (rewrite Hlog in Hlog'; by apply app_inv_head in Hlog').
  rewrite (new_events_app st _ evs Hlog).
  assert (NoDup (map Notify.event_id evs)) as Hnd.
  { destruct Hpre as [k Hk]. pose proof (unnotified_NoDup (Notify.db st)) as H.
    fold signals in H. rewrite Hk in H. by apply NoDup_app in H as [? _]. }
  split; [exact Hpre|].
  split; [intros Hr Hprice; apply Hall; [done|]; intros x Hx; by eapply unnotified_priced|].
  split; [exact Hnd|].
  split; [eapply sublist_NoDup; [exact Hnd | apply sent_ids_sublist]|].
  split; [|eauto].
  intros i. rewrite sent_ids_elem. split.
  - intros Hi. split; [apply list_elem_of_fmap; by exists (Notify.Sent i)|].
    by apply (Hsent (Notify.Sent i) Hi).
  - intros (Hi & Ht & Hs). apply list_elem_of_fmap in Hi as (e & -> & He).
    assert (e = Notify.Sent (Notify.event_id e)) as Heq by (by apply (Hsent e He)).
    by rewrite <- Heq.
Qed.

Lemma job_handles_each_signal_once_witness :
  let st := Sample.gate Sample.weekend_policy in
  let st' := Notify.send_notifications (Sample.outside Sample.tuesday true) st in
  Notify.window_readable (Notify.config st) ∧
  prices_known (Notify.db st) ∧
  map Notify.event_id (Notify.new_events st st') =
  map Notify.sg_id (Notify.get_unnotified_signals (Notify.db st)).
Proof.
  intros st st'.
  assert (Notify.window_readable (Notify.config st)) as Hr.
  { right. split; vm_compute; eauto. }
  split; [exact Hr|]. split; [exact pending_prices_known|].
  exact (proj1 (proj2 (job_handles_each_signal_once (Sample.outside Sample.tuesday true) st))
           Hr pending_prices_known).
Defined.

(** X21. When the store refuses the update that follows a successful
    send, the signal has gone out but stays un-notified: the next job
    fetches it again and, if the transport accepts it and the policy
    does not hold it back, sends its message a second time.  (The
    quiet-hours window is readable and no un-notified signal has a
    [NULL] close price, so that neither job stops early.) *)
Theorem failed_mark_sends_again (world world' : Z → Notify.Outside) (st : Notify.State)
    (i : Z) (row : SignalRow) :
  db_up (Notify.db st) = true →
  Notify.window_readable (Notify.config st) →
  prices_known (Notify.db st) →
  trading_signals (Notify.db st) !! i = Some row →
  ts_notified row = false →
  Notify.transport_ok (world i) = true →
  ¬ Notify.suppressed (Notify.config st) (Notify.now (world i)) →
  Notify.store_ok (world i) = false →
  let st' := Notify.send_notifications world st in
  let st'' := Notify.send_notifications world' st' in
  i ∈ Notify.sent_ids (Notify.new_events st st') ∧
  Notify.notified (Notify.db st') i = Some false ∧
  i ∈ map Notify.sg_id (Notify.get_unnotified_signals (Notify.db st')) ∧
  (Notify.transport_ok (world' i) = true →
   ¬ Notify.suppressed (Notify.config st) (Notify.now (world' i)) →
   i ∈ Notify.sent_ids (Notify.new_events st' st'')).
Proof.
  intros Hup Hr Hprice Hrow Hn Ht Hs Hstore st' st''.
  pose proof (job_sent world st) as (Hall & Hsent).
  fold st' in Hall, Hsent.
  assert (i ∈ map Notify.sg_id (Notify.get_unnotified_signals (Notify.db st))) as Hin
    by (apply unnotified_elem; eauto).
  assert (i ∈ Notify.sent_ids (Notify.new_events st st')) as Hi.
  { apply Hsent. rewrite (Hall Hr Hprice). done. }
  pose proof (prices_known_kept world (Notify.get_unnotified_signals (Notify.db st)) st Hprice)
    as Hprice'.
  fold (Notify.send_notifications world st) in Hprice'. fold st' in Hprice'.
  destruct (notify_each_trace world (Notify.get_unnotified_signals (Notify.db st)) st)
    as (evs & _ & _ & _ & _ & Hkeep & _).
  destruct (notify_each_spec world (Notify.get_unnotified_signals (Notify.db st)) st)
    as (Hpol & Hup' & _).
  fold (Notify.send_notifications world st) in Hkeep, Hpol, Hup'. fold st' in Hkeep, Hpol, Hup'.
  specialize (Hkeep i Hstore). rewrite Hrow in Hkeep.
  assert (i ∈ map Notify.sg_id (Notify.get_unnotified_signals (Notify.db st'))) as Hnext.
  { apply unnotified_elem; [by rewrite Hup'|]. eauto. }
  split; [exact Hi|].
  split; [unfold Notify.notified; by rewrite Hkeep; simpl; rewrite Hn|].
  split; [exact Hnext|].
  intros Ht' Hs'.
  pose proof (job_sent world' st') as (Hall' & Hsent').
  fold st'' in Hall', Hsent'.
  apply Hsent'. split.
  - rewrite Hall'; [exact Hnext| |exact Hprice'].
    eapply window_readable_policy; [|exact Hr]. by rewrite Hpol.
  - split; [exact Ht'|]. intros H. apply Hs'.
    eapply suppressed_policy; [|exact H]. exact Hpol.
Qed.

(** X22. A job that meets no obstacle clears the work list: with the
    store reachable and accepting updates, the quiet-hours window
    readable, no un-notified signal with a [NULL] close price, the
    transport accepting every message and the policy holding none back,
    the job sends each un-notified signal once, in the order fetched,
    and afterwards no signal is un-notified. *)
Theorem unobstructed_job_clears (world : Z → Notify.Outside) (st : Notify.State) :
  db_up (Notify.db st) = true →
  Notify.window_readable (Notify.config st) →
  prices_known (Notify.db st) →
  (∀ i, i ∈ map Notify.sg_id (Notify.get_unnotified_signals (Notify.db st)) →
        Notify.transport_ok (world i) = true ∧
        Notify.store_ok (world i) = true ∧
        ¬ Notify.suppressed (Notify.config st) (Notify.now (world i))) →
  let st' := Notify.send_notifications world st in
  Notify.sent_ids (Notify.new_events st st') =
    map Notify.sg_id (Notify.get_unnotified_signals (Notify.db st)) ∧
  Notify.get_unnotified_signals (Notify.db st') = [] ∧
  ∀ i row, trading_signals (Notify.db st) !! i = Some row →
           Notify.notified (Notify.db st') i = Some true.
Proof.
  intros Hup Hr Hprice Hok st'. subst st'. unfold Notify.send_notifications.
  set (signals := Notify.get_unnotified_signals (Notify.db st)) in *.
  destruct (notify_each_trace world signals st) as (evs & Hlog & _ & Hall & Hsent & _ & Hmk).
  destruct (notify_each_spec world signals st) as (_ & Hup' & evs' & sent & Hlog' & _ & _ & _ & _ & Hlk & _).
  assert (evs' = evs) as -> by (rewrite Hlog in Hlog'; by apply app_inv_head in Hlog').
  set (st' := Notify.notify_each world signals st) in *.
  rewrite (new_events_app st st' evs Hlog).
  assert (∀ x, x ∈ signals → is_Some (Notify.sg_close_price x)) as Hpriced
    by (intros x Hx; by eapply unnotified_priced).
  specialize (Hall Hr Hpriced). specialize (Hmk Hup).
  assert (Notify.sent_ids evs = map Notify.event_id evs) as Hids.
  { assert (∀ e, e ∈ evs → e = Notify.Sent (Notify.event_id e)) as Hev.
    { intros e He. apply (Hsent e He).
      assert (Notify.event_id e ∈ map Notify.sg_id signals) as Hin
        by (rewrite <- Hall; apply list_elem_of_fmap; eauto).
      destruct (Hok _ Hin) as (H1 & _ & H3). done. }
    clear -Hev. induction evs as [|e evs IH]; [done|].
    assert (e = Notify.Sent (Notify.event_id e)) as Heq by (apply Hev; by left).
    simpl. rewrite Heq at 1. simpl. f_equal. apply IH. intros x Hx. apply Hev. by right. }
  assert (∀ i row, trading_signals (Notify.db st) !! i = Some row →
                   Notify.notified (Notify.db st') i = Some true) as Hdone.
  { intros i row Hrow. unfold Notify.notified.
    destruct (ts_notified row) eqn:Hn.
    - destruct (Hlk i) as [->|[_ ->]]; rewrite Hrow; simpl; by rewrite ?Hn.
    - assert (i ∈ map Notify.sg_id signals) as Hin by (apply unnotified_elem; eauto).
      destruct (Hok _ Hin) as (_ & H2 & _).
      rewrite Hmk; [by rewrite Hrow| |exact H2]. by rewrite Hids, Hall. }
  split; [by rewrite Hids|]. split; [|exact Hdone].
  destruct (Notify.get_unnotified_signals (Notify.db st')) as [|sg l] eqn:Hleft; [done|].
  exfalso.
  assert (Notify.sg_id sg ∈ map Notify.sg_id (Notify.get_unnotified_signals (Notify.db st')))
    as Hin by (rewrite Hleft; by left).
  apply unnotified_elem in Hin as (row' & Hrow' & Hn'); [|by rewrite Hup'].
  destruct (trading_signals (Notify.db st) !! Notify.sg_id sg) as [row|] eqn:Hrow.
  - specialize (Hdone _ _ Hrow). unfold Notify.notified in Hdone.
    rewrite Hrow' in Hdone. simpl in Hdone. congruence.
  - destruct (Hlk (Notify.sg_id sg)) as [H|[_ H]]; rewrite Hrow in H; simpl in H; congruence.
Qed.

(** X23. With quiet hours enabled and a start or end time that
    [strptime] cannot read, the job stops at its first signal: whatever
    is un-notified and whatever the job meets outside, nothing is sent,
    nothing is marked and nothing is logged, job after job. *)
Theorem unreadable_window_blocks_all (worlds : list (Z → Notify.Outside)) (st : Notify.State) :
  Notify.quiet_hours_enabled (Notify.config st) = true →
  Notify.strptime_HM (Notify.quiet_hours_start (Notify.config st)) = None ∨
  Notify.strptime_HM (Notify.quiet_hours_end (Notify.config st)) = None →
  Notify.run_gate worlds st = st.
Proof.
  intros Hen Hbad.
  assert (∀ t, Notify._is_in_quiet_hours (Notify.config st) t = None) as Hq.
  { intros t. unfold Notify._is_in_quiet_hours. rewrite Hen. simpl.
    destruct Hbad as [-> | Hend]; [done|].
    destruct (Notify.strptime_HM (Notify.quiet_hours_start _)); [|done]. simpl.
    by rewrite Hend. }
  induction worlds as [|world rest IH]; [done|]. simpl.
  assert (Notify.send_notifications world st = st) as ->; [|exact IH].
  unfold Notify.send_notifications.
  destruct (Notify.get_unnotified_signals (Notify.db st)) as [|sg l]; [done|].
  simpl. unfold Notify.send_signal. by rewrite Hq.
Qed.

(** ** Process supervisor, further *)

Lemma is_running_withheld (script : string) (procs : list Monitor.Proc) (p : Monitor.Proc) :
  p ∈ procs → Monitor.name p = None →
  (∀ q, q ∈ procs → Monitor.matches script q ≠ Some true) →
  Monitor.is_running script procs = None.
Proof.
  intros Hin Hname Hdown. induction procs as [|q rest IH]; [by apply elem_of_nil in Hin|].
  simpl. destruct (Monitor.matches script q) as [[|]|] eqn:Hm; [|apply IH|done].
  - exfalso. apply (Hdown q); [by left | exact Hm].
  - apply elem_of_cons in Hin as [->|Hin]; [|exact Hin].
    unfold Monitor.matches in Hm. by rewrite Hname in Hm.
  - intros x Hx. apply Hdown. by right.
Qed.

Lemma check_roles_none (roles : list (string * string)) (procs : list Monitor.Proc)
    (role script : string) :
  (role, script) ∈ roles →
  Monitor.is_running script procs = None →
  ∀ status, Monitor.check_roles roles procs status = None.
Proof.
  intros Hin Hnone. induction roles as [|[k s] rest IH]; [by apply elem_of_nil in Hin|].
  intros status. simpl.
  apply elem_of_cons in Hin as [[= <- <-]|Hin]; [by rewrite Hnone|].
  destruct (Monitor.is_running s procs); [by apply IH | done].
Qed.

(** X24. One process that withholds its name blinds the supervisor as
    soon as a worker is down: if the process table holds such a process
    and, for one of the four worker scripts, no Python process with that
    script on its command line, the process check fails, and the poll
    that relies on it restarts nothing at all; it only logs that the
    check failed.  A snapshot taken from such a table writes no status
    row. *)
Theorem withheld_name_blinds_poll (w : Monitor.Outside) (st : Monitor.State)
    (p : Monitor.Proc) (role script : string) :
  p ∈ Monitor.procs_at_restart w →
  Monitor.name p = None →
  (role, script) ∈ Monitor.script_names →
  (∀ q, q ∈ Monitor.procs_at_restart w → Monitor.matches script q ≠ Some true) →
  let st' := Monitor.run_monitoring w st in
  Monitor.check_processes (Monitor.procs_at_restart w) = None ∧
  Monitor.spawned st' = Monitor.spawned st ∧
  Monitor.new_events st st' = [Monitor.CheckFailed] ∧
  (Monitor.procs_at_snapshot w = Monitor.procs_at_restart w →
   Monitor.db st' = Monitor.db st).
Proof.
  intros Hin Hname Hrole Hdown st'. subst st'.
  assert (Monitor.check_processes (Monitor.procs_at_restart w) = None) as Hcheck.
  { unfold Monitor.check_processes. eapply check_roles_none; [exact Hrole|].
    by eapply is_running_withheld. }
  split; [exact Hcheck|].
  unfold Monitor.run_monitoring, Monitor.check_and_restart_processes. rewrite Hcheck.
  unfold Monitor.new_events. simpl. rewrite save_status_log, drop_app_length.
  assert (Monitor.spawned (fst (Monitor.save_status w st)) = Monitor.spawned st) as Hsp.
  { unfold Monitor.save_status.
    repeat (match goal with
            | |- context [match ?x with _ => _ end] => destruct x
            end; simpl; try done). }
  split; [exact Hsp|]. split; [done|].
  intros Hsame. unfold Monitor.save_status. rewrite Hsame, Hcheck.
  by destruct (Monitor.resources w).
Qed.

Lemma restart_missing_spawned (w : Monitor.Outside) (status : gmap string Z)
    (mapping : list (string * string)) :
  ∀ st,
    Monitor.spawned (Monitor.restart_missing w status mapping st) =
    (Monitor.spawned st ++
     List.filter (λ s, Monitor.script_exists w s && Monitor.spawn_ok w s)
       (map snd (List.filter (λ ks, default 0 (status !! fst ks) =? 0) mapping)))%list.
Proof.
  induction mapping as [|[key script] rest IH]; intros st; simpl.
  { by rewrite app_nil_r. }
  destruct (default 0 (status !! key) =? 0); [|apply IH].
  rewrite IH. simpl. unfold Monitor.restart_process.
  destruct (Monitor.script_exists w script); simpl; [|done].
  destruct (Monitor.spawn_ok w script); simpl; [|done].
  by rewrite <- app_assoc.
Qed.

(** X25. When the process check succeeds, the scripts the poll starts
    are those of the roles reported as not running whose script file
    exists and whose start succeeds, in the order of the roles and once
    each; a worker reported as running is never started again, and a
    script that does not exist is never started. *)
Theorem poll_spawns_only_missing (w : Monitor.Outside) (st : Monitor.State)
    (status : gmap string Z) :
  Monitor.check_processes (Monitor.procs_at_restart w) = Some status →
  let st' := Monitor.run_monitoring w st in
  Monitor.spawned st' =
    (Monitor.spawned st ++
     List.filter (λ s, Monitor.script_exists w s && Monitor.spawn_ok w s)
       (Monitor.not_running status))%list ∧
  (∀ role script,
      (role, script) ∈ Monitor.script_names →
      Monitor.is_running script (Monitor.procs_at_restart w) = Some true ∨
      Monitor.script_exists w script = false →
      script ∉ drop (length (Monitor.spawned st)) (Monitor.spawned st')).
Proof.
  intros Hcheck st'. subst st'.
  pose proof (check_processes_status _ _ Hcheck)
    as (Hne & H1 & H2 & H3 & H4 & S1 & S2 & S3 & S4).
  assert (Monitor.spawned (fst (Monitor.save_status w st)) = Monitor.spawned st) as Hsp.
  { unfold Monitor.save_status.
    repeat (match goal with
            | |- context [match ?x with _ => _ end] => destruct x
            end; simpl; try done). }
  assert (Monitor.spawned (Monitor.run_monitoring w st) =
          (Monitor.spawned st ++
           List.filter (λ s, Monitor.script_exists w s && Monitor.spawn_ok w s)
             (Monitor.not_running status))%list) as Hspawned.
  { unfold Monitor.run_monitoring, Monitor.check_and_restart_processes.
    rewrite Hcheck, decide_False by exact Hne.
    by rewrite restart_missing_spawned, Hsp. }
  split; [exact Hspawned|].
  intros role script Hrole Hwhy. rewrite Hspawned, drop_app_length.
  intros Hin. apply list_elem_of_In, filter_In in Hin as [Hin Hok].
  destruct Hwhy as [Hrun|Hmissing]; [|by rewrite Hmissing in Hok].
  apply list_elem_of_In in Hin. unfold Monitor.not_running in Hin.
  apply elem_of_map_filter in Hin as ([key script'] & Hmap & Hzero & ->).
  simpl in Hzero, Hrun, Hrole.
  unfold Monitor.script_mapping in Hmap. unfold Monitor.script_names in Hrole.
  repeat (apply elem_of_cons in Hmap as [[= -> ->]|Hmap];
          [first [ rewrite H1, Hrun in Hzero | rewrite H2, Hrun in Hzero
                 | rewrite H3, Hrun in Hzero | rewrite H4, Hrun in Hzero ]; done|]).
  by apply elem_of_nil in Hmap.
Qed.

(** ** Backup job *)

Lemma remove_sublist (filename : string) (dir : list Backup.File) :
  Backup.remove filename dir `sublist_of` dir.
Proof.
  unfold Backup.remove. induction dir as [|f dir IH]; simpl; [done|].
  destruct (negb _); [by apply sublist_skip | by apply sublist_cons].
Qed.

Lemma remove_elem (filename : string) (dir : list Backup.File) (f : Backup.File) :
  f ∈ Backup.remove filename dir ↔ f ∈ dir ∧ Backup.name f ≠ filename.
Proof.
  unfold Backup.remove. rewrite list_elem_of_In, filter_In, <- list_elem_of_In.
  rewrite negb_true_iff. split; intros [H1 H2]; (split; [done|]).
  - by apply String.eqb_neq.
  - by apply String.eqb_neq.
Qed.

Lemma cleanup_loop_spec (cutoff : Z) (removable : string → bool)
    (listing : list Backup.File) :
  ∀ dir,
    let dir' := Backup.cleanup_loop cutoff removable listing dir in
    let old g := Backup.is_backup (Backup.name g) && (Backup.mtime g <? cutoff) in
    dir' `sublist_of` dir ∧
    (∀ f, f ∈ dir →
          (∀ g, g ∈ listing → Backup.name g = Backup.name f → old g = false) →
          f ∈ dir') ∧
    ((∀ g, g ∈ listing → removable (Backup.name g) = true) →
     ∀ f g, f ∈ dir' → g ∈ listing → Backup.name g = Backup.name f → old g = false).
Proof.
  induction listing as [|g rest IH]; intros dir; simpl.
  { split; [done|]. split; [done|]. intros _ f g _ Hg. by apply elem_of_nil in Hg. }
  destruct (Backup.is_backup (Backup.name g) && (Backup.mtime g <? cutoff)) eqn:Hold.
  - destruct (removable (Backup.name g)) eqn:Hrm.
    + destruct (IH (Backup.remove (Backup.name g) dir)) as (Hsub & Hsafe & Hall).
      split; [etrans; [exact Hsub | apply remove_sublist]|].
      split.
      * intros f Hf Hkeep. apply Hsafe.
        -- apply remove_elem. split; [done|]. intros Heq.
           specialize (Hkeep g ltac:(by left) (eq_sym Heq)). congruence.
        -- intros g' Hg'. apply Hkeep. by right.
      * intros Hrem f g' Hf Hg' Hname.
        apply elem_of_cons in Hg' as [->|Hg'].
        -- exfalso. pose proof (elem_of_sublist _ _ f Hf Hsub) as Hf'.
           apply remove_elem in Hf' as [_ Hne]. congruence.
        -- eapply Hall; [|exact Hf|exact Hg'|exact Hname].
           intros x Hx. apply Hrem. by right.
    + split; [done|]. split; [done|].
      intros Hrem. specialize (Hrem g ltac:(by left)). congruence.
  - destruct (IH dir) as (Hsub & Hsafe & Hall).
    split; [exact Hsub|]. split.
    + intros f Hf Hkeep. apply Hsafe; [done|]. intros g' Hg'. apply Hkeep. by right.
    + intros Hrem f g' Hf Hg' Hname. apply elem_of_cons in Hg' as [->|Hg']; [done|].
      eapply Hall; [|exact Hf|exact Hg'|exact Hname].
      intros x Hx. apply Hrem. by right.
Qed.

Lemma unique_name (dir : list Backup.File) (f g : Backup.File) :
  NoDup (map Backup.name dir) → f ∈ dir → g ∈ dir → Backup.name g = Backup.name f → g = f.
Proof.
  intros Hnd Hf Hg Hname.
  apply list_elem_of_lookup_1 in Hf as [i Hi]. apply list_elem_of_lookup_1 in Hg as [j Hj].
  assert (i = j) as ->.
  { eapply NoDup_lookup; [exact Hnd| |].
    - by rewrite list_lookup_fmap, Hi.
    - rewrite list_lookup_fmap, Hj. simpl. by rewrite Hname. }
  congruence.
Qed.

(** X26. Cleaning up only ever deletes old backups: in a directory
    whose file names are distinct, every file that is not a backup
    archive by its name, and every backup archive modified at or after
    the cut-off of [keep_days] days before now, is still there
    afterwards, and nothing is added or reordered.  When every file can
    be removed, no backup archive older than the cut-off is left. *)
Theorem cleanup_removes_only_old_backups (now keep_days : Z) (removable : string → bool)
    (dir : list Backup.File) :
  NoDup (map Backup.name dir) →
  let dir' := Backup.cleanup_old_backups now keep_days removable dir in
  let cutoff := now - keep_days * Backup.day in
  dir' `sublist_of` dir ∧
  (∀ f, f ∈ dir →
        Backup.is_backup (Backup.name f) = false ∨ cutoff <= Backup.mtime f →
        f ∈ dir') ∧
  ((∀ f, f ∈ dir → removable (Backup.name f) = true) →
   ∀ f, f ∈ dir' →
        Backup.is_backup (Backup.name f) = false ∨ cutoff <= Backup.mtime f).
Proof.
  intros Hnd dir' cutoff. subst dir'. unfold Backup.cleanup_old_backups. fold cutoff.
  destruct (cleanup_loop_spec cutoff removable dir dir) as (Hsub & Hsafe & Hall).
  split; [exact Hsub|]. split.
  - intros f Hf Hkeep. apply Hsafe; [done|]. intros g Hg Hname.
    rewrite (unique_name dir f g Hnd Hf Hg Hname).
    destruct Hkeep as [->|Hnew]; [done|].
    apply andb_false_iff. right. by apply Z.ltb_ge.
  - intros Hrem f Hf.
    assert (f ∈ dir) as Hin by (eapply elem_of_sublist; [exact Hf | exact Hsub]).
    specialize (Hall Hrem f f Hf Hin eq_refl).
    apply andb_false_iff in Hall as [H|H]; [by left|]. right. by apply Z.ltb_ge.
Qed.

Lemma cleanup_keeps_young (now : Z) (removable : string → bool)
    (dir : list Backup.File) :
  NoDup (map Backup.name dir) →
  ∀ f, f ∈ dir →
       Backup.is_backup (Backup.name f) = false ∨ now - 30 * Backup.day <= Backup.mtime f →
       f ∈ Backup.cleanup_old_backups now 30 removable dir.
Proof.
  intros Hnd f Hf Hkeep. unfold Backup.cleanup_old_backups.
  destruct (cleanup_loop_spec (now - 30 * Backup.day) removable dir dir) as (_ & Hsafe & _).
  apply Hsafe; [done|]. intros g Hg Hname.
  rewrite (unique_name dir f g Hnd Hf Hg Hname).
  destruct Hkeep as [->|Hnew]; [done|].
  apply andb_false_iff. right. by apply Z.ltb_ge.
Qed.

Lemma create_local_backup_spec (now : Z) (stamp : string) (zip : Backup.Zip)
    (dir : list Backup.File) :
  let backup_filename := String.append "market_data_backup_" (String.append stamp ".zip") in
  let res := Backup.create_local_backup now stamp zip dir in
  (∀ f, f ∈ dir → Backup.name f ≠ backup_filename → f ∈ fst res) ∧
  (NoDup (map Backup.name dir) → NoDup (map Backup.name (fst res))) ∧
  (∀ path, snd res = Some path →
           zip = Backup.Written ∧ path = backup_filename ∧
           {| Backup.name := backup_filename; Backup.mtime := now;
              Backup.complete := true |} ∈ fst res).
Proof.
  intros backup_filename res. subst res. unfold Backup.create_local_backup.
  fold backup_filename.
  assert (NoDup (map Backup.name dir) →
          ∀ c, NoDup (map Backup.name
                        (Backup.remove backup_filename dir ++
                         [{| Backup.name := backup_filename; Backup.mtime := now;
                             Backup.complete := c |}]))) as Hnd.
  { intros Hnd c. rewrite map_app. apply NoDup_app. split.
    - eapply sublist_NoDup; [exact Hnd|]. apply fmap_sublist, remove_sublist.
    - split; [|simpl; apply NoDup_singleton].
      intros x Hx Hx'. simpl in Hx'. apply list_elem_of_singleton in Hx' as ->.
      apply list_elem_of_fmap in Hx as (f & Hname & Hf).
      apply remove_elem in Hf as [_ Hne]. congruence. }
  destruct zip; simpl.
  - split; [intros f Hf Hne; apply elem_of_app; left; by apply remove_elem|].
    split; [intros H; by apply Hnd|].
    intros path [= <-]. split; [done|]. split; [done|]. apply elem_of_app. right. by left.
  - split; [done|]. split; [done|]. done.
  - split; [intros f Hf Hne; apply elem_of_app; left; by apply remove_elem|].
    split; [intros H; by apply Hnd|]. done.
Qed.

Lemma upload_spec (remote : Backup.Remote) (dir : list Backup.File) (path : string)
    (uploads : list (Z * string)) :
  let res := Backup.upload_to_pcloud remote dir path uploads in
  (snd res = false → fst res = uploads) ∧
  (snd res = true → ∃ folder, fst res = (uploads ++ [(folder, path)])%list ∧
                              Backup.uploadfile remote folder path = Some true).
Proof.
  intros res. subst res. unfold Backup.upload_to_pcloud.
  destruct (Backup.listfolder remote) as [contents|]; [|done].
  match goal with |- context [match ?t with Some _ => _ | None => _ end] =>
    destruct t as [folder|] end; [|done].
  destruct (existsb _ dir); [|done].
  destruct (Backup.uploadfile remote folder path) as [[|]|] eqn:Hup; simpl; try done.
  split; [done|]. intros _. eauto.
Qed.

(** X27. A backup run deletes old archives only after the new archive
    has been written and uploaded: when the run reports failure, every
    file of the backup directory other than one with the new archive's
    name is still there and nothing was uploaded; when it reports
    success, the archive was written with the copy of the database,
    exactly one upload was made, of the new archive, the clean-up left
    alone every file that is no backup archive or is younger than 30
    days, and the new archive itself is still there as long as the
    clean-up starts within 30 days of writing it. *)
Theorem backup_deletes_only_after_upload (now : Z) (stamp : string) (zip : Backup.Zip)
    (remote : Backup.Remote) (later : Z) (removable : string → bool)
    (dir : list Backup.File) (uploads : list (Z * string)) :
  NoDup (map Backup.name dir) →
  let backup_filename := String.append "market_data_backup_" (String.append stamp ".zip") in
  let new := {| Backup.name := backup_filename; Backup.mtime := now;
                Backup.complete := true |} in
  let res := Backup.perform_backup now stamp zip remote later removable dir uploads in
  let dir' := fst (fst res) in
  let uploads' := snd (fst res) in
  (snd res = false →
   uploads' = uploads ∧
   ∀ f, f ∈ dir → Backup.name f ≠ backup_filename → f ∈ dir') ∧
  (snd res = true →
   zip = Backup.Written ∧
   (∃ folder, uploads' = (uploads ++ [(folder, backup_filename)])%list) ∧
   (∀ f, f ∈ dir → Backup.name f ≠ backup_filename →
         Backup.is_backup (Backup.name f) = false ∨ later - 30 * Backup.day <= Backup.mtime f →
         f ∈ dir') ∧
   (later - 30 * Backup.day <= now → new ∈ dir')).
Proof.
  intros Hnd backup_filename new res dir' uploads'. subst dir' uploads' res.
  unfold Backup.perform_backup.
  pose proof (create_local_backup_spec now stamp zip dir) as (Hkeep & Hnd1 & Hnew).
  fold backup_filename in Hkeep, Hnew.
  destruct (Backup.create_local_backup now stamp zip dir) as [dir1 [path|]]; simpl in *.
  2: { split; [|done]. intros _. split; [done|]. exact Hkeep. }
  destruct (Hnew path eq_refl) as (-> & -> & Hin).
  pose proof (upload_spec remote dir1 backup_filename uploads) as [Hfail Hok].
  destruct (Backup.upload_to_pcloud remote dir1 backup_filename uploads) as [uploads1 [|]];
    simpl in *.
  - split; [done|]. intros _.
    destruct (Hok eq_refl) as (folder & -> & _).
    pose proof (cleanup_keeps_young later removable dir1 (Hnd1 Hnd))
      as Hsafe.
    split; [done|]. split; [eauto|]. split.
    + intros f Hf Hne Hwhy. apply Hsafe; [by apply Hkeep | exact Hwhy].
    + intros Hyoung. apply Hsafe; [exact Hin|]. right. exact Hyoung.
  - split; [|done]. intros _. split; [by apply Hfail|]. exact Hkeep.
Qed.

(** ** News collector *)

Lemma same_key_spec (a b : NewsRow) :
  Collector.same_key a b = true ↔ Collector.key a = Collector.key b.
Proof.
  unfold Collector.same_key, Collector.key. rewrite !andb_true_iff, !String.eqb_eq.
  split; [intros [[-> ->] ->]; done | intros [= -> -> ->]; done].
Qed.

Lemma foldr_max_ge (k : Z) (ks : list Z) (x : Z) :
  x ∈ k :: ks → x <= foldr Z.max k ks.
Proof.
  induction ks as [|a ks IH]; simpl.
  - intros Hx. apply list_elem_of_singleton in Hx as ->. lia.
  - intros Hx. apply elem_of_cons in Hx as [->|Hx].
    + assert (k <= foldr Z.max k ks) by (apply IH; by left). lia.
    + apply elem_of_cons in Hx as [->|Hx]; [lia|].
      assert (x <= foldr Z.max k ks) by (apply IH; by right). lia.
Qed.

Lemma next_rowid_above (m : gmap Z NewsRow) (i : Z) :
  is_Some (m !! i) → i < Collector.next_rowid m.
Proof.
  intros [x Hx]. unfold Collector.next_rowid.
  assert (i ∈ map fst (map_to_list m)) as Hin.
  { apply list_elem_of_fmap. exists (i, x). split; [done|]. by apply elem_of_map_to_list. }
  destruct (map fst (map_to_list m)) as [|k ks]; [by apply elem_of_nil in Hin|].
  pose proof (foldr_max_ge k ks i Hin). lia.
Qed.

Lemma key_present_spec (m : gmap Z NewsRow) (r : NewsRow) :
  existsb (λ kr, Collector.same_key (snd kr) r) (map_to_list m) = true ↔
  ∃ i x, m !! i = Some x ∧ Collector.key x = Collector.key r.
Proof.
  rewrite existsb_exists. split.
  - intros ([i x] & Hin & Hk). apply list_elem_of_In, elem_of_map_to_list in Hin.
    exists i, x. split; [done|]. by apply same_key_spec.
  - intros (i & x & Hx & Hk). exists (i, x). split.
    + by apply list_elem_of_In, elem_of_map_to_list.
    + by apply same_key_spec.
Qed.

(** What one [INSERT OR IGNORE] does. *)
Lemma insert_or_ignore_spec (m : gmap Z NewsRow) (r : NewsRow) :
  let m' := Collector.insert_or_ignore m r in
  (∀ i x, m !! i = Some x → m' !! i = Some x) ∧
  (∀ i x, m' !! i = Some x →
          m !! i = Some x ∨
          (m !! i = None ∧ x = r ∧ (∀ j, is_Some (m !! j) → j < i) ∧
           ∀ j y, m !! j = Some y → Collector.key y ≠ Collector.key r)) ∧
  (∃ i x, m' !! i = Some x ∧ Collector.key x = Collector.key r) ∧
  (Collector.unique_keys m → Collector.unique_keys m').
Proof.
  intros m'. subst m'. unfold Collector.insert_or_ignore.
  destruct (existsb _ _) eqn:Hex.
  { split; [done|]. split; [by left|]. split; [by apply key_present_spec | done]. }
  assert (∀ j y, m !! j = Some y → Collector.key y ≠ Collector.key r) as Hfresh.
  { intros j y Hy Hk.
    assert (existsb (λ kr, Collector.same_key (snd kr) r) (map_to_list m) = true) as H
      by (apply key_present_spec; eauto).
    congruence. }
  assert (m !! Collector.next_rowid m = None) as Hnone.
  { destruct (m !! Collector.next_rowid m) eqn:E; [|done].
    assert (Collector.next_rowid m < Collector.next_rowid m)
      by (apply next_rowid_above; eauto). lia. }
  split.
  { intros i x Hx. rewrite lookup_insert_ne; [done|]. intros <-. congruence. }
  split.
  { intros i x Hx. destruct (decide (i = Collector.next_rowid m)) as [->|Hne].
    - rewrite lookup_insert_eq in Hx. injection Hx as <-. right.
      split; [done|]. split; [done|]. split; [apply next_rowid_above | exact Hfresh].
    - rewrite lookup_insert_ne in Hx by done. by left. }
  split.
  { exists (Collector.next_rowid m), r. by rewrite lookup_insert_eq. }
  intros Huniq i j a b Ha Hb Hk.
  destruct (decide (i = Collector.next_rowid m)) as [->|Hi];
    destruct (decide (j = Collector.next_rowid m)) as [->|Hj]; [done| | |].
  - rewrite lookup_insert_eq in Ha. injection Ha as <-.
    rewrite lookup_insert_ne in Hb by done. exfalso. by apply (Hfresh j b Hb).
  - rewrite lookup_insert_eq in Hb. injection Hb as <-.
    rewrite lookup_insert_ne in Ha by done. exfalso. by apply (Hfresh i a Ha).
  - rewrite lookup_insert_ne in Ha, Hb by done. by apply (Huniq i j a b).
Qed.

(** What the loop of [fetch_news] does to the table. *)
Lemma insert_rows_spec (rows : list NewsRow) :
  ∀ m, let m' := fold_left Collector.insert_or_ignore rows m in
    (∀ i x, m !! i = Some x → m' !! i = Some x) ∧
    (∀ i x, m !! i = None → m' !! i = Some x →
            x ∈ rows ∧ (∀ j, is_Some (m !! j) → j < i) ∧
            ∀ j y, m !! j = Some y → Collector.key y ≠ Collector.key x) ∧
    (∀ r, r ∈ rows → ∃ i x, m' !! i = Some x ∧ Collector.key x = Collector.key r) ∧
    (Collector.unique_keys m → Collector.unique_keys m').
Proof.
  induction rows as [|r rest IH]; intros m; simpl.
  { split; [done|]. split; [intros i x H1 H2; congruence|].
    split; [intros r Hr; by apply elem_of_nil in Hr | done]. }
  destruct (insert_or_ignore_spec m r) as (K1 & N1 & P1 & U1).
  destruct (IH (Collector.insert_or_ignore m r)) as (K2 & N2 & P2 & U2).
  split; [intros i x Hx; by apply K2, K1|].
  split.
  { intros i x Hnone Hx.
    destruct (Collector.insert_or_ignore m r !! i) as [y|] eqn:Hmid.
    - destruct (N1 i y Hmid) as [Hold|(_ & -> & Habove & Hfresh)]; [congruence|].
      rewrite (K2 i r Hmid) in Hx. injection Hx as <-.
      split; [by left|]. split; [exact Habove | exact Hfresh].
    - destruct (N2 i x Hmid Hx) as (Hin & Habove & Hfresh).
      split; [by right|]. split.
      + intros j [y Hy]. apply Habove. rewrite (K1 j y Hy). eauto.
      + intros j y Hy. apply (Hfresh j y). by apply K1. }
  split.
  { intros r' Hr'. apply elem_of_cons in Hr' as [->|Hr']; [|by apply P2].
    destruct P1 as (i & x & Hx & Hk). exists i, x. split; [by apply K2 | done]. }
  intros Hu. by apply U2, U1.
Qed.

Lemma insert_rows_ignored (rows : list NewsRow) (m : gmap Z NewsRow) :
  (∀ r, r ∈ rows → ∃ i x, m !! i = Some x ∧ Collector.key x = Collector.key r) →
  fold_left Collector.insert_or_ignore rows m = m.
Proof.
  induction rows as [|r rest IH]; intros Hall; simpl; [done|].
  assert (Collector.insert_or_ignore m r = m) as ->.
  { unfold Collector.insert_or_ignore.
    rewrite (proj2 (key_present_spec m r)); [done|]. apply Hall. by left. }
  apply IH. intros x Hx. apply Hall. by right.
Qed.

Lemma next_rowid_positive (m : gmap Z NewsRow) :
  (∀ j, is_Some (m !! j) → 0 < j) → 0 < Collector.next_rowid m.
Proof.
  intros Hpos. unfold Collector.next_rowid.
  destruct (map fst (map_to_list m)) as [|k ks] eqn:Hkeys; [lia|].
  assert (k ∈ map fst (map_to_list m)) as Hk by (rewrite Hkeys; by left).
  apply list_elem_of_fmap in Hk as ([k' x] & -> & Hin).
  apply elem_of_map_to_list in Hin. simpl.
  assert (0 < k') by (apply Hpos; eauto).
  assert (k' <= foldr Z.max k' ks) by (apply foldr_max_ge; by left). lia.
Qed.

Lemma insert_rows_positive (rows : list NewsRow) :
  ∀ m, (∀ j, is_Some (m !! j) → 0 < j) →
       ∀ j, is_Some (fold_left Collector.insert_or_ignore rows m !! j) → 0 < j.
Proof.
  induction rows as [|r rest IH]; intros m Hpos; simpl; [exact Hpos|].
  apply IH. intros j [x Hx]. unfold Collector.insert_or_ignore in Hx.
  destruct (existsb _ _); [apply Hpos; eauto|].
  destruct (decide (j = Collector.next_rowid m)) as [->|Hne].
  - by apply next_rowid_positive.
  - rewrite lookup_insert_ne in Hx by done. apply Hpos. eauto.
Qed.

(** The loop of [fetch_news] inserts the rows of the items up to the
    first one whose time cannot be rendered, whatever the table. *)
Lemma insert_items_rows (local_time : Z → option string) (sym : string)
    (items : list Collector.Item) :
  ∃ rows ok,
    (∀ m, Collector.insert_items local_time sym items m =
          (fold_left Collector.insert_or_ignore rows m, ok)) ∧
    (∀ r, r ∈ rows → ∃ item, item ∈ items ∧ Collector.row_of local_time sym item = Some r) ∧
    (ok = true →
     ∀ item, item ∈ items →
             ∃ r, r ∈ rows ∧ Collector.row_of local_time sym item = Some r) ∧
    (ok = false → ∃ item, item ∈ items ∧ Collector.row_of local_time sym item = None).
Proof.
  induction items as [|item rest IH]; simpl.
  { exists [], true. split; [done|].
    split; [intros r Hr; by apply elem_of_nil in Hr|].
    split; [intros _ item Hi; by apply elem_of_nil in Hi | done]. }
  destruct IH as (rows & ok & Hrun & Hfrom & Hall & Hfail).
  destruct (Collector.row_of local_time sym item) as [r|] eqn:Hrow.
  - exists (r :: rows), ok. split; [intros m; simpl; apply Hrun|]. split.
    { intros x Hx. apply elem_of_cons in Hx as [->|Hx].
      - exists item. split; [by left | done].
      - destruct (Hfrom x Hx) as (it & Hit & Hr). exists it. split; [by right | done]. }
    split.
    { intros Hok it Hit. apply elem_of_cons in Hit as [->|Hit].
      - exists r. split; [by left | done].
      - destruct (Hall Hok it Hit) as (x & Hx & Hr). exists x. split; [by right | done]. }
    intros Hno. destruct (Hfail Hno) as (it & Hit & Hr). exists it. split; [by right | done].
  - exists [], false. split; [done|].
    split; [intros r Hr; by apply elem_of_nil in Hr|].
    split; [done|]. intros _. exists item. split; [by left | done].
Qed.

Lemma row_of_symbol (local_time : Z → option string) (sym : string)
    (item : Collector.Item) (r : NewsRow) :
  Collector.row_of local_time sym item = Some r → nd_symbol r = sym.
Proof.
  unfold Collector.row_of. intros H. apply bind_Some in H as (ts & _ & [= <-]). done.
Qed.

(** What a call of [fetch_news] is, seen from the tables. *)
Lemma fetch_news_cases (local_time : Z → option string)
    (news : option (list Collector.Item)) (sym : string) (c : Collector.Conn) :
  let res := Collector.fetch_news local_time news sym c in
  (res = (c, false)) ∨
  ∃ items rows,
    news = Some items ∧ db_up (Collector.store c) = true ∧
    (∀ r, r ∈ rows → ∃ item, item ∈ items ∧ Collector.row_of local_time sym item = Some r) ∧
    Collector.view (fst res) = fold_left Collector.insert_or_ignore rows (Collector.view c) ∧
    (∀ m, Collector.insert_items local_time sym items m =
          (fold_left Collector.insert_or_ignore rows m, snd res)) ∧
    (snd res = true →
     Collector.store (fst res) =
       set_news_data (Collector.view (fst res)) (Collector.store c) ∧
     ∀ item, item ∈ items →
             ∃ r, r ∈ rows ∧ Collector.row_of local_time sym item = Some r) ∧
    (snd res = false → Collector.store (fst res) = Collector.store c).
Proof.
  intros res. subst res. unfold Collector.fetch_news.
  destruct news as [[|item0 items0]|]; [by left| |by left].
  destruct (db_up (Collector.store c)) eqn:Hup; [|by left].
  right. exists (item0 :: items0).
  destruct (insert_items_rows local_time sym (item0 :: items0))
    as (rows & ok & Hrun & Hfrom & Hall & _).
  exists rows. rewrite (Hrun (Collector.view c)).
  split; [done|]. split; [done|]. split; [exact Hfrom|].
  destruct ok; simpl; (split; [done|]); (split; [exact Hrun|]); split; try done.
  intros _. split; [done|]. by apply Hall.
Qed.

Lemma connect_sound (d : Database) : Collector.sound (Collector.connect d).
Proof. by exists []. Qed.

Lemma fetch_news_sound (local_time : Z → option string)
    (news : option (list Collector.Item)) (sym : string) (c : Collector.Conn) :
  Collector.sound c → Collector.sound (fst (Collector.fetch_news local_time news sym c)).
Proof.
  intros [rows0 Hview].
  destruct (fetch_news_cases local_time news sym c)
    as [->|(items & rows & _ & _ & _ & Hnew & _ & Hok & Hfail)]; [by exists rows0|].
  destruct (snd (Collector.fetch_news local_time news sym c)).
  - exists []. destruct (Hok eq_refl) as [-> _]. done.
  - exists (rows0 ++ rows)%list. rewrite (Hfail eq_refl), Hnew, Hview.
    symmetry. apply fold_left_app.
Qed.

(** X28. Fetching news only adds rows.  On a connection as [connect] and
    earlier calls leave it: every committed news row keeps its row id and
    content, every row pending on the connection stays, and the other
    tables are untouched; a row the call makes visible to everyone either
    was pending on the connection, left there by an earlier call that
    failed, or comes from one of the fetched items, carries the symbol
    asked for, has a primary key (timestamp, symbol, url) that no row the
    connection saw had, and has a row id above every id the connection
    saw; no two rows share a primary key afterwards if none did before.
    When the call reports success, all the connection sees is committed
    and the key of every fetched item is in the table; when it reports
    failure, the committed store is as it was. *)
Theorem fetch_news_only_adds (local_time : Z → option string)
    (news : option (list Collector.Item)) (sym : string) (c : Collector.Conn) :
  Collector.sound c →
  let res := Collector.fetch_news local_time news sym c in
  let c' := fst res in
  let d := Collector.store c in
  let d' := Collector.store c' in
  Collector.sound c' ∧
  (∀ i r, news_data d !! i = Some r → news_data d' !! i = Some r) ∧
  (∀ i r, Collector.view c !! i = Some r → Collector.view c' !! i = Some r) ∧
  (∀ i r, news_data d !! i = None → news_data d' !! i = Some r →
          Collector.view c !! i = Some r ∨
          ((∃ items item, news = Some items ∧ item ∈ items ∧
                          Collector.row_of local_time sym item = Some r) ∧
           nd_symbol r = sym ∧
           (∀ j, is_Some (Collector.view c !! j) → j < i) ∧
           ∀ j y, Collector.view c !! j = Some y → Collector.key y ≠ Collector.key r)) ∧
  (Collector.unique_keys (Collector.view c) →
   Collector.unique_keys (Collector.view c') ∧ Collector.unique_keys (news_data d')) ∧
  (snd res = true →
   news_data d' = Collector.view c' ∧
   ∀ items item, news = Some items → item ∈ items →
     ∃ x i r, Collector.row_of local_time sym item = Some x ∧
              news_data d' !! i = Some r ∧ Collector.key r = Collector.key x) ∧
  (snd res = false → d' = d) ∧
  db_up d' = db_up d ∧ sentiment_results d' = sentiment_results d ∧
  technical_analysis d' = technical_analysis d ∧
  trading_signals d' = trading_signals d ∧ system_status d' = system_status d.
Proof.
  intros Hsound res c' d d'. subst d d'.
  assert (Collector.sound c') as Hsound' by (by apply fetch_news_sound).
  split; [exact Hsound'|].
  destruct Hsound as [rows0 Hview].
  destruct (insert_rows_spec rows0 (news_data (Collector.store c))) as (K0 & _ & _ & _).
  rewrite <- Hview in K0.
  assert (Collector.unique_keys (Collector.view c') → Collector.unique_keys (news_data (Collector.store c')))
    as Hsub.
  { destruct Hsound' as [rows1 Hview1].
    destruct (insert_rows_spec rows1 (news_data (Collector.store c'))) as (K1 & _ & _ & _).
    rewrite <- Hview1 in K1.
    intros Hu i j a b Ha Hb. apply Hu; by apply K1. }
  destruct (fetch_news_cases local_time news sym c)
    as [Hsame|(items & rows & Hnews & Hup & Hfrom & Hnew & _ & Hok & Hfail)];
    fold res in Hsame || fold res c' in Hnew, Hok, Hfail.
  { subst c'. rewrite Hsame in Hsub |- *. simpl in Hsub |- *.
    split; [done|]. split; [done|]. split; [intros i r H1 H2; congruence|].
    split; [intros Hu; split; [done | by apply Hsub]|].
    split; [done|]. done. }
  destruct (insert_rows_spec rows (Collector.view c)) as (K & N & P & U).
  rewrite <- Hnew in K, N, P, U.
  assert (∀ i r, news_data (Collector.store c') !! i = Some r → Collector.view c' !! i = Some r) as Hsee.
  { intros i r Hr. destruct (snd res) eqn:Hres.
    - destruct (Hok eq_refl) as [Hst _]. by rewrite Hst in Hr.
    - rewrite (Hfail eq_refl) in Hr. by apply K, K0. }
  split.
  { intros i r Hr. destruct (snd res) eqn:Hres.
    - destruct (Hok eq_refl) as [Hst _]. rewrite Hst. simpl. by apply K, K0.
    - by rewrite (Hfail eq_refl). }
  split; [exact K|]. split.
  { intros i r Hnone Hr. apply Hsee in Hr.
    destruct (Collector.view c !! i) as [x|] eqn:Hold.
    - left. rewrite (K i x Hold) in Hr. by rewrite Hr.
    - right. destruct (N i r Hold Hr) as (Hin & Habove & Hfresh).
      destruct (Hfrom r Hin) as (item & Hitem & Hrow).
      split; [exists items, item; done|].
      split; [by eapply row_of_symbol|]. split; [exact Habove | exact Hfresh]. }
  split; [intros Hu; split; [by apply U | by apply Hsub, U]|].
  split.
  { intros Hres. destruct (Hok Hres) as [Hst Hall].
    split; [by rewrite Hst|].
    intros items' item Heq Hitem. rewrite Hnews in Heq. injection Heq as <-.
    destruct (Hall item Hitem) as (x & Hx & Hrow).
    destruct (P x Hx) as (i & r & Hr & Hk).
    exists x, i, r. split; [done|]. split; [|done]. by rewrite Hst. }
  split; [exact Hfail|].
  destruct (snd res) eqn:Hres.
  - destruct (Hok eq_refl) as [Hst _]. rewrite Hst. done.
  - rewrite (Hfail eq_refl). done.
Qed.

(** X29. Fetching the same news again changes nothing: a second call
    with the answer the provider gave the first time leaves the store,
    and what is pending on the connection, as the first call left them,
    so repeated collection creates no duplicates. *)
Theorem fetch_news_idempotent (local_time : Z → option string)
    (news : option (list Collector.Item)) (sym : string) (c : Collector.Conn) :
  let c' := fst (Collector.fetch_news local_time news sym c) in
  fst (Collector.fetch_news local_time news sym c') = c'.
Proof.
  intros c'. subst c'.
  destruct (fetch_news_cases local_time news sym c)
    as [Hsame|(items & rows & Hnews & Hup & Hfrom & Hnew & Hrun & Hok & Hfail)].
  { rewrite Hsame. simpl. by rewrite Hsame. }
  set (c' := fst (Collector.fetch_news local_time news sym c)) in *.
  assert (fold_left Collector.insert_or_ignore rows (Collector.view c') = Collector.view c')
    as Hfix.
  { apply insert_rows_ignored. rewrite Hnew.
    by destruct (insert_rows_spec rows (Collector.view c)) as (_ & _ & P & _). }
  assert (db_up (Collector.store c') = true) as Hup'.
  { destruct (snd (Collector.fetch_news local_time news sym c)) eqn:Hres.
    - destruct (Hok eq_refl) as [-> _]. done.
    - by rewrite (Hfail eq_refl). }
  unfold Collector.fetch_news at 1. rewrite Hnews.
  destruct items as [|item0 items0].
  { subst c'. unfold Collector.fetch_news in Hup' |- *. by rewrite Hnews. }
  rewrite Hup', Hrun, Hfix.
  destruct (snd (Collector.fetch_news local_time news sym c)) eqn:Hres.
  - destruct (Hok eq_refl) as [Hst _]. simpl. unfold Collector.commit. simpl.
    destruct c' as [st' v']. simpl in *. rewrite Hst. done.
  - simpl. by destruct c'.
Qed.

(** X30. What the collector adds, the processor picks up: when the row
    ids in use are positive and the processor's checkpoint is 0 or the
    id of a stored news row, every row a news fetch adds to a reachable
    store, fetched by this call or left pending by an earlier one, is
    among the items the processor's next fetch returns. *)
Theorem collected_news_reaches_processor (local_time : Z → option string)
    (news : option (list Collector.Item)) (sym : string)
    (c : Collector.Conn) (st : Processor.State) :
  Collector.sound c →
  Collector.store c = Processor.db st →
  (∀ j, is_Some (news_data (Processor.db st) !! j) → 0 < j) →
  Processor.last_news_id st = 0 ∨
  is_Some (news_data (Processor.db st) !! Processor.last_news_id st) →
  db_up (Processor.db st) = true →
  let d' := Collector.store (fst (Collector.fetch_news local_time news sym c)) in
  ∀ i, news_data (Processor.db st) !! i = None →
       is_Some (news_data d' !! i) →
       i ∈ map Processor.ni_id (Processor.fetch_unprocessed_news (Processor.set_db d' st)).
Proof.
  intros [rows0 Hview] Hst Hpos Hck Hup d' i Hnone [r Hr].
  destruct (fetch_news_cases local_time news sym c)
    as [Hsame|(items & rows & _ & _ & _ & Hnew & _ & Hok & Hfail)].
  { subst d'. rewrite Hsame in Hr. simpl in Hr. rewrite Hst in Hr. congruence. }
  destruct (snd (Collector.fetch_news local_time news sym c)) eqn:Hres.
  2: { subst d'. rewrite (Hfail eq_refl), Hst in Hr. congruence. }
  destruct (Hok eq_refl) as [Hd' _]. fold d' in Hd'.
  rewrite Hd' in Hr. simpl in Hr.
  rewrite Hnew, Hview, <- fold_left_app, Hst in Hr.
  apply fetch_ids. simpl. rewrite Hd'. simpl. rewrite Hst.
  split; [exact Hup|]. split.
  { rewrite Hnew, Hview, <- fold_left_app, Hst. eauto. }
  destruct (insert_rows_spec (rows0 ++ rows) (news_data (Processor.db st))) as (_ & N & _).
  destruct (N i r Hnone Hr) as (_ & Habove & _).
  destruct Hck as [->|Hkey]; [|by apply Habove].
  apply (insert_rows_positive (rows0 ++ rows) (news_data (Processor.db st)) Hpos). eauto.
Qed.

(** ** Instances *)

Lemma generate_signals_shape_witness :
  ∃ sg,
    sg ∈ Fusion.generate_signals Sample.market_db 0.7 "2024-03-01 09:30:00" ["AAPL"; "MSFT"] ∧
    (0.7 <= Fusion.sig_confidence sg)%Q.
Proof.
  eexists.
  assert (_ ∈ Fusion.generate_signals Sample.market_db 0.7 "2024-03-01 09:30:00"
                ["AAPL"; "MSFT"]) as Hsg by (vm_compute; left).
  split; [exact Hsg|].
  exact (proj2 (generate_signals_shape Sample.market_db 0.7 "2024-03-01 09:30:00"
                  ["AAPL"; "MSFT"]) _ Hsg).
Defined.

Lemma analysis_reaches_fusion_witness :
  let d' := Technical.save_analysis_results Sample.market_db
              (Technical.analyze_symbol Scenario.market "2024-03-01 09:30:00" "AAPL") in
  Scenario.market "AAPL" = Some (60%nat, Scenario.rising) ∧
  Fusion.overall_signal <$> Fusion._get_latest_technical_analysis d' "AAPL" = Some "BUY".
Proof.
  intros d'.
  assert (Scenario.market "AAPL" = Some (60%nat, Scenario.rising)) as Hm by reflexivity.
  split; [exact Hm|].
  assert (∀ r, r ∈ technical_analysis Sample.market_db → ta_symbol r = "AAPL" →
               String.ltb (ta_timestamp r) "2024-03-01 09:30:00" = true) as Hnew.
  { intros r Hr Hsym. simpl in Hr.
    repeat (apply elem_of_cons in Hr as [->|Hr]; [try reflexivity; discriminate Hsym|]).
    by apply elem_of_nil in Hr. }
  destruct (proj2 (analysis_reaches_fusion Scenario.market "2024-03-01 09:30:00" "AAPL"
                     Sample.market_db) 60%nat Scenario.rising Hm ltac:(lia) eq_refl Hnew)
    as [_ Hlatest].
  subst d'. rewrite Hlatest. vm_compute. reflexivity.
Defined.

Lemma technical_only_needs_four_votes_witness :
  let vote := Technical.overall (Technical.indicator_signals Scenario.rising) in
  fst vote ≠ "NEUTRAL" ∧
  ((Fusion.default_confidence_threshold <=
      snd (Fusion.combine (fst vote) (snd vote) "NEUTRAL" 0.5))%Q ↔
   4 <= Technical.count_votes (fst vote) (Technical.indicator_signals Scenario.rising)).
Proof.
  intros vote.
  assert (fst vote ≠ "NEUTRAL") as Hne by (vm_compute; discriminate).
  split; [exact Hne|].
  exact (technical_only_needs_four_votes Scenario.rising Hne).
Defined.

Lemma run_scores_ascending_witness :
  let st' := Processor.process_iteration Sample.never_fails 2
               "2024-03-01 10:00:00" "2024-03-01 09:00:00" [] Sample.fresh in
  3 ∈ Processor.scored_ids (Processor.new_events Sample.fresh st') ∧
  Processor.last_news_id Sample.fresh < 3 ∧
  is_Some (news_data (Processor.db Sample.fresh) !! 3).
Proof.
  intros st'.
  assert (3 ∈ Processor.scored_ids (Processor.new_events Sample.fresh st')) as Hin
    by (vm_compute; right; right; left).
  split; [exact Hin|].
  destruct (proj2 (run_scores_ascending Sample.never_fails 2 "2024-03-01 10:00:00"
                     "2024-03-01 09:00:00" [] Sample.fresh) 3 (or_introl Hin))
    as (H1 & _ & H3).
  split; [exact H1 | exact H3].
Defined.

Lemma shutdown_is_terminal_witness :
  let st := Processor.shutdown Sample.fresh in
  let st' := Processor.run Sample.never_fails
               [Processor.Resume;
                Processor.Iterate 10 "2024-03-01 10:00:00" "2024-03-01 09:00:00" []] st in
  Processor.shutdown_flag st = true ∧
  Processor.shutdown_flag st' = true ∧
  Processor.calls st' = Processor.calls st.
Proof.
  intros st st'.
  assert (Processor.shutdown_flag st = true) as Hflag by reflexivity.
  split; [exact Hflag|].
  destruct (shutdown_is_terminal Sample.never_fails
              [Processor.Resume;
               Processor.Iterate 10 "2024-03-01 10:00:00" "2024-03-01 09:00:00" []] st Hflag)
    as (H1 & _ & H3 & _).
  split; [exact H1 | exact H3].
Defined.

Lemma paused_until_resumed_witness :
  let st := Processor.handle_signal Processor.SIGINT Sample.fresh in
  let ops := [Processor.Iterate 10 "2024-03-01 10:00:00" "2024-03-01 09:00:00" [];
              Processor.FilesystemUp false] in
  Processor.pause_event st = true ∧
  Forall (λ op, op ≠ Processor.Resume) ops ∧
  Processor.log (Processor.run Sample.never_fails ops st) = Processor.log st.
Proof.
  intros st ops.
  assert (Processor.pause_event st = true) as Hp by reflexivity.
  assert (Forall (λ op, op ≠ Processor.Resume) ops) as Hall
    by (repeat constructor; discriminate).
  split; [exact Hp|]. split; [exact Hall|].
  by destruct (paused_until_resumed Sample.never_fails ops st Hp Hall) as (_ & H2 & _).
Defined.

Lemma tuesday_not_suppressed :
  ¬ Notify.suppressed Sample.weekend_policy Sample.tuesday.
Proof. intros [H|H]; vm_compute in H; discriminate. Qed.

Lemma failed_mark_sends_again_witness :
  let st := Sample.gate Sample.weekend_policy in
  let st' := Notify.send_notifications Scenario.store_refuses st in
  let st'' := Notify.send_notifications (Sample.outside Sample.tuesday true) st' in
  trading_signals (Notify.db st) !! 1 = Some Sample.pending_row ∧
  Notify.store_ok (Scenario.store_refuses 1) = false ∧
  1 ∈ Notify.sent_ids (Notify.new_events st st') ∧
  Notify.notified (Notify.db st') 1 = Some false ∧
  1 ∈ Notify.sent_ids (Notify.new_events st' st'').
Proof.
  intros st st' st''.
  assert (trading_signals (Notify.db st) !! 1 = Some Sample.pending_row) as Hrow
    by reflexivity.
  destruct (failed_mark_sends_again Scenario.store_refuses (Sample.outside Sample.tuesday true)
              st 1 Sample.pending_row eq_refl (or_introl eq_refl) pending_prices_known
              Hrow eq_refl eq_refl tuesday_not_suppressed eq_refl)
    as (H1 & H2 & _ & H4).
  split; [exact Hrow|]. split; [reflexivity|]. split; [exact H1|]. split; [exact H2|].
  exact (H4 eq_refl tuesday_not_suppressed).
Defined.

Lemma unobstructed_job_clears_witness :
  let st := Sample.gate Sample.weekend_policy in
  let st' := Notify.send_notifications (Sample.outside Sample.tuesday true) st in
  db_up (Notify.db st) = true ∧
  Notify.window_readable (Notify.config st) ∧
  Notify.get_unnotified_signals (Notify.db st') = [].
Proof.
  intros st st'.
  assert (Notify.window_readable (Notify.config st)) as Hr by (left; reflexivity).
  split; [reflexivity|]. split; [exact Hr|].
  refine (proj1 (proj2 (unobstructed_job_clears (Sample.outside Sample.tuesday true) st
                          eq_refl Hr pending_prices_known _))).
  intros i _. split; [reflexivity|]. split; [reflexivity|]. exact tuesday_not_suppressed.
Defined.

Lemma unreadable_window_blocks_all_witness :
  let st := Sample.gate Scenario.broken_window in
  Notify.quiet_hours_enabled (Notify.config st) = true ∧
  Notify.strptime_HM (Notify.quiet_hours_start (Notify.config st)) = None ∧
  Notify.run_gate [Sample.outside Sample.tuesday true; Sample.outside Sample.saturday true] st =
  st.
Proof.
  intros st.
  assert (Notify.strptime_HM (Notify.quiet_hours_start (Notify.config st)) = None) as Hbad
    by (vm_compute; reflexivity).
  split; [reflexivity|]. split; [exact Hbad|].
  exact (unreadable_window_blocks_all _ st eq_refl (or_introl Hbad)).
Defined.

Lemma withheld_name_blinds_poll_witness :
  let st' := Monitor.run_monitoring Scenario.blind_poll Sample.supervisor in
  Scenario.nameless ∈ Monitor.procs_at_restart Scenario.blind_poll ∧
  Monitor.name Scenario.nameless = None ∧
  Monitor.spawned st' = [] ∧
  Monitor.new_events Sample.supervisor st' = [Monitor.CheckFailed].
Proof.
  intros st'.
  assert (Scenario.nameless ∈ Monitor.procs_at_restart Scenario.blind_poll) as Hin by left.
  assert (("data_collector", "run_collector.py") ∈ Monitor.script_names) as Hrole by left.
  assert (∀ q, q ∈ Monitor.procs_at_restart Scenario.blind_poll →
               Monitor.matches "run_collector.py" q ≠ Some true) as Hdown.
  { intros q Hq. simpl in Hq.
    repeat (apply elem_of_cons in Hq as [->|Hq]; [vm_compute; discriminate|]).
    by apply elem_of_nil in Hq. }
  destruct (withheld_name_blinds_poll Scenario.blind_poll Sample.supervisor Scenario.nameless
              "data_collector" "run_collector.py" Hin eq_refl Hrole Hdown)
    as (_ & H2 & H3 & _).
  split; [exact Hin|]. split; [reflexivity|]. split; [exact H2 | exact H3].
Defined.

Lemma poll_spawns_only_missing_witness :
  let st' := Monitor.run_monitoring Sample.poll Sample.supervisor in
  is_Some (Monitor.check_processes (Monitor.procs_at_restart Sample.poll)) ∧
  Monitor.is_running "run_notifier.py" (Monitor.procs_at_restart Sample.poll) = Some true ∧
  "run_notifier.py" ∉ drop (length (Monitor.spawned Sample.supervisor)) (Monitor.spawned st').
Proof.
  intros st'.
  pose (status := default ∅ (Monitor.check_processes (Monitor.procs_at_restart Sample.poll))).
  assert (Monitor.check_processes (Monitor.procs_at_restart Sample.poll) = Some status)
    as Hcheck by (vm_compute; reflexivity).
  assert (Monitor.is_running "run_notifier.py" (Monitor.procs_at_restart Sample.poll) =
          Some true) as Hrun by (vm_compute; reflexivity).
  split; [rewrite Hcheck; eauto|]. split; [exact Hrun|].
  refine (proj2 (poll_spawns_only_missing Sample.poll Sample.supervisor status Hcheck)
            "notifier" "run_notifier.py" _ (or_introl Hrun)).
  right. right. right. left.
Defined.

Lemma backup_names_distinct : NoDup (map Backup.name Scenario.backups).
Proof.
  simpl. repeat (apply NoDup_cons; split; [|]); [| | |apply NoDup_nil; done];
    intros H; repeat (apply elem_of_cons in H as [H|H]; [discriminate H|]);
    by apply elem_of_nil in H.
Qed.

Lemma cleanup_removes_only_old_backups_witness :
  NoDup (map Backup.name Scenario.backups) ∧
  map Backup.name
    (Backup.cleanup_old_backups (100 * Backup.day) 30 (λ _, true) Scenario.backups) =
  ["market_data_backup_20240321_030000.zip"; "notes.txt"] ∧
  Backup.cleanup_old_backups (100 * Backup.day) 30 (λ _, true) Scenario.backups
    `sublist_of` Scenario.backups.
Proof.
  split; [exact backup_names_distinct|]. split; [vm_compute; reflexivity|].
  exact (proj1 (cleanup_removes_only_old_backups (100 * Backup.day) 30 (λ _, true)
                  Scenario.backups backup_names_distinct)).
Defined.

Lemma backup_deletes_only_after_upload_witness :
  let res := Backup.perform_backup (100 * Backup.day) "20240331_030000" Backup.Written
               Scenario.remote (100 * Backup.day + 1000000) (λ _, true)
               Scenario.backups [] in
  NoDup (map Backup.name Scenario.backups) ∧
  snd res = true ∧
  {| Backup.name := "market_data_backup_20240331_030000.zip";
     Backup.mtime := 100 * Backup.day; Backup.complete := true |} ∈ fst (fst res).
Proof.
  intros res.
  assert (snd res = true) as Hok by (vm_compute; reflexivity).
  split; [exact backup_names_distinct|]. split; [exact Hok|].
  destruct (proj2 (backup_deletes_only_after_upload (100 * Backup.day) "20240331_030000"
                     Backup.Written Scenario.remote (100 * Backup.day + 1000000) (λ _, true)
                     Scenario.backups [] backup_names_distinct) Hok)
    as (_ & _ & _ & Hnew).
  apply Hnew. vm_compute. discriminate.
Defined.

Lemma fetch_news_only_adds_witness :
  let c0 := Collector.connect Sample.news_db in
  let c1 := fst (Collector.fetch_news Scenario.local_time
                   (Some [Scenario.headline; Scenario.garbled]) "AAPL" c0) in
  let res := Collector.fetch_news Scenario.local_time (Some [Scenario.msft_headline]) "MSFT" c1 in
  Collector.sound c1 ∧
  snd res = true ∧
  news_data (Collector.store c1) !! 4 = None ∧
  (nd_symbol <$> Collector.view c1 !! 4) = Some "AAPL" ∧
  (nd_symbol <$> news_data (Collector.store (fst res)) !! 4) = Some "AAPL" ∧
  (nd_symbol <$> news_data (Collector.store (fst res)) !! 5) = Some "MSFT" ∧
  news_data (Collector.store (fst res)) = Collector.view (fst res).
Proof.
  intros c0 c1 res.
  assert (Collector.sound c1) as Hsound.
  { apply (fetch_news_only_adds Scenario.local_time
             (Some [Scenario.headline; Scenario.garbled]) "AAPL" c0), connect_sound. }
  assert (snd res = true) as Hres by (vm_compute; reflexivity).
  destruct (fetch_news_only_adds Scenario.local_time (Some [Scenario.msft_headline]) "MSFT"
              c1 Hsound) as (_ & _ & _ & _ & _ & Hok & _).
  destruct (Hok Hres) as [Hall _].
  split; [exact Hsound|]. split; [exact Hres|].
  split; [vm_compute; reflexivity|]. split; [vm_compute; reflexivity|].
  split; [vm_compute; reflexivity|]. split; [vm_compute; reflexivity|].
  exact Hall.
Defined.

Lemma collected_news_reaches_processor_witness :
  let st := Processor.startup Sample.empty_db None None in
  let c := Collector.connect (Processor.db st) in
  let d' := Collector.store
              (fst (Collector.fetch_news Scenario.local_time (Some [Scenario.headline])
                      "AAPL" c)) in
  Collector.sound c ∧
  is_Some (news_data d' !! 1) ∧
  1 ∈ map Processor.ni_id (Processor.fetch_unprocessed_news (Processor.set_db d' st)).
Proof.
  intros st c d'.
  assert (is_Some (news_data d' !! 1)) as Hnew by (vm_compute; eauto).
  split; [apply connect_sound|]. split; [exact Hnew|].
  refine (collected_news_reaches_processor Scenario.local_time (Some [Scenario.headline])
            "AAPL" c st (connect_sound _) eq_refl _ (or_introl eq_refl) eq_refl 1 eq_refl Hnew).
  intros j [x Hx]. simpl in Hx. rewrite lookup_empty in Hx. discriminate.
Defined.
